(* ===== verification/_CoqProject ===== *)
-Q . S2P
Prelude.v
Double.v
Grid.v
Random.v
Food.v
Input.v
Canvas.v
World.v
Engine.v
Pixels.v
Controller.v
Markup.v
Typing.v
Lifecycle.v
Liveness.v
Fairness.v
Timed.v
View.v
Spec.v
