(* ===== verification/Prelude.v ===== *)
(** * Intuition-snake: a verification development

    ** The program

    The program is a single React component, [src/app/components/SnakeGame.js],
    mounted by [src/app/page.js].  It keeps the game in mutable refs
    ([snakeRef], [dirRef], [foodRef], [scoreRef], [runningRef],
    [intervalRef]) and one React state ([score]).  Its effect, run once when
    the component is mounted, loads the logo, places the first food, registers
    [handleKey] for [keydown] on [window] and starts a 120 ms interval timer
    whose callback is [tick].  [tick] moves the snake one cell, ends the game
    through [gameOver] (which cancels the timer and calls [alert]) when the
    head leaves the board or meets the body, grows the snake and calls
    [spawnFood] when the head is on the food, and paints the canvas with
    [draw].  Two buttons pause/resume and restart; neither can start [tick]
    again, both fall back on [window.location.reload()].

    The handlers share the refs and run one at a time on the event loop of
    the browser.  The model follows that: one record, [World.World], holds
    everything a handler reads or writes, every handler is a function on it,
    and a run of the page is a list of events.

    ** Files, in dependency order

    - [Prelude] (this file): the libraries every file loads, the [js_scope]
      notations for JavaScript's [===] and [!==], the tactic
      [js_decide_closed], the hint database [snake], and the lemmas on lists
      and strings that the components share ([removelast] is
      [Array.prototype.pop]).
    - [Double]: the rounding of a product to double precision, [fl] (round
      to nearest, ties to even, 53 bits, subnormals), and the numbers of
      the format, [is_double].
    - [Grid]: GridModel.  The constants [tileCount], [boxSize], [canvasSize]
      (lines 6-8), cells [{x, y}] as the record [Cell.t], the four unit
      directions of lines 55-58, the wall test of line 71 as [hits_wall], the
      cell comparison of lines 35, 78 and 88 as [same_cell], the enumeration
      [all_cells] of the board and the pigeonhole bound on lists of distinct
      cells ([NoDup_in_grid_length], [free_cell], [full_board]).
    - [Random]: [Math.random] as the interface [RandomSource], a class that
      gives the sequence of numbers drawn during a session with its laws
      (each is a double, at least 0 and less than 1); [random_coordinate] is
      [Math.floor(Math.random() * tileCount)], the product rounded by
      [Double.fl].  Everything proved about the program is proved for every
      instance; [selected] builds an instance from a sequence of
      coordinates, [scripted] the instances the concrete runs use, and
      [sweep] the instance that draws every cell of the board in turn.
    - [Food]: FoodPlacer.  [spawnFood] (lines 26-37); its do-while loop is
      [spawnFood_loop], recursive on fuel, with the counter [tries] and the
      position in the random stream as explicit state.
    - [Input]: InputController.  [handleKey] (lines 53-59) as a function of
      [e.key] and the value of [dirRef], and the rule of the specification
      [handleKey_spec] it is compared with.
    - [Canvas]: Renderer.  The 2D context records [fillStyle], [font] and the
      list of painting calls made; [draw_on] is the body of [draw]
      (lines 107-130), [draw_commands] the frame it paints.
    - [World]: the record [World] (the refs of lines 10-20, the state of
      line 23, and the browser state the code touches: active timers, the
      next timer id, the [keydown] listeners, the alerts shown, the position
      in the random stream, the count of page loads), one setter per field
      for the assignments of the source, the completion of a handler
      ([Normal] or [TypeError], both with the state left behind), and the
      browser functions [setInterval], [clearInterval] and [alert].
    - [Engine]: SimulationEngine.  [tick] (lines 63-99), [gameOver]
      (lines 147-154) and [draw] (lines 102-131) on [World]; the branch
      specification [tick_spec]; the invariant [playable].
    - [Pixels]: the meaning of the painting calls for the pixels of the
      canvas, by source-over compositing.  A call covers a pixel fully,
      partly or not at all ([Coverage], [covers]); a full cover replaces
      what the pixel showed, a partial one (the anti-aliased edge of a
      glyph, a partly transparent pixel of the logo) is laid over it
      ([compose], [lay], [pixel_on]).  The coverage of a text and of an
      image are parameters of the file; the rectangles of the program have
      integer corners and cover whole pixels.  [shown] is the picture on the
      canvas of a page, [same_picture] the equivalence of lists of calls.
    - [Controller]: GameController.  The effect and its cleanup
      (lines 39-145) as [effect] and [cleanup], a page load as [mount],
      [window.location.reload()] as [reload], the two [onClick] handlers
      (lines 183-188 and 194-206) as [restart_click] and [pause_click],
      [resetGame] (lines 156-168), the event loop as [handle] and [run] and
      as the step relation [page_step], the states of all runs from a page
      load as [reachable], and the invariant [page_ok].  React removes the
      component in two events: [Unmount] ([detach]: the elements leave the
      document and the ref is cleared) and, later, [Cleanup]; the timer and
      the key listener run in between.  The [load] event of the logo can
      occur whenever an image has been created, any number of times, which
      covers the one event per image a browser fires.
    - [Markup]: the markup [SnakeGame] returns (lines 170-214) and [Home]
      of [src/app/page.js] as trees of elements ([Node], [Attr]), and the
      queries a browser or a player makes of a tree ([textContent],
      [by_tag], [score_line], [button_labels], [clicks], [bitmap]).
    - [Typing]: the types the handlers assume of the refs, [typed].
    - [Lifecycle]: the effect against its cleanup, a mount under React's
      StrictMode ([strict_mount]: effect, cleanup, effect), the gap between
      the two steps of an unmount, and what a call of [resetGame] would
      do.
    - [Liveness]: the distance of the head to the wall it moves towards
      ([ticks_left]) as a measure of the runs in which only the tick timer
      fires ([idle]).
    - [Fairness]: the interface [Covering] of the sources under which
      [spawnFood] finds every free cell, its instance for [Random.sweep],
      and the invariant [food_safe].
    - [Timed]: the page on a clock.  A [Clocked] page is a state with the
      time and the due time of every active timer; [occurs] is a turn of
      the event loop at a given time (a timer does not run before it is
      due, and is due again one delay later), [run_at] a run of events with
      their times, [wait] the browser that is never late.
    - [View]: React's rendering as a commit after every handler
      ([handle_page]): a [Page] is a state with the document displayed, the
      markup of the state at the last render.
    - [Spec]: the game as the specification describes it, written from its
      words: a [Model] with a current and a pending direction and the states
      Running, Paused and GameOver, the commands as the executable machine
      [model_step], the relation [refines] between a model and a state of
      the page, and the sessions of a page ([session]).

    ** What is proved

    - [Double]: rounding respects the equality of rationals and leaves the
      doubles as they are ([fl_double]); it does not cross an integer while
      the grid is finer than the integers ([fl_pos_le_int]); the rounded
      product of a double below 1 and 20 is below 20 ([fl_scale_range]).
    - [Random]: a coordinate drawn is between 0 and 19, whatever double
      [Math.random()] returns ([random_coordinate_range]).
    - [Food]: the loop returns on 501 units of fuel
      ([spawnFood_loop_returns]); the result is the first sample off the
      snake among the first 500 ([spawnFood_first_free], [spawnFood_off],
      [spawnFood_free]);
      when all 500 are on the snake the 501st is returned untested after
      1002 calls of [Math.random()] ([spawnFood_exhausted],
      [spawnFood_calls]), so the food can land on the snake although cells
      are free ([spawnFood_may_overlap]).
    - [Input]: on unit directions [handleKey] is the rule of the
      specification ([handleKey_spec_equiv]), stores unit directions only and
      never the opposite of the stored one ([handleKey_is_direction],
      [handleKey_not_reverse]), ignores other keys ([handleKey_other_key]);
      two presses do reverse ([handleKey_twice_reverses]).
    - [Canvas]: [draw] appends exactly the frame [draw_commands]
      ([draw_on_painted]) and every call of a frame stays inside the canvas
      ([draw_commands_in_canvas]).
    - [Engine]: [tick] is its branch specification, on every state
      ([tick_spec_iff], and [tick_not_running], [tick_collision], [tick_eat],
      [tick_move] for the branches, [tick_throws] for the two error paths);
      it preserves [playable] and does not throw on playable states
      ([tick_playable], [tick_returns]); length, score, direction and neck
      after a tick ([tick_length], [tick_dirRef], [tick_neck],
      [playable_score_bound]); the food stays off the snake as long as
      [spawnFood] finds a free cell ([tick_food_off_snake]); what [gameOver]
      and [draw] change ([gameOver_stops], [gameOver_terminal],
      [draw_model]).
    - [Pixels]: the frame starts with an opaque fill of the whole canvas, so
      it hides what the canvas showed before: the picture after [draw]
      depends on the model only and a second [draw] changes no pixel
      ([frame_hides_history], [draw_forgets_canvas],
      [draw_on_same_picture], [draw_idempotent]); without the fill the
      partly covering text of a second frame would be laid over the first
      ([frame_needs_fill]).  Each cell shows the colour of what the model
      has on it ([draw_shows_cell]), and the cell of the food shows the
      logo over the background once it has loaded ([draw_shows_logo]).
    - [Controller]: the step relation is the event loop
      ([page_step_handle]); every handler preserves [page_ok] and returns
      normally, so every reachable state satisfies it ([reachable_ok],
      [handlers_return]); pause stops the game and keeps the model
      ([pause_click_pauses]); within a page only the tick callback changes
      the snake, the food and the scores, and once it is cancelled nothing
      brings it back, so a paused game and a finished game stay as they are
      until the page is reloaded ([pause_never_resumes], [game_over_frozen]);
      resume and restart are page loads with a new game ([resume_reloads],
      [reload_new_game], [restart_click_cases], [game_over_pause_click]); the
      score never decreases within a page ([score_monotone]); one key press
      after a tick cannot steer the head into the neck, two can
      ([single_key_safe], [double_key_reverses]).
    - [Markup]: the document has one canvas of 400 by 400, the size [draw]
      paints on, the two buttons in the order Restart, Pause/Resume, and
      click handlers on the two buttons only ([render_canvas],
      [render_button_labels], [render_clicks]).
    - [Typing]: every handler, also one that throws, and [resetGame], the
      effect and its cleanup keep the types of the refs
      ([handlers_typed]), so every reachable state is typed
      ([reachable_typed]).
    - [Lifecycle]: the cleanup gives back the timer and the listener the
      effect took ([effect_cleanup_roundtrip], [cleanup_effect]); a mount
      under StrictMode is a plain mount with the next timer id
      ([strict_mount_ok]); [resetGame] on a stopped game gives a new game
      whose timer reloads the page, and on a running game leaves two timers
      active ([resetGame_stopped], [resetGame_leaks_timer]); a tick between
      the two steps of an unmount moves the snake and paints nothing
      ([tick_detached]); after the cleanup, whatever happened in the gap, no
      timer and no listener is left and no event changes the game again
      ([cleanup_final], [unmount_final]).
    - [Liveness]: a game left alone is over after 20 ticks at most
      ([game_ends]); from every state of a page in the document two clicks
      at most start a new game ([restart_possible]).
    - [Fairness]: against a source that covers the board [spawnFood]
      returns a free cell whenever there is one ([spawnFood_covering]) and
      the food is off the snake in every reachable state in which the
      snake leaves a cell free ([food_never_on_snake]); [Random.sweep]
      covers the board ([sweep_covering]); a snake that fills the board
      ends the game at the next tick ([full_board_tick]).
    - [Timed]: a run on the clock is a run of the event loop
      ([run_at_run]); the score is at most one point per 120 ms since the
      page load, however late the timers run ([score_pace]); a game left
      alone with a browser that is never late is over after 2.4 s at most
      ([idle_game_time]); a click on Resume loads the page again 120 ms
      later ([resume_reload_time]).
    - [View]: the document always displays the score ([score_displayed]),
      and the button always reads Pause, because its label is evaluated only
      when React renders and the game runs whenever React renders
      ([label_always_pause]).
    - [Spec]: simulations between [model_step] and the handlers.  The tick
      callback implements the tick of the specification when the stored
      direction is not the reverse of the last move ([tick_refines]); the
      key listener implements the key rule for the first key after a tick
      ([key_refines]); Pause implements pause and Restart implements reset
      once the game is stopped ([pause_sim], [reset_sim]); Resume does not
      implement resume ([resume_diverges]).  The side conditions are exact:
      [Controller.double_key_reverses] shows what a second key does.  Over
      whole runs: every session from a page load (keys with at most one
      between two moves of the snake, ticks, Pause while the game runs,
      Restart while it is stopped, the load of the logo) is a run of the
      machine, whatever state it ends in ([session_refines]), and the run is
      the one in which every step places the food as [spawnFood] does at that
      point of the random stream ([session_follows]).

    Each theorem with hypotheses is applied to a concrete state in a lemma
    named after it ([..._witness]); the scenarios of the specification are
    the examples at the end of [Engine], [Controller] and [Spec].

    ** Conventions, bounds and fuel

    JavaScript numbers are modelled by [Z] where the program computes with
    integers: coordinates lie in [-1, 20] and the score is at most 399
    ([Engine.playable_score_bound]), far below 2^53, so double-precision
    arithmetic is exact on them.  The one place where a number is not an
    integer is [Math.random() * tileCount]: the numbers [Math.random()]
    returns are doubles in [0, 1), as rationals, and the product is rounded
    by [Double.fl].  Arrays are lists, head first: [unshift] is [cons],
    [pop] is [removelast], [some] is [existsb], [forEach] a recursion on
    the list.  Strings are stdpp's [string].

    The only loop that needs fuel is the do-while of [spawnFood].  Its
    counter starts at 0, is incremented in every iteration and ends the loop
    when it exceeds 500, so the body runs at most 501 times;
    [Food.spawnFood_fuel] is 501 and [Food.spawnFood_loop_returns] shows that
    this, or more, always gives a result.  The loop over the snake in [tick]
    and the [forEach] of [draw] are structural recursions.  The bound of 20
    ticks in [Liveness.game_ends] is [tileCount]: the head is at most 19
    steps from the wall it moves towards, and 2.4 s in
    [Timed.idle_game_time] is 20 delays of 120 ms.  The bound of 500
    samples in [Fairness.Covering] is the bound of the loop: the 501st
    sample is the one returned untested.

    Reading a property of [undefined] or [null] throws: [snake[0]] on an
    empty array and [foodRef.current] when it is null are the two places
    where [tick] can throw, and both are kept as [TypeError] completions.

    ** What is not modelled

    - The duration of a handler and the precision of the clock: in
      [Controller] any active timer may fire at any point of a run, and the
      theorems hold for every interleaving of events; in [Timed] an event
      takes no time, and a timer may run at any time from its due time on.
      The clamping of short delays by the browser does not apply to
      120 ms.
    - The shape of glyphs, the pixels of the logo and the arithmetic of
      blending: how much of a pixel a text or an image covers is a
      parameter, and a partial cover is recorded as one paint over another
      ([Pixels.Over]), not computed as a colour.  The loading of the logo
      beyond its [load] event.
    - Navigation: [window.location.reload()] is the next page load, taken
      at once; the events a browser may still deliver to the old page
      before it is discarded are not modelled.
    - The effect of the class names on the layout (the style sheet is not
      part of the sources); React's scheduling of a render beyond the fact
      that it follows the handler that called [setScore].
    - Overflow of the double format, which no number of the program
      reaches.

    ** Not yet covered

    Sessions in which the component is removed from the document and a new
    instance of it is mounted in the same page: the program has one route,
    and [Lifecycle.unmount_final] shows that the removed instance leaves
    nothing behind. *)

From Stdlib Require Import ZArith QArith Qround.
From stdpp Require Export base tactics list option gmap strings pretty relations.

#[global] Open Scope Z_scope.

(** ** Notations for JavaScript's strict equality on numbers and strings *)

Declare Scope js_scope.
Delimit Scope js_scope with js.
Notation "a === b" := (bool_decide (a = b))
  (at level 70, no associativity) : js_scope.
Notation "a !== b" := (negb (bool_decide (a = b)))
  (at level 70, no associativity) : js_scope.
#[global] Open Scope js_scope.

(** ** The hint database of the development *)

Create HintDb snake discriminated.
Create Rewrite HintDb snake.

(** ** Tactics *)

(** [js_decide_closed] evaluates the tests of the goal that compare two
    constants, such as a key name with ["ArrowUp"]. *)
Ltac js_decide_closed :=
  repeat match goal with
  | |- context [bool_decide ?P] =>
      let v := eval vm_compute in (bool_decide P) in
      lazymatch v with
      | true => change (bool_decide P) with true
      | false => change (bool_decide P) with false
      end
  end; simpl.

(** ** Lists: [Array.prototype.pop] is [removelast] *)

Section removelast.
Context {A : Type}.
Implicit Types (l : list A) (a : A).

Lemma removelast_cons a l : l ≠ [] → removelast (a :: l) = a :: removelast l.
Proof. by destruct l. Qed.

Lemma removelast_sublist l : removelast l `sublist_of` l.
Proof.
  induction l as [|a [|b l] IH]; simpl; [done|by apply sublist_nil_l|].
  by apply sublist_skip.
Qed.

Lemma length_removelast l : length (removelast l) = pred (length l).
Proof.
  induction l as [|a [|b l] IH]; [done..|].
  change (removelast (a :: b :: l)) with (a :: removelast (b :: l)).
  simpl length in *. by rewrite IH.
Qed.

Lemma elem_of_removelast a l : a ∈ removelast l → a ∈ l.
Proof. intros H. eapply elem_of_sublist; [done|apply removelast_sublist]. Qed.

Lemma NoDup_removelast l : NoDup l → NoDup (removelast l).
Proof. intros H. eapply sublist_NoDup; [done|apply removelast_sublist]. Qed.

Lemma Forall_removelast (P : A → Prop) l : Forall P l → Forall P (removelast l).
Proof. rewrite !Forall_forall. eauto using elem_of_removelast. Qed.

End removelast.

(** [simpl] leaves [removelast] alone: the lemmas above say what it does. *)
#[global] Arguments removelast : simpl never.

#[export] Hint Resolve NoDup_removelast Forall_removelast elem_of_removelast : snake.
#[export] Hint Rewrite @length_removelast : snake.

(** ** Lists: counting without duplicates *)

Lemma NoDup_incl_length {A} (l k : list A) :
  NoDup l → (∀ a, a ∈ l → a ∈ k) → (length l ≤ length k)%nat.
Proof. intros Hl Hk. by apply submseteq_length, NoDup_submseteq. Qed.

(** ** Strings *)

Lemma string_app_nil_r (s : string) : s +:+ EmptyString = s.
Proof.
  induction s as [|a s IH]; [done|].
  change (String a (s +:+ EmptyString) = String a s). by f_equal.
Qed.

#[export] Hint Rewrite string_app_nil_r : snake.
