(* ===== verification/Double.v ===== *)
(** * Double: rounding to double precision

    [Math.random() * tileCount] (lines 30 and 31) is a multiplication of
    JavaScript numbers: the exact product is rounded to the nearest number
    of the binary64 format, ties to the even mantissa, before [Math.floor]
    sees it.  Numbers are rationals in the model; [fl] is the rounding, with
    53 bits of precision and the subnormal range (the smallest exponent of a
    unit in the last place is -1074).  Overflow is not modelled: [fl] is
    the rounding of the format with unbounded exponents above, which is
    the rounding of binary64 on every number below 2^1024.

    [is_double] says that a rational is a number of the format.  The
    rounding respects the equality of rationals (the [Proper] instances),
    and the doubles are fixed points of it ([fl_double]).  The lemma
    [Random] needs is [fl_scale_range]: the rounded product of a double
    below 1 and 20 is below 20, so its floor is at most 19.  The examples
    at the end compare [fl] with the bits JavaScript prints for 0.1,
    0.1 + 0.2 and 1/3, and show that the rounding can change the cell a
    number selects. *)

From Stdlib Require Import QArith Qround Qpower Lqa.
From S2P Require Import Prelude.

(** ** The format *)

(** [2 ^ k] for an integer [k] of either sign. *)
Definition Qpow2 (k : Z) : Q := (2 ^ k)%Q.

(** A number of the format: [m * 2 ^ e] with a mantissa of at most 53 bits
    and an exponent in the range of binary64. *)
Definition is_double (x : Q) : Prop :=
  ∃ m e : Z, (x == inject_Z m * Qpow2 e)%Q ∧ Z.abs m < 2 ^ 53 ∧ -1074 ≤ e ≤ 971.

(** The largest double below 1, [1 - 2 ^ -53]. *)
Definition top_double : Q := 9007199254740991 # 9007199254740992.

(** ** Rounding *)

(** The nearest integer, ties to even. *)
Definition round_even (q : Q) : Z :=
  let n := Qfloor q in
  match (q - inject_Z n ?= 1 # 2)%Q with
  | Lt => n
  | Gt => n + 1
  | Eq => if Z.even n then n else n + 1
  end.

(** The [e] with [2 ^ e <= x < 2 ^ (e + 1)], for [x > 0]. *)
Definition binade (x : Q) : Z :=
  if Qle_bool 1 x then Z.log2 (Qfloor x) else - Z.log2_up (Qceiling (/ x)).

(** The exponent of the unit in the last place of [x]. *)
Definition exponent (x : Q) : Z := Z.max (binade x) (-1022) - 52.

Definition fl_pos (x : Q) : Q :=
  (inject_Z (round_even (x * Qpow2 (- exponent x))) * Qpow2 (exponent x))%Q.

(** The double nearest to [x]. *)
Definition fl (x : Q) : Q :=
  match (x ?= 0)%Q with
  | Eq => 0%Q
  | Gt => fl_pos x
  | Lt => (- fl_pos (- x))%Q
  end.

(** The rounding does not tell two fractions of the same rational apart. *)
#[export] Instance round_even_comp : Proper (Qeq ==> eq) round_even.
Proof.
  intros q1 q2 Hq. unfold round_even. cbv zeta.
  rewrite (Qfloor_comp _ _ Hq). by rewrite Hq.
Qed.

#[export] Instance binade_comp : Proper (Qeq ==> eq) binade.
Proof.
  intros x1 x2 Hx. unfold binade.
  rewrite (Qleb_comp 1%Q 1%Q (Qeq_refl 1%Q) _ _ Hx), (Qfloor_comp _ _ Hx).
  by rewrite (Qceiling_comp (/ x1) (/ x2)) by (by rewrite Hx).
Qed.

#[export] Instance exponent_comp : Proper (Qeq ==> eq) exponent.
Proof. intros x1 x2 Hx. unfold exponent. by rewrite Hx. Qed.

#[export] Instance fl_pos_comp : Proper (Qeq ==> Qeq) fl_pos.
Proof.
  intros x1 x2 Hx. unfold fl_pos. rewrite (exponent_comp _ _ Hx).
  by rewrite (round_even_comp (x1 * _)%Q (x2 * _)%Q) by (by rewrite Hx).
Qed.

#[export] Instance fl_comp : Proper (Qeq ==> Qeq) fl.
Proof.
  intros x1 x2 Hx. unfold fl. rewrite (Qcompare_comp _ _ Hx _ _ (Qeq_refl 0%Q)).
  destruct (x2 ?= 0)%Q; [done|..]; by rewrite Hx.
Qed.

(** ** Powers of two and the nearest integer *)

Lemma Qpow2_pos k : (0 < Qpow2 k)%Q.
Proof. by apply Qpower_0_lt. Qed.

Lemma Qpow2_add a b : (Qpow2 (a + b) == Qpow2 a * Qpow2 b)%Q.
Proof. by apply Qpower_plus. Qed.

(** A scaling by a power of two and back. *)
Lemma Qpow2_opp k : (Qpow2 k * Qpow2 (- k) == 1)%Q.
Proof. by rewrite <-Qpow2_add, Z.add_opp_diag_r. Qed.

Lemma Qpow2_nonneg_exp k : 0 ≤ k → (Qpow2 k == inject_Z (2 ^ k))%Q.
Proof. intros Hk. unfold Qpow2. by rewrite (Zpower_Qpower 2 k Hk). Qed.

Lemma Qpow2_neg_exp k : 0 ≤ k → (Qpow2 (- k) == / inject_Z (2 ^ k))%Q.
Proof. intros Hk. unfold Qpow2. by rewrite Qpower_opp, (Zpower_Qpower 2 k Hk). Qed.

Lemma Qpow2_lt a b : (Qpow2 a < Qpow2 b)%Q → a < b.
Proof. intros Hlt. by apply (Qpower_lt_compat_l_inv 2). Qed.

Lemma Qpow2_le a b : a ≤ b → (Qpow2 a <= Qpow2 b)%Q.
Proof. intros Hle. by apply Qpower_le_compat_l. Qed.

Lemma round_even_cases q : round_even q = Qfloor q ∨ round_even q = Qfloor q + 1.
Proof. unfold round_even. destruct (Qcompare _ _); [destruct (Z.even _)|..]; auto. Qed.

Lemma round_even_nonneg q : (0 <= q)%Q → 0 ≤ round_even q.
Proof.
  intros Hq. apply Qfloor_resp_le in Hq. change (Qfloor 0) with 0 in Hq.
  destruct (round_even_cases q); lia.
Qed.

(** Rounding stays below an integer and a half. *)
Lemma round_even_le_half q N : (q < inject_Z N + (1 # 2))%Q → round_even q ≤ N.
Proof.
  intros Hq. pose proof (Qfloor_le q) as Hfloor. unfold round_even.
  destruct (Z.lt_trichotomy (Qfloor q) N) as [Hlt|[Heq|Hgt]].
  - destruct (round_even_cases q) as [Hr|Hr]; unfold round_even in Hr; lia.
  - destruct (Qcompare_spec (q - inject_Z (Qfloor q)) (1 # 2)) as [He|?|Hg]; [|lia|];
      rewrite Heq in *; lra.
  - assert (N + 1 ≤ Qfloor q) as Hle by lia. rewrite Zle_Qle, inject_Z_plus in Hle.
    change (inject_Z 1) with 1%Q in Hle. lra.
Qed.

Lemma round_even_le q N : (q <= inject_Z N)%Q → round_even q ≤ N.
Proof. intros Hq. apply round_even_le_half. lra. Qed.

Lemma fl_pos_nonneg x : (0 <= x)%Q → (0 <= fl_pos x)%Q.
Proof.
  intros Hx. unfold fl_pos. apply Qmult_le_0_compat; [|apply Qlt_le_weak, Qpow2_pos].
  rewrite <-(Zle_Qle 0). apply round_even_nonneg.
  apply Qmult_le_0_compat; [done|apply Qlt_le_weak, Qpow2_pos].
Qed.

(** Rounding does not cross a point of the grid and a half. *)
Lemma fl_pos_le_half x K :
  (x * Qpow2 (- exponent x) < inject_Z K + (1 # 2))%Q →
  (fl_pos x <= inject_Z K * Qpow2 (exponent x))%Q.
Proof.
  intros Hx%round_even_le_half. unfold fl_pos.
  apply Qmult_le_compat_r; [by rewrite <-Zle_Qle|apply Qlt_le_weak, Qpow2_pos].
Qed.

(** While the grid is finer than the integers, rounding does not cross an
    integer. *)
Lemma fl_pos_le_int x M :
  exponent x ≤ 0 → (x <= inject_Z M)%Q → (fl_pos x <= inject_Z M)%Q.
Proof.
  intros He Hx. pose proof (Qpow2_pos (- exponent x)) as Hpos.
  pose proof (Qpow2_opp (- exponent x)) as Hinv. rewrite Z.opp_involutive in Hinv.
  assert (fl_pos x <= inject_Z (M * 2 ^ (- exponent x)) * Qpow2 (exponent x))%Q as Hle.
  { apply fl_pos_le_half. rewrite inject_Z_mult, <-Qpow2_nonneg_exp by lia.
    apply (Qmult_le_compat_r _ _ (Qpow2 (- exponent x))) in Hx; lra. }
  rewrite inject_Z_mult, <-Qpow2_nonneg_exp in Hle by lia.
  rewrite <-Qmult_assoc, Hinv, Qmult_1_r in Hle. done.
Qed.

Lemma binade_small x : (0 < x)%Q → (x < 16)%Q → binade x ≤ 3.
Proof.
  intros H0 H16. unfold binade. destruct (Qle_bool 1 x) eqn:H1.
  - change 3 with (Z.log2 15). apply Z.log2_le_mono.
    assert (Qfloor x < 16); [|lia]. rewrite Zlt_Qlt.
    eapply Qle_lt_trans; [apply Qfloor_le|done].
  - pose proof (Z.log2_up_nonneg (Qceiling (/ x))). lia.
Qed.

Lemma binade_16 x : (16 <= x)%Q → (x < 32)%Q → binade x = 4.
Proof.
  intros H16 H32. unfold binade.
  rewrite (proj2 (Qle_bool_iff 1 x)) by lra.
  apply Z.log2_unique; [done|]. change (2 ^ 4) with 16. change (2 ^ Z.succ 4) with 32. split.
  - change 16 with (Qfloor 16). by apply Qfloor_resp_le.
  - rewrite Zlt_Qlt. eapply Qle_lt_trans; [apply Qfloor_le|done].
Qed.

(** The doubles below 1 end at [1 - 2^-53]. *)
Lemma double_below_one r :
  is_double r → (r < 1)%Q → (r <= top_double)%Q.
Proof.
  intros (m & e & Hr & Hm & He) Hlt. rewrite Hr in *. clear Hr r. unfold top_double.
  change (2 ^ 53) with 9007199254740992 in Hm.
  destruct (decide (0 ≤ e)) as [Hpos|Hneg].
  - rewrite Qpow2_nonneg_exp, <-inject_Z_mult in * by done.
    change 1%Q with (inject_Z 1) in Hlt. rewrite <-Zlt_Qlt in Hlt.
    assert (m * 2 ^ e ≤ 0) as Hle by lia. rewrite Zle_Qle in Hle.
    change (inject_Z 0) with 0%Q in Hle. lra.
  - rewrite <-(Z.opp_involutive e), Qpow2_neg_exp in * by lia.
    assert (0 < 2 ^ (- e)) as HP by (apply Z.pow_pos_nonneg; lia).
    revert Hlt. generalize dependent (2 ^ (- e)). intros P HP.
    destruct P as [|P|P]; [lia| |lia]. unfold Qlt, Qle, Qinv. simpl.
    rewrite !Z.mul_1_r, ?Pos.mul_1_r. intros Hlt. nia.
Qed.

Lemma exponent_small x : (0 < x)%Q → (x < 16)%Q → exponent x ≤ 0.
Proof. intros H0 H16. unfold exponent. pose proof (binade_small x H0 H16). lia. Qed.

Lemma exponent_16 x : (16 <= x)%Q → (x < 32)%Q → exponent x = -48.
Proof. intros H16 H32. unfold exponent. by rewrite binade_16. Qed.

(** The product of a double below 1 and 20, rounded, is below 20. *)
Lemma fl_pos_lt_20 x : (0 < x)%Q → (x <= 20 * top_double)%Q → (fl_pos x < 20)%Q.
Proof.
  intros H0 Hx. unfold top_double in Hx. destruct (Qlt_le_dec x 16) as [Hlt|Hge].
  - apply Qle_lt_trans with (inject_Z 16); [|done].
    apply fl_pos_le_int; [by apply exponent_small|]. change (inject_Z 16) with 16%Q. lra.
  - pose proof (fl_pos_le_half x (20 * 2 ^ 48 - 1)) as Hhalf.
    rewrite (exponent_16 x Hge) in Hhalf by lra.
    eapply Qle_lt_trans; [apply Hhalf|by vm_compute].
    change (Qpow2 (- -48)) with 281474976710656%Q.
    change (inject_Z (20 * 2 ^ 48 - 1)) with 5629499534213119%Q. lra.
Qed.

Lemma fl_scale_range r :
  is_double r → (0 <= r)%Q → (r < 1)%Q → 0 ≤ Qfloor (fl (r * 20)) < 20.
Proof.
  intros Hd H0 H1. pose proof (double_below_one r Hd H1) as Htop. unfold fl.
  destruct (Qcompare_spec (r * 20) 0) as [_|Hneg|Hpos]; [done|lra|].
  split.
  - change 0 with (Qfloor 0). apply Qfloor_resp_le, fl_pos_nonneg. lra.
  - rewrite Zlt_Qlt. eapply Qle_lt_trans; [apply Qfloor_le|].
    apply fl_pos_lt_20; [done|]. unfold top_double in *. lra.
Qed.

(** ** The doubles are the fixed points of the rounding *)

Lemma round_even_Z n : round_even (inject_Z n) = n.
Proof.
  unfold round_even. rewrite Qfloor_Z.
  by destruct (Qcompare_spec (inject_Z n - inject_Z n) (1 # 2)); [lra|done|lra].
Qed.

(** [2 ^ binade x] is at most [x]. *)
Lemma binade_lower x : (0 < x)%Q → (Qpow2 (binade x) <= x)%Q.
Proof.
  intros H0. unfold binade. destruct (Qle_bool 1 x) eqn:H1.
  - apply Qle_bool_iff, Qfloor_resp_le in H1. change (Qfloor 1) with 1 in H1.
    rewrite Qpow2_nonneg_exp by apply Z.log2_nonneg.
    eapply Qle_trans; [|apply Qfloor_le]. rewrite <-Zle_Qle. apply Z.log2_spec. lia.
  - assert (x < 1)%Q as Hlt.
    { destruct (Qlt_le_dec x 1) as [?|Hle%Qle_bool_iff]; [done|congruence]. }
    assert (1 < / x)%Q as Hinv by (apply Qlt_shift_inv_l; lra).
    pose proof (Qle_ceiling (/ x)) as Hceil.
    assert (1 < Qceiling (/ x)) as Hc.
    { rewrite Zlt_Qlt. change (inject_Z 1) with 1%Q. lra. }
    pose proof (Z.log2_up_spec _ Hc) as [_ Hup]. rewrite Zle_Qle in Hup.
    rewrite Qpow2_neg_exp by apply Z.log2_up_nonneg.
    apply Qle_shift_inv_r.
    + rewrite <-(Zlt_Qlt 0). apply Z.pow_pos_nonneg; [done|apply Z.log2_up_nonneg].
    + assert (x * / x == 1)%Q as Hone by (apply Qmult_inv_r; lra).
      apply (Qmult_le_compat_r _ _ x) in Hup; [|lra].
      apply (Qmult_le_compat_r _ _ x) in Hceil; [|lra]. lra.
Qed.

(** The unit in the last place of [m * 2 ^ e] is at most [2 ^ e]. *)
Lemma exponent_double m e :
  0 < m < 2 ^ 53 → -1074 ≤ e → exponent (inject_Z m * Qpow2 e) ≤ e.
Proof.
  intros [Hm0 Hm] He. pose proof (Qpow2_pos e) as Hpos.
  rewrite Zlt_Qlt in Hm0, Hm. change (inject_Z 0) with 0%Q in Hm0.
  assert (binade (inject_Z m * Qpow2 e) < 53 + e); [|unfold exponent; lia].
  apply Qpow2_lt. eapply Qle_lt_trans; [apply binade_lower; nra|].
  rewrite Qpow2_add, (Qpow2_nonneg_exp 53) by done.
  by apply Qmult_lt_compat_r.
Qed.

Lemma fl_pos_double m e :
  0 < m < 2 ^ 53 → -1074 ≤ e →
  (fl_pos (inject_Z m * Qpow2 e) == inject_Z m * Qpow2 e)%Q.
Proof.
  intros Hm He. pose proof (exponent_double m e Hm He) as HE. unfold fl_pos.
  generalize dependent (exponent (inject_Z m * Qpow2 e)). intros E HE.
  assert (inject_Z m * Qpow2 e * Qpow2 (- E) == inject_Z (m * 2 ^ (e - E)))%Q as ->.
  { by rewrite <-Qmult_assoc, <-Qpow2_add, inject_Z_mult, Z.add_opp_r,
      Qpow2_nonneg_exp by lia. }
  rewrite round_even_Z, inject_Z_mult, <-Qpow2_nonneg_exp, <-Qmult_assoc, <-Qpow2_add by lia.
  by replace (e - E + E) with e by lia.
Qed.

(** Rounding leaves the numbers of the format as they are. *)
Lemma fl_double x : is_double x → (fl x == x)%Q.
Proof.
  intros (m & e & -> & Hm & He). pose proof (Qpow2_pos e) as Hpos. unfold fl.
  destruct (Z.lt_trichotomy m 0) as [Hneg|[->|Hpos']].
  - pose proof Hneg as Hlt. rewrite (Zlt_Qlt m 0) in Hlt.
    apply (Qmult_lt_compat_r _ _ (Qpow2 e)) in Hlt; [|done]. rewrite Qmult_0_l in Hlt.
    destruct (Qcompare_spec (inject_Z m * Qpow2 e) 0) as [?|_|?]; [lra| |lra].
    assert (- (inject_Z m * Qpow2 e) == inject_Z (- m) * Qpow2 e)%Q as ->
      by (rewrite inject_Z_opp; ring).
    rewrite fl_pos_double by lia. rewrite inject_Z_opp. ring.
  - change (inject_Z 0) with 0%Q.
    destruct (Qcompare_spec (0 * Qpow2 e) 0) as [?|?|?]; [ring|lra..].
  - pose proof Hpos' as Hlt. rewrite (Zlt_Qlt 0 m) in Hlt.
    apply (Qmult_lt_compat_r _ _ (Qpow2 e)) in Hlt; [|done]. rewrite Qmult_0_l in Hlt.
    destruct (Qcompare_spec (inject_Z m * Qpow2 e) 0) as [?|?|_]; [lra..|].
    apply fl_pos_double; lia.
Qed.

(** ** The rounding on known numbers *)

(** 0.1, 0.1 + 0.2 and 1/3 as JavaScript prints their bits; the tie at
    2^53 + 1; the smallest subnormal. *)
Example fl_tenth : Qred (fl (1 # 10)) = (3602879701896397 # 36028797018963968)%Q.
Proof. by vm_compute. Qed.

Example fl_sum :
  Qred (fl (fl (1 # 10) + fl (2 # 10))) = (1351079888211149 # 4503599627370496)%Q.
Proof. by vm_compute. Qed.

Example fl_third : Qred (fl (1 # 3)) = (6004799503160661 # 18014398509481984)%Q.
Proof. by vm_compute. Qed.

Example fl_tie_even :
  Qred (fl (inject_Z (2 ^ 53 + 1))) = inject_Z (2 ^ 53) ∧
  Qred (fl (inject_Z (2 ^ 53 + 3))) = inject_Z (2 ^ 53 + 4).
Proof. by vm_compute. Qed.

Example fl_subnormal :
  Qred (fl (1 # 2 ^ 1075)) = 0%Q ∧ (fl (3 # 2 ^ 1075) == 1 # 2 ^ 1073)%Q.
Proof. by vm_compute. Qed.

(** Rounding can change the cell a number selects: the double below 17/20
    selects 16 in exact arithmetic and 17 in double precision. *)
Example rounding_changes_cell :
  let r := (7656119366529843 # 9007199254740992)%Q in
  (r < 1)%Q ∧ Qfloor (r * 20) = 16 ∧ Qfloor (fl (r * 20)) = 17.
Proof. by vm_compute. Qed.
