(* ===== verification/Grid.v ===== *)
(** * Grid: the board, its cells and the unit directions

    GridModel of the specification.  The source has no class for it: the
    board is the three constants at the top of [SnakeGame] and cells are
    object literals [{x, y}].  This file gives them types and states the
    facts every other component uses: the wall test and the cell comparison
    of [tick] as boolean functions with their meaning as propositions, the
    four directions [handleKey] can store, and the count of cells of the
    board. *)

From S2P Require Import Prelude.

(** ** The constants (lines 6-8) *)

Definition tileCount : Z := 20.
Definition boxSize : Z := 20.
Definition canvasSize : Z := tileCount * boxSize.

(** ** Cells: the object literals [{x, y}] *)

Module Cell.

Record t : Type := mk { x : Z; y : Z }.

#[export] Instance eq_dec : EqDecision t.
Proof. solve_decision. Defined.

#[export] Instance countable : Countable t.
Proof.
  apply (inj_countable' (λ c, (x c, y c)) (λ p, mk p.1 p.2)).
  by intros [].
Defined.

(** [{ x: a.x + d.x, y: a.y + d.y }], the next head of [tick] (line 68). *)
Definition add (a d : t) : t := {| x := x a + x d; y := y a + y d |}.

(** The direction that undoes [d]. *)
Definition neg (d : t) : t := {| x := - x d; y := - y d |}.

End Cell.

Export (hints) Cell.
Add Printing Constructor Cell.t.

(** [s.x === c.x && s.y === c.y]: how the code compares two cells
    (lines 35, 78 and 88). *)
Definition same_cell (s c : Cell.t) : bool :=
  (Cell.x s === Cell.x c) && (Cell.y s === Cell.y c).

(** The wall test of [tick] (line 71). *)
Definition hits_wall (head : Cell.t) : bool :=
  (Cell.x head <? 0) || (Cell.x head >=? tileCount) ||
  (Cell.y head <? 0) || (Cell.y head >=? tileCount).

(** A cell of the board: both coordinates in [[0, tileCount)]. *)
Definition in_grid (c : Cell.t) : Prop :=
  0 ≤ Cell.x c < tileCount ∧ 0 ≤ Cell.y c < tileCount.

#[export] Instance in_grid_dec c : Decision (in_grid c).
Proof. unfold in_grid. apply _. Defined.

(** The first segment of the snake (lines 15 and 157):
    [Math.floor(tileCount / 2)] in both coordinates. *)
Definition start : Cell.t :=
  {| Cell.x := tileCount `div` 2; Cell.y := tileCount `div` 2 |}.

(** ** Directions: the four objects [handleKey] stores (lines 16, 55-58) *)

Definition dir_up : Cell.t := {| Cell.x := 0; Cell.y := -1 |}.
Definition dir_down : Cell.t := {| Cell.x := 0; Cell.y := 1 |}.
Definition dir_left : Cell.t := {| Cell.x := -1; Cell.y := 0 |}.
Definition dir_right : Cell.t := {| Cell.x := 1; Cell.y := 0 |}.

Definition directions : list Cell.t := [dir_up; dir_down; dir_left; dir_right].

(** A direction is a unit step along one axis. *)
Definition is_direction (d : Cell.t) : Prop := d ∈ directions.

#[export] Instance is_direction_dec d : Decision (is_direction d).
Proof. unfold is_direction. apply _. Defined.

(** ** Every cell of the board, column by column *)

Definition all_cells : list Cell.t :=
  cx ← seqZ 0 tileCount; cy ← seqZ 0 tileCount; [Cell.mk cx cy].

(** ** Facts *)

Lemma same_cell_true s c : same_cell s c = true ↔ s = c.
Proof.
  unfold same_cell. rewrite andb_true_iff, !bool_decide_eq_true.
  destruct s, c; simpl. split; [by intros [-> ->]|by intros [= -> ->]].
Qed.

Lemma same_cell_false s c : same_cell s c = false ↔ s ≠ c.
Proof. rewrite <-same_cell_true. by destruct (same_cell s c). Qed.

Lemma same_cell_refl c : same_cell c c = true.
Proof. by apply same_cell_true. Qed.

Lemma hits_wall_false c : hits_wall c = false ↔ in_grid c.
Proof. unfold hits_wall, in_grid. lia. Qed.

Lemma hits_wall_true c : hits_wall c = true ↔ ¬ in_grid c.
Proof. rewrite <-hits_wall_false. by destruct (hits_wall c). Qed.

Lemma start_in_grid : in_grid start.
Proof. by vm_compute. Qed.

Lemma is_direction_inv d :
  is_direction d ↔ d = dir_up ∨ d = dir_down ∨ d = dir_left ∨ d = dir_right.
Proof.
  unfold is_direction, directions.
  rewrite !elem_of_cons, elem_of_nil. tauto.
Qed.

Lemma neg_involutive d : Cell.neg (Cell.neg d) = d.
Proof. destruct d. unfold Cell.neg. simpl. f_equal; lia. Qed.

Lemma neg_is_direction d : is_direction d → is_direction (Cell.neg d).
Proof. rewrite !is_direction_inv. intros [-> | [-> | [-> | ->]]]; vm_compute; tauto. Qed.

(** A step in a direction never stays in place: the new head is not the old
    one. *)
Lemma add_direction_ne c d : is_direction d → Cell.add c d ≠ c.
Proof.
  rewrite is_direction_inv. destruct c as [cx cy].
  intros [-> | [-> | [-> | ->]]]; unfold Cell.add; simpl; intros [=]; lia.
Qed.

(** A step out of a cell and back again. *)
Lemma add_neg c d : Cell.add (Cell.add c d) (Cell.neg d) = c.
Proof. destruct c, d. unfold Cell.add, Cell.neg. simpl. f_equal; lia. Qed.

(** Two steps in the same direction do not come back either. *)
Lemma add_direction_ne_twice c d : is_direction d → Cell.add (Cell.add c d) d ≠ c.
Proof.
  rewrite is_direction_inv. destruct c as [cx cy].
  intros [-> | [-> | [-> | ->]]]; unfold Cell.add; simpl; intros [=]; lia.
Qed.

(** The only step back to where a step came from is the opposite step. *)
Lemma add_cancel_neg c d d' : Cell.add (Cell.add c d) d' = c → d' = Cell.neg d.
Proof.
  destruct c, d, d'. unfold Cell.add, Cell.neg. simpl. intros [=]. f_equal; lia.
Qed.

Lemma elem_of_all_cells c : c ∈ all_cells ↔ in_grid c.
Proof.
  unfold all_cells, in_grid. rewrite list_elem_of_bind. split.
  - intros (cx & Hc & Hx). apply list_elem_of_bind in Hc as (cy & Hc & Hy).
    apply list_elem_of_singleton in Hc as ->.
    apply elem_of_seqZ in Hx, Hy. simpl. lia.
  - intros [Hx Hy]. exists (Cell.x c). split; [|apply elem_of_seqZ; lia].
    apply list_elem_of_bind. exists (Cell.y c).
    split; [destruct c; apply list_elem_of_singleton; done|apply elem_of_seqZ; lia].
Qed.

Lemma length_all_cells : length all_cells = Z.to_nat (tileCount * tileCount).
Proof. by vm_compute. Qed.

(** A list of distinct cells of the board has at most
    [tileCount * tileCount] = 400 elements: the bound on the length of the
    snake, and through it on the score. *)
Theorem NoDup_in_grid_length (l : list Cell.t) :
  NoDup l → Forall in_grid l → Z.of_nat (length l) ≤ tileCount * tileCount.
Proof.
  intros Hdup Hgrid.
  assert (length l ≤ length all_cells)%nat as Hle.
  { apply NoDup_incl_length; [done|]. intros c Hc.
    apply elem_of_all_cells. by eapply Forall_forall in Hgrid. }
  rewrite length_all_cells in Hle. unfold tileCount in *. lia.
Qed.

(** A list shorter than the number of cells leaves a cell of the board
    free. *)
Lemma free_cell (l : list Cell.t) :
  Z.of_nat (length l) < tileCount * tileCount → ∃ c, in_grid c ∧ c ∉ l.
Proof.
  intros Hlen. destruct (decide (Forall (λ c, c ∈ l) all_cells)) as [Hall|Hfree].
  - pose proof (NoDup_incl_length all_cells l) as Hle.
    rewrite length_all_cells in Hle. unfold tileCount in *.
    rewrite Forall_forall in Hall. specialize (Hle ltac:(compute_done) Hall). lia.
  - apply not_Forall_Exists, Exists_exists in Hfree as (c & Hc & Hout); [|apply _].
    exists c. by rewrite <-elem_of_all_cells.
Qed.

(** A list of [tileCount * tileCount] distinct cells of the board holds
    every cell of the board. *)
Lemma full_board (l : list Cell.t) c :
  NoDup l → Forall in_grid l → Z.of_nat (length l) = tileCount * tileCount →
  in_grid c → c ∈ l.
Proof.
  intros Hdup Hgrid Hlen Hc.
  assert (l ⊆+ all_cells) as Hsub.
  { apply NoDup_submseteq; [done|]. intros c' Hc'. apply elem_of_all_cells.
    by eapply Forall_forall in Hgrid. }
  apply submseteq_length_Permutation in Hsub as ->; [by apply elem_of_all_cells|].
  rewrite length_all_cells. lia.
Qed.

Lemma NoDup_in_grid_length_witness :
  Z.of_nat (length [start; Cell.add start dir_right]) ≤ tileCount * tileCount.
Proof.
  apply NoDup_in_grid_length.
  - compute_done.
  - compute_done.
Defined.

#[export] Hint Resolve start_in_grid neg_is_direction : snake.
#[export] Hint Rewrite same_cell_refl add_neg neg_involutive : snake.
