(* ===== verification/Random.v ===== *)
(** * Random: [Math.random] as an oracle

    [spawnFood] draws its coordinates with
    [Math.floor(Math.random() * tileCount)].  The model does not fix a
    generator: the interface [RandomSource] gives the whole sequence of
    numbers [Math.random()] returns during a session, indexed by the number
    of calls made before, together with what ECMAScript promises of each:
    it is a double, at least 0 and less than 1.  A state that draws numbers
    carries the index of the next call.  Everything proved against the
    interface holds for every generator; the instances at the end are the
    concrete sources the examples run on.

    The product [r * tileCount] is rounded to double precision ([Double.fl])
    before [Math.floor] is taken.  The rounding can change which cell a
    given [r] selects ([Double.rounding_changes_cell]) but not the range of
    the result ([random_coordinate_range]). *)

From Stdlib Require Import QArith Qround.
From S2P Require Import Prelude Double Grid.

(** ** The interface *)

Class RandomSource : Type := {
  (** The value of the [n]-th call of [Math.random()], counting from 0. *)
  Math_random : nat → Q;
  Math_random_range : ∀ n, (0 <= Math_random n)%Q ∧ (Math_random n < 1)%Q;
  Math_random_double : ∀ n, is_double (Math_random n)
}.

Definition Math_floor (q : Q) : Z := Qfloor q.

(** [Math.floor(Math.random() * tileCount)] at call [n] (lines 30 and 31). *)
Definition random_coordinate `{RandomSource} (n : nat) : Z :=
  Math_floor (fl (Math_random n * inject_Z tileCount)).

(** The cell sampled by one iteration of the loop of [spawnFood], which calls
    [Math.random()] twice, for [x] and then for [y]. *)
Definition random_cell `{RandomSource} (n : nat) : Cell.t :=
  {| Cell.x := random_coordinate n; Cell.y := random_coordinate (S n) |}.

(** ** Concrete sources *)

(** A double that selects the coordinate [c]: the multiple of [2^-12] next
    above [c / tileCount]. *)
Definition selecting (c : Z) : Q := (c * 4096 / tileCount + 1) # 4096.

(** The source that returns [selecting (c n)] at call [n], for a sequence
    [c] of integers (reduced modulo [tileCount], so that the laws hold
    whatever the sequence).  The coordinates drawn from it are the elements
    of the sequence. *)
Definition selected (c : nat → Z) : RandomSource.
Proof.
  refine {| Math_random n := selecting (c n `mod` tileCount) |}; intros n;
    pose proof (Z.mod_pos_bound (c n) tileCount eq_refl) as Hc;
    revert Hc; generalize (c n `mod` tileCount);
    unfold selecting, tileCount; intros k Hk;
    pose proof (Z.div_pos (k * 4096) 20);
    pose proof (Z.div_lt_upper_bound (k * 4096) 20 4095).
  - unfold Qle, Qlt. simpl. lia.
  - exists (k * 4096 / 20 + 1), (-12). change (2 ^ 53) with 9007199254740992.
    split; [unfold Qeq; simpl; lia|lia].
Defined.

(** The integers of a list taken round and round; the empty list gives 0. *)
Definition scripted_random (cs : list Z) (n : nat) : Z := cs !!! (n `mod` length cs)%nat.

Definition scripted (cs : list Z) : RandomSource := selected (scripted_random cs).

(** The sequence that sweeps the board: the coordinates at the calls [2j]
    and [2j + 1] are those of the [j]-th cell, row by row, so any 400
    consecutive pairs of calls, from an even or an odd call on, draw every
    cell of the board once. *)
Definition sweep_coordinate (n : nat) : Z :=
  let j := Z.of_nat n / 2 in
  if Z.even (Z.of_nat n) then j `mod` tileCount else j / tileCount.

Definition sweep : RandomSource := selected sweep_coordinate.

(** ** What the interface gives its clients *)

Section laws.
Context `{RandomSource}.

(** C17. [Math.floor(Math.random() * tileCount)] is a coordinate of the
    board, whatever double [Math.random()] returns: the product is rounded
    to double precision before the floor is taken, and the rounded product
    of a double below 1 and 20 is still below 20. *)
Theorem random_coordinate_range n : 0 ≤ random_coordinate n < tileCount.
Proof.
  destruct (Math_random_range n).
  apply fl_scale_range; [apply Math_random_double|done..].
Qed.

Lemma random_cell_in_grid n : in_grid (random_cell n).
Proof.
  split; (eapply fl_scale_range; [apply Math_random_double|apply Math_random_range..]).
Qed.

End laws.

#[export] Hint Resolve random_cell_in_grid : snake.

(** ** Facts about the concrete sources *)

(** The number [selecting c] selects [c]. *)
Lemma selecting_coordinate c :
  0 ≤ c < tileCount → Math_floor (fl (selecting c * inject_Z tileCount)) = c.
Proof.
  unfold tileCount at 1. intros Hc.
  assert (∃ k : nat, (k < 20)%nat ∧ c = Z.of_nat k) as (k & Hk & ->)
    by (exists (Z.to_nat c); lia).
  do 20 (destruct k as [|k]; [by vm_compute|]). lia.
Qed.

Lemma selected_coordinate c n : @random_coordinate (selected c) n = c n `mod` tileCount.
Proof. apply selecting_coordinate, Z.mod_pos_bound. done. Qed.

Lemma scripted_coordinate cs n :
  @random_coordinate (scripted cs) n
  = (cs !!! (n `mod` length cs)%nat) `mod` tileCount.
Proof. apply selected_coordinate. Qed.
