(* ===== verification/Food.v ===== *)
(** * Food: [spawnFood], placement of the food by rejection sampling

    FoodPlacer of the specification; [spawnFood] in the source (lines 26-37).
    The function samples a cell, and samples again while the cell is on the
    snake; a counter bounds the number of samples, and when it passes 500 the
    cell just drawn is returned without being tested.

    The do-while loop is [spawnFood_loop], recursive on fuel, with the
    counter [tries] and the index [rng] of the next call of [Math.random()]
    as explicit state.  Each iteration makes two calls, counts one try and
    leaves the loop by the counter before the test on the snake is made, as
    in the source.  With [tries] starting at 0 the loop body runs at most
    501 times, so [spawnFood_fuel = 501] is enough ([spawnFood_loop_returns]);
    [spawnFood] is the loop run on that fuel. *)

From S2P Require Import Prelude Grid Random.

Section spawnFood.
Context `{RandomSource}.
Implicit Types (snake : list Cell.t) (c : Cell.t) (rng fuel k : nat) (tries : Z).

(** [snake.some((s) => s.x === x && s.y === y)] (line 35). *)
Definition on_snake snake c : bool := existsb (λ s, same_cell s c) snake.

(** The loop of lines 29-35.  [None] only when the fuel runs out. *)
Fixpoint spawnFood_loop fuel snake tries rng : option (Cell.t * nat) :=
  match fuel with
  | O => None
  | S fuel =>
      let x := random_coordinate rng in
      let y := random_coordinate (S rng) in
      let tries := tries + 1 in
      if tries >? 500 then Some (Cell.mk x y, S (S rng))
      else if on_snake snake (Cell.mk x y)
           then spawnFood_loop fuel snake tries (S (S rng))
           else Some (Cell.mk x y, S (S rng))
  end.

Definition spawnFood_fuel : nat := 501.

(** [spawnFood()] called when the snake is [snake] and [rng] calls of
    [Math.random()] were made before: the cell returned and the number of
    calls made after it. *)
Definition spawnFood snake rng : Cell.t * nat :=
  default (start, rng) (spawnFood_loop spawnFood_fuel snake 0 rng).

(** The cell drawn by iteration [k] (from 0) of a call that starts at [rng]. *)
Definition sample rng k : Cell.t := random_cell (rng + 2 * k).

(** [simpl] leaves calls of [spawnFood] alone: the loop has 501 rounds. *)
#[global] Arguments spawnFood : simpl never.

(** ** The loop *)

Lemma on_snake_true snake c : on_snake snake c = true ↔ c ∈ snake.
Proof.
  unfold on_snake. rewrite existsb_exists. setoid_rewrite same_cell_true.
  setoid_rewrite <-list_elem_of_In. split; [by intros (? & ? & ->)|eauto].
Qed.

Lemma on_snake_false snake c : on_snake snake c = false ↔ c ∉ snake.
Proof. rewrite <-on_snake_true. by destruct (on_snake snake c). Qed.

Lemma sample_0 rng : sample rng 0 = Cell.mk (random_coordinate rng) (random_coordinate (S rng)).
Proof. unfold sample. by rewrite Nat.add_0_r. Qed.

Lemma sample_S rng k : sample rng (S k) = sample (S (S rng)) k.
Proof. unfold sample. f_equal. lia. Qed.

Lemma sample_in_grid rng k : in_grid (sample rng k).
Proof. unfold sample. auto with snake. Qed.

(** What the loop computes from any counter value: it stops at the first
    iteration [k] whose sample is off the snake, or at the iteration on which
    the counter passes 500, whichever comes first. *)
Lemma spawnFood_loop_char snake fuel : ∀ tries rng,
  0 ≤ tries ≤ 500 → 500 - tries < Z.of_nat fuel →
  ∃ k, Z.of_nat k ≤ 500 - tries ∧
       spawnFood_loop fuel snake tries rng = Some (sample rng k, (rng + 2 * k + 2)%nat) ∧
       (∀ j, (j < k)%nat → sample rng j ∈ snake) ∧
       (Z.of_nat k < 500 - tries → sample rng k ∉ snake).
Proof.
  induction fuel as [|fuel IH]; intros tries rng Htries Hfuel; [lia|].
  simpl. rewrite <-sample_0. destruct (Z.gtb_spec (tries + 1) 500) as [Hgt|Hle].
  { exists 0%nat. repeat split; [lia|do 2 f_equal; lia|lia|lia]. }
  destruct (on_snake snake (sample rng 0)) eqn:Hon.
  - destruct (IH (tries + 1) (S (S rng))) as (k & Hk & -> & Hbusy & Hfree); [lia..|].
    exists (S k). rewrite sample_S. repeat split; [lia|do 2 f_equal; lia| |].
    + intros [|j] ?; [by apply on_snake_true|]. rewrite sample_S. apply Hbusy. lia.
    + intros ?. apply Hfree. lia.
  - exists 0%nat. apply on_snake_false in Hon.
    repeat split; [lia|do 2 f_equal; lia|lia|done].
Qed.

(** ** [spawnFood] *)

(** The same, for the function: the number [k] of rejected samples
    determines the result. *)
Lemma spawnFood_char snake rng :
  ∃ k, (k ≤ 500)%nat ∧
       spawnFood snake rng = (sample rng k, (rng + 2 * k + 2)%nat) ∧
       (∀ j, (j < k)%nat → sample rng j ∈ snake) ∧
       ((k < 500)%nat → sample rng k ∉ snake).
Proof.
  destruct (spawnFood_loop_char snake spawnFood_fuel 0 rng)
    as (k & Hk & Hloop & Hbusy & Hfree); [unfold spawnFood_fuel; lia..|].
  exists k. unfold spawnFood. rewrite Hloop.
  repeat split; [lia|done|]. intros ?. apply Hfree. lia.
Qed.

(** C9. Termination of the loop: on 501 units of fuel or more the loop of
    [spawnFood] returns, and what it returns is [spawnFood]. *)
Theorem spawnFood_loop_returns snake rng fuel :
  (spawnFood_fuel ≤ fuel)%nat →
  spawnFood_loop fuel snake 0 rng = Some (spawnFood snake rng).
Proof.
  intros Hfuel.
  destruct (spawnFood_loop_char snake fuel 0 rng) as (k & Hk & -> & Hbusy & Hfree);
    [unfold spawnFood_fuel in *; lia..|].
  destruct (spawnFood_char snake rng) as (k' & Hk' & -> & Hbusy' & Hfree').
  destruct (Nat.lt_trichotomy k k') as [Hlt|[->|Hlt]]; [|done|].
  - destruct Hfree; [lia|by apply Hbusy'].
  - destruct Hfree'; [lia|by apply Hbusy].
Qed.

(** The cell [spawnFood] returns lies on the board, whatever the snake and
    the random numbers. *)
Lemma spawnFood_in_grid snake rng : in_grid (spawnFood snake rng).1.
Proof.
  destruct (spawnFood_char snake rng) as (k & _ & -> & _). apply sample_in_grid.
Qed.

(** A free sample among the first 500 makes the result free. *)
Lemma spawnFood_off snake rng k :
  (k < 500)%nat → sample rng k ∉ snake → (spawnFood snake rng).1 ∉ snake.
Proof.
  intros Hk Hfree.
  destruct (spawnFood_char snake rng) as (k' & _ & -> & Hbusy & Hfree').
  destruct (decide (k' < 500)%nat); [by apply Hfree'|].
  destruct Hfree. apply Hbusy. lia.
Qed.

(** C6. If one of the first 500 samples of a call is off the snake, the cell
    [spawnFood] returns is off the snake. *)
Theorem spawnFood_free snake rng k :
  (k < 500)%nat → sample rng k ∉ snake → (spawnFood snake rng).1 ∉ snake.
Proof. apply spawnFood_off. Qed.

(** The result is the first sample that is off the snake: the samples
    before it are on the snake, and each sample costs two calls of
    [Math.random()]. *)
Theorem spawnFood_first_free snake rng k :
  (k < 500)%nat → sample rng k ∉ snake → (∀ j, (j < k)%nat → sample rng j ∈ snake) →
  spawnFood snake rng = (sample rng k, (rng + 2 * k + 2)%nat).
Proof.
  intros Hk Hfree Hbusy.
  destruct (spawnFood_char snake rng) as (k' & Hk' & -> & Hbusy' & Hfree').
  destruct (Nat.lt_trichotomy k k') as [Hlt|[->|Hlt]]; [|done|].
  - destruct Hfree. by apply Hbusy'.
  - destruct Hfree'; [lia|by apply Hbusy].
Qed.

(** C33. The bail-out: when the first 500 samples are all on the snake, the
    501st is returned untested, after 1002 calls of [Math.random()]. *)
Theorem spawnFood_exhausted snake rng :
  (∀ j, (j < 500)%nat → sample rng j ∈ snake) →
  spawnFood snake rng = (sample rng 500, (rng + 1002)%nat).
Proof.
  intros Hbusy.
  destruct (spawnFood_char snake rng) as (k & Hk & -> & _ & Hfree).
  destruct (decide (k < 500)%nat) as [Hlt|]; [by destruct (Hfree Hlt); apply Hbusy|].
  assert (k = 500%nat) as -> by lia. f_equal. lia.
Qed.

(** A call of [spawnFood] makes at least 2 and at most 1002 calls of
    [Math.random()], an even number of them. *)
Theorem spawnFood_calls snake rng :
  ∃ k, (k ≤ 500)%nat ∧ (spawnFood snake rng).2 = (rng + 2 * (k + 1))%nat.
Proof.
  destruct (spawnFood_char snake rng) as (k & Hk & -> & _).
  exists k. split; [done|simpl; lia].
Qed.

End spawnFood.

(** ** Runs on concrete sources *)

(** The first sample (10, 10) is the snake's only cell, the second (3, 4) is
    free. *)
Example spawnFood_second_sample :
  @spawnFood (scripted [10; 10; 3; 4]) [start] 0 = (Cell.mk 3 4, 4%nat).
Proof. by vm_compute. Qed.

Lemma spawnFood_free_witness :
  (@spawnFood (scripted [10; 10; 3; 4]) [start] 0).1 ∉ [start].
Proof.
  apply (@spawnFood_free (scripted [10; 10; 3; 4]) [start] 0%nat 1%nat);
    [lia|compute_done].
Defined.

Lemma spawnFood_first_free_witness :
  @spawnFood (scripted [10; 10; 3; 4]) [start] 0
  = (@sample (scripted [10; 10; 3; 4]) 0 1, 4%nat).
Proof.
  apply (@spawnFood_first_free (scripted [10; 10; 3; 4]) [start] 0%nat 1%nat);
    [lia|compute_done|].
  intros [|j] ?; [compute_done|lia].
Defined.

Lemma spawnFood_loop_returns_witness :
  @spawnFood_loop (scripted [10; 10; 3; 4]) 600 [start] 0 0
  = Some (@spawnFood (scripted [10; 10; 3; 4]) [start] 0).
Proof. apply spawnFood_loop_returns. unfold spawnFood_fuel. lia. Defined.

(** A source that always answers 1/2 draws the centre cell (10, 10) every
    time; with the snake on that cell all 501 samples of a call hit it. *)
Lemma sample_centre rng k : @sample (scripted [10]) rng k = start.
Proof.
  unfold sample, random_cell. rewrite !scripted_coordinate. simpl length.
  by rewrite !Nat.mod_1_r.
Qed.

Lemma spawnFood_exhausted_witness :
  @spawnFood (scripted [10]) [start] 0
  = (@sample (scripted [10]) 0 500, 1002%nat).
Proof.
  apply (@spawnFood_exhausted (scripted [10]) [start] 0%nat).
  intros j _. rewrite sample_centre. apply list_elem_of_singleton. done.
Defined.

(** C32. The bail-out can return a cell of the snake although the board has
    free cells: with the one-segment snake of a new game, 399 cells are free,
    and a source that draws the centre 501 times makes [spawnFood] put the
    food under the snake. *)
Theorem spawnFood_may_overlap :
  ∃ (R : RandomSource) (snake : list Cell.t) (rng : nat) (free : Cell.t),
    in_grid free ∧ (free ∉ snake) ∧ (@spawnFood R snake rng).1 ∈ snake.
Proof.
  exists (scripted [10]), [start], 0%nat, (Cell.mk 0 0).
  split; [compute_done|]. split; [compute_done|].
  destruct (@spawnFood_char (scripted [10]) [start] 0) as (k & _ & -> & _).
  simpl. rewrite sample_centre. by apply list_elem_of_singleton.
Qed.
