(* ===== verification/Input.v ===== *)
(** * Input: [handleKey], the keydown listener

    InputController of the specification; [handleKey] in the source
    (lines 53-59).  The listener reads the direction stored in [dirRef]
    once, then runs four independent [if] statements, one per arrow key,
    each of which overwrites [dirRef] when its key was pressed and the
    stored direction does not point the opposite way along that axis.

    [handleKey] is that function on the value of [dirRef]: the key is the
    string [e.key], the result the new value of the ref.  The reference
    definition [handleKey_spec] states the rule the specification gives
    (a key that names the exact opposite of the stored direction is
    ignored, every other arrow key is stored); the two agree on the four
    unit directions, the only values the ref ever holds. *)

From S2P Require Import Prelude Grid.

(** Lines 54-58.  [d] is read once; the four tests all look at it, not at
    what an earlier [if] has stored. *)
Definition handleKey (key : string) (dirRef : Cell.t) : Cell.t :=
  let d := dirRef in
  let dirRef := if (key === "ArrowUp") && (Cell.y d !== 1) then dir_up else dirRef in
  let dirRef := if (key === "ArrowDown") && (Cell.y d !== -1) then dir_down else dirRef in
  let dirRef := if (key === "ArrowLeft") && (Cell.x d !== 1) then dir_left else dirRef in
  let dirRef := if (key === "ArrowRight") && (Cell.x d !== -1) then dir_right else dirRef in
  dirRef.

(** The direction an arrow key asks for; no direction for any other key. *)
Definition key_direction (key : string) : option Cell.t :=
  if key === "ArrowUp" then Some dir_up
  else if key === "ArrowDown" then Some dir_down
  else if key === "ArrowLeft" then Some dir_left
  else if key === "ArrowRight" then Some dir_right
  else None.

(** The rule of the specification: store the direction asked for unless it
    is the exact opposite of the stored one. *)
Definition handleKey_spec (key : string) (d : Cell.t) : Cell.t :=
  match key_direction key with
  | Some n => if decide (n = Cell.neg d) then d else n
  | None => d
  end.

(** Two key presses that leave the opposite of the stored direction. *)
Definition reversing_keys (d : Cell.t) : string * string :=
  if Cell.x d === 0 then ("ArrowLeft", if Cell.y d === 1 then "ArrowUp" else "ArrowDown")
  else ("ArrowUp", if Cell.x d === 1 then "ArrowLeft" else "ArrowRight").

(** ** Facts *)

(** The four keys, for case analysis on [e.key]. *)
Lemma key_cases (key : string) :
  key = "ArrowUp" ∨ key = "ArrowDown" ∨ key = "ArrowLeft" ∨ key = "ArrowRight"
  ∨ key_direction key = None.
Proof.
  unfold key_direction.
  repeat (case_bool_decide; [tauto|]). tauto.
Qed.

(** [handleKey] on each arrow key, as one test on the stored direction. *)
Lemma handleKey_up d :
  handleKey "ArrowUp" d = if decide (Cell.y d = 1) then d else dir_up.
Proof. unfold handleKey. js_decide_closed. by case_bool_decide; case_decide. Qed.

Lemma handleKey_down d :
  handleKey "ArrowDown" d = if decide (Cell.y d = -1) then d else dir_down.
Proof. unfold handleKey. js_decide_closed. by case_bool_decide; case_decide. Qed.

Lemma handleKey_left d :
  handleKey "ArrowLeft" d = if decide (Cell.x d = 1) then d else dir_left.
Proof. unfold handleKey. js_decide_closed. by case_bool_decide; case_decide. Qed.

Lemma handleKey_right d :
  handleKey "ArrowRight" d = if decide (Cell.x d = -1) then d else dir_right.
Proof. unfold handleKey. js_decide_closed. by case_bool_decide; case_decide. Qed.

(** Keys other than the four arrows are not looked at. *)
Lemma handleKey_no_arrow key d : key_direction key = None → handleKey key d = d.
Proof.
  unfold key_direction, handleKey.
  repeat (case_bool_decide; [done|]). done.
Qed.

#[export] Hint Rewrite handleKey_up handleKey_down handleKey_left handleKey_right : snake.

(** Case analysis on the key for goals about [handleKey key d]. *)
Tactic Notation "handleKey_cases" constr(key) "as" ident(Hother) :=
  destruct (key_cases key) as [-> | [-> | [-> | [-> | Hother]]]];
  [..|rewrite ?(handleKey_no_arrow key) by assumption].

(** What one call stores, on a unit direction: the direction is kept, or
    replaced by the direction the key asks for, which is then another unit
    direction and not the opposite of the one stored. *)
Lemma handleKey_inv key d :
  is_direction d →
  handleKey key d = d ∨
  key_direction key = Some (handleKey key d) ∧ is_direction (handleKey key d) ∧
    handleKey key d ≠ Cell.neg d.
Proof.
  rewrite is_direction_inv.
  intros [-> | [-> | [-> | ->]]]; (handleKey_cases key as Hother; [..|by left]);
    first [by left|right; compute_done].
Qed.

(** A unit direction is not its own opposite. *)
Lemma neg_ne d : is_direction d → d ≠ Cell.neg d.
Proof. rewrite is_direction_inv. intros [-> | [-> | [-> | ->]]]; compute_done. Qed.

(** Keys other than the four arrows leave the direction alone, whatever
    is stored. *)
Theorem handleKey_other_key key d :
  key ∉ ["ArrowUp"; "ArrowDown"; "ArrowLeft"; "ArrowRight"] → handleKey key d = d.
Proof.
  intros Hkey. apply handleKey_no_arrow. unfold key_direction.
  repeat (case_bool_decide; [set_solver|]). done.
Qed.

(** [handleKey] stores nothing but unit directions: a ref that holds
    one of the four directions holds one afterwards. *)
Theorem handleKey_is_direction key d :
  is_direction d → is_direction (handleKey key d).
Proof. intros Hd. by destruct (handleKey_inv key d Hd) as [->|(_ & ? & _)]. Qed.

(** C7. The code agrees with the rule of the specification on every unit
    direction: testing one coordinate of the stored direction is the same
    as comparing with its opposite. *)
Theorem handleKey_spec_equiv key d :
  is_direction d → handleKey key d = handleKey_spec key d.
Proof.
  rewrite is_direction_inv. unfold handleKey_spec.
  intros [-> | [-> | [-> | ->]]];
    (handleKey_cases key as Hother; [reflexivity..|by rewrite Hother]).
Qed.

(** C12. One key press never turns the stored direction into its exact
    opposite. *)
Theorem handleKey_not_reverse key d :
  is_direction d → handleKey key d ≠ Cell.neg d.
Proof.
  intros Hd. destruct (handleKey_inv key d Hd) as [->|(_ & _ & ?)]; [|done].
  by apply neg_ne.
Qed.

Lemma reversing_keys_reverse d :
  is_direction d →
  handleKey (reversing_keys d).2 (handleKey (reversing_keys d).1 d) = Cell.neg d.
Proof. rewrite is_direction_inv. by intros [-> | [-> | [-> | ->]]]. Qed.

(** Two key presses do: for every stored direction there are two arrow
    keys that, pressed one after the other with no tick between them, leave
    its exact opposite in [dirRef].  The test of each press is made against
    what the previous press stored, not against the direction the snake last
    moved in. *)
Theorem handleKey_twice_reverses d :
  is_direction d → ∃ k1 k2, handleKey k2 (handleKey k1 d) = Cell.neg d.
Proof. intros Hd. eexists _, _. by apply reversing_keys_reverse. Qed.

(** ** Runs *)

Lemma handleKey_is_direction_witness :
  is_direction (handleKey "ArrowUp" dir_right).
Proof. apply handleKey_is_direction. compute_done. Defined.

Lemma handleKey_spec_equiv_witness :
  handleKey "ArrowLeft" dir_right = handleKey_spec "ArrowLeft" dir_right.
Proof. apply handleKey_spec_equiv. compute_done. Defined.

Lemma handleKey_not_reverse_witness :
  handleKey "ArrowLeft" dir_right ≠ Cell.neg dir_right.
Proof. apply handleKey_not_reverse. compute_done. Defined.

Lemma handleKey_other_key_witness : handleKey "a" dir_right = dir_right.
Proof. apply handleKey_other_key. compute_done. Defined.

Lemma handleKey_twice_reverses_witness :
  ∃ k1 k2, handleKey k2 (handleKey k1 dir_right) = Cell.neg dir_right.
Proof. apply handleKey_twice_reverses. compute_done. Defined.

(** Moving right, ArrowLeft is ignored, but ArrowUp then ArrowLeft is not. *)
Example handleKey_left_ignored : handleKey "ArrowLeft" dir_right = dir_right.
Proof. reflexivity. Qed.

Example handleKey_up_left : handleKey "ArrowLeft" (handleKey "ArrowUp" dir_right) = dir_left.
Proof. reflexivity. Qed.
