(* ===== verification/Canvas.v ===== *)
(** * Canvas: the 2D drawing context and [draw]

    Renderer of the specification; [draw] in the source (lines 102-131).

    The canvas element is modelled by the state of its 2D context: the two
    properties [draw] assigns ([fillStyle] and [font]) and the sequence of
    painting calls made on it since it was created, each recorded with the
    style in force when it was made.  The three painting methods the code
    calls are [fillRect], [drawImage] and [fillText]; their meaning for
    pixels is the browser's and is not part of the source.

    [draw_on] is the body of [draw] from line 107 on, as a function of what
    the function reads from the refs: the snake, the food, the score, the
    logo and its loaded flag ([Engine.draw] is the whole function, on the
    state of the page).  [draw_commands] is the list of painting calls one
    frame consists of, stated without the context; [draw_on] appends exactly
    that list ([draw_on_painted]). *)

From S2P Require Import Prelude Grid.

(** ** The context *)

(** The [Image] object of line 41; only its address is ever set. *)
Record Image : Type := { src : string }.

#[export] Instance Image_eq_dec : EqDecision Image.
Proof. solve_decision. Defined.

Inductive DrawCmd : Type :=
| FillRect (style : string) (x y w h : Z)
| DrawImage (image : Image) (x y w h : Z)
| FillText (style font text : string) (x y : Z).

#[export] Instance DrawCmd_eq_dec : EqDecision DrawCmd.
Proof. solve_decision. Defined.

Record Canvas : Type := {
  fillStyle : string;
  font : string;
  painted : list DrawCmd
}.

#[export] Instance Canvas_eq_dec : EqDecision Canvas.
Proof. solve_decision. Defined.

(** A canvas element as the browser creates it: black fill, the default
    font, nothing painted. *)
Definition blank_canvas : Canvas :=
  {| fillStyle := "#000000"; font := "10px sans-serif"; painted := [] |}.

(** [ctx.fillStyle = s] *)
Definition set_fillStyle (s : string) (ctx : Canvas) : Canvas :=
  {| fillStyle := s; font := font ctx; painted := painted ctx |}.

(** [ctx.font = f] *)
Definition set_font (f : string) (ctx : Canvas) : Canvas :=
  {| fillStyle := fillStyle ctx; font := f; painted := painted ctx |}.

Definition paint (cmd : DrawCmd) (ctx : Canvas) : Canvas :=
  {| fillStyle := fillStyle ctx; font := font ctx; painted := painted ctx ++ [cmd] |}.

(** [ctx.fillRect(x, y, w, h)] *)
Definition fillRect (x y w h : Z) (ctx : Canvas) : Canvas :=
  paint (FillRect (fillStyle ctx) x y w h) ctx.

(** [ctx.drawImage(image, x, y, w, h)] *)
Definition drawImage (image : Image) (x y w h : Z) (ctx : Canvas) : Canvas :=
  paint (DrawImage image x y w h) ctx.

(** [ctx.fillText(text, x, y)] *)
Definition fillText (text : string) (x y : Z) (ctx : Canvas) : Canvas :=
  paint (FillText (fillStyle ctx) (font ctx) text x y) ctx.

(** ** [draw] *)

(** The colours of lines 108, 113 and 123. *)
Definition background_colour : string := "#0b0b0b".
Definition head_colour : string := "#4cafef".
Definition body_colour : string := "#33ff77".

(** The callback of [snakeRef.current.forEach] (lines 112-115), applied to
    the segments from index [idx] on. *)
Fixpoint draw_snake (idx : Z) (segments : list Cell.t) (ctx : Canvas) : Canvas :=
  match segments with
  | [] => ctx
  | seg :: segments =>
      let ctx := set_fillStyle (if idx === 0 then head_colour else body_colour) ctx in
      let ctx := fillRect (Cell.x seg * boxSize) (Cell.y seg * boxSize)
                          (boxSize - 1) (boxSize - 1) ctx in
      draw_snake (idx + 1) segments ctx
  end.

(** The text of the HUD (line 130): the template literal
    [`Score: ${scoreRef.current}`]. *)
Definition score_text (score : Z) : string := "Score: " +:+ pretty score.

(** Lines 107-130: the body of [draw] once the canvas is known to exist. *)
Definition draw_on (snake : list Cell.t) (food : option Cell.t) (score : Z)
    (logo : option Image) (logoLoaded : bool) (ctx : Canvas) : Canvas :=
  let ctx := set_fillStyle background_colour ctx in
  let ctx := fillRect 0 0 canvasSize canvasSize ctx in
  let ctx := draw_snake 0 snake ctx in
  match food with
  | None => ctx
  | Some food =>
      let ctx :=
        match logoLoaded, logo with
        | true, Some image =>
            drawImage image (Cell.x food * boxSize) (Cell.y food * boxSize)
                      boxSize boxSize ctx
        | _, _ =>
            let ctx := set_fillStyle "red" ctx in
            fillRect (Cell.x food * boxSize) (Cell.y food * boxSize)
                     (boxSize - 1) (boxSize - 1) ctx
        end in
      let ctx := set_fillStyle "white" ctx in
      let ctx := set_font "14px Arial" ctx in
      fillText (score_text score) 8 16 ctx
  end.

(** ** One frame, as a list of painting calls *)

Definition segment_rect (idx : nat) (seg : Cell.t) : DrawCmd :=
  FillRect (if idx is O then head_colour else body_colour)
           (Cell.x seg * boxSize) (Cell.y seg * boxSize) (boxSize - 1) (boxSize - 1).

Definition food_command (food : Cell.t) (logo : option Image) (logoLoaded : bool)
    : DrawCmd :=
  match logoLoaded, logo with
  | true, Some image =>
      DrawImage image (Cell.x food * boxSize) (Cell.y food * boxSize) boxSize boxSize
  | _, _ =>
      FillRect "red" (Cell.x food * boxSize) (Cell.y food * boxSize)
               (boxSize - 1) (boxSize - 1)
  end.

Definition draw_commands (snake : list Cell.t) (food : option Cell.t) (score : Z)
    (logo : option Image) (logoLoaded : bool) : list DrawCmd :=
  FillRect background_colour 0 0 canvasSize canvasSize
  :: imap segment_rect snake
  ++ match food with
     | None => []
     | Some food =>
         [food_command food logo logoLoaded;
          FillText "white" "14px Arial" (score_text score) 8 16]
     end.

(** A painting call stays inside the canvas. *)
Definition in_canvas (cmd : DrawCmd) : Prop :=
  match cmd with
  | FillRect _ x y w h | DrawImage _ x y w h =>
      0 ≤ x ∧ 0 ≤ y ∧ 0 ≤ w ∧ 0 ≤ h ∧ x + w ≤ canvasSize ∧ y + h ≤ canvasSize
  | FillText _ _ _ x y => 0 ≤ x < canvasSize ∧ 0 ≤ y < canvasSize
  end.

(** ** Facts *)

Lemma painted_paint cmd ctx : painted (paint cmd ctx) = painted ctx ++ [cmd].
Proof. done. Qed.

Lemma segment_colour (i : nat) :
  (if Z.of_nat i === 0 then head_colour else body_colour)
  = (if i is O then head_colour else body_colour).
Proof. destruct i; [done|]. by rewrite bool_decide_eq_false_2 by lia. Qed.

Lemma draw_snake_painted segments : ∀ (i : nat) ctx,
  painted (draw_snake (Z.of_nat i) segments ctx)
  = painted ctx ++ imap (λ j, segment_rect (i + j)) segments.
Proof.
  induction segments as [|seg segments IH]; intros i ctx; simpl.
  { by rewrite app_nil_r. }
  replace (Z.of_nat i + 1) with (Z.of_nat (S i)) by lia.
  rewrite IH. unfold fillRect. rewrite painted_paint. simpl.
  rewrite segment_colour, <-app_assoc. simpl. do 2 f_equal.
  { unfold segment_rect. by rewrite Nat.add_0_r. }
  apply imap_ext. intros j ? _. simpl. f_equal. lia.
Qed.

Lemma draw_snake_style segments : ∀ idx ctx,
  font (draw_snake idx segments ctx) = font ctx.
Proof. induction segments as [|?? IH]; intros; simpl; [done|by rewrite IH]. Qed.

(** [draw] adds one frame to what the canvas shows and nothing else:
    the background, one square per segment of the snake (the head in its own
    colour), then the food and the score when there is food. *)
Lemma draw_on_painted snake food score logo logoLoaded ctx :
  painted (draw_on snake food score logo logoLoaded ctx)
  = painted ctx ++ draw_commands snake food score logo logoLoaded.
Proof.
  unfold draw_on, draw_commands.
  pose proof (draw_snake_painted snake 0) as Hsnake. simpl in Hsnake.
  destruct food as [food|]; simpl.
  - unfold fillText, food_command.
    destruct logoLoaded, logo; simpl; rewrite Hsnake; simpl;
      by rewrite <-!app_assoc.
  - rewrite Hsnake. simpl. by rewrite app_nil_r, <-app_assoc.
Qed.

(** The number of painting calls of a frame. *)
Lemma length_draw_commands snake food score logo logoLoaded :
  length (draw_commands snake food score logo logoLoaded)
  = (1 + length snake + if food is Some _ then 2 else 0)%nat.
Proof.
  unfold draw_commands. simpl. rewrite length_app, length_imap.
  destruct food; simpl; lia.
Qed.

Lemma segment_rect_in_canvas i seg : in_grid seg → in_canvas (segment_rect i seg).
Proof. unfold in_grid, in_canvas, segment_rect, canvasSize, tileCount, boxSize. lia. Qed.

Lemma food_command_in_canvas food logo logoLoaded :
  in_grid food → in_canvas (food_command food logo logoLoaded).
Proof.
  unfold in_grid, food_command, canvasSize, tileCount, boxSize.
  destruct logoLoaded, logo; unfold in_canvas, canvasSize, tileCount, boxSize; lia.
Qed.

(** When the snake and the food are on the board, every painting call
    of a frame stays inside the 400 by 400 canvas. *)
Theorem draw_commands_in_canvas snake food score logo logoLoaded :
  Forall in_grid snake → (∀ f, food = Some f → in_grid f) →
  Forall in_canvas (draw_commands snake food score logo logoLoaded).
Proof.
  intros Hsnake Hfood. unfold draw_commands.
  apply Forall_cons. split; [by vm_compute|].
  apply Forall_app. split.
  - apply Forall_forall. intros cmd (i & seg & -> & Hseg)%elem_of_lookup_imap.
    apply segment_rect_in_canvas. eapply Forall_forall; [done|].
    by eapply list_elem_of_lookup_2.
  - destruct food as [f|]; [|done].
    repeat apply Forall_cons_2; [by apply food_command_in_canvas, Hfood|by vm_compute|done].
Qed.

Lemma draw_commands_in_canvas_witness :
  Forall in_canvas
    (draw_commands [start] (Some (Cell.mk 3 4)) 0 None false).
Proof.
  apply draw_commands_in_canvas; [compute_done|].
  intros f [= <-]. compute_done.
Defined.

(** One frame of a new game before the logo has loaded. *)
Example draw_first_frame :
  painted (draw_on [start] (Some (Cell.mk 3 4)) 0 None false blank_canvas)
  = [FillRect "#0b0b0b" 0 0 400 400;
     FillRect "#4cafef" 200 200 19 19;
     FillRect "red" 60 80 19 19;
     FillText "white" "14px Arial" "Score: 0" 8 16].
Proof. reflexivity. Qed.

#[export] Hint Rewrite length_draw_commands : snake.
