(* ===== verification/World.v ===== *)
(** * World: the state the handlers run on

    Everything a handler of [SnakeGame] reads or writes, in one record: the
    refs of the component (lines 10-20), its one React state (line 23), and
    the part of the browser the code touches (the interval timers, the
    [keydown] listeners of [window], the messages shown by [alert], the
    canvas, the position in the stream of random numbers and the count of
    page reloads).  The refs are shared by every closure of the component;
    the model has one copy of each and every handler threads the record.

    The file also holds the browser functions the handlers call
    ([setInterval], [clearInterval], [alert]), which are not code of the
    repository and are modelled from their documented behaviour, and the
    completion type of a handler: a handler returns normally or throws a
    [TypeError], and in both cases leaves a state behind. *)

From S2P Require Import Prelude Grid Canvas.

(** ** Timers *)

(** The two functions the code passes to [setInterval]: [tick] (line 135)
    and the arrow function that reloads the page (lines 163 and 201). *)
Inductive Callback : Type := TickCallback | ReloadCallback.

#[export] Instance Callback_eq_dec : EqDecision Callback.
Proof. solve_decision. Defined.

Record Timer : Type := { callback : Callback; delay : Z }.

#[export] Instance Timer_eq_dec : EqDecision Timer.
Proof. solve_decision. Defined.

(** ** The state *)

Record World : Type := {
  (** [canvasRef.current]: the canvas element, or null when it is not in the document *)
  canvasRef : option Canvas;
  (** [logoRef.current] *)
  logoRef : option Image;
  (** [logoLoadedRef.current] *)
  logoLoadedRef : bool;
  (** [snakeRef.current], head first *)
  snakeRef : list Cell.t;
  (** [dirRef.current] *)
  dirRef : Cell.t;
  (** [foodRef.current], null before the first [spawnFood] *)
  foodRef : option Cell.t;
  (** [scoreRef.current] *)
  scoreRef : Z;
  (** [runningRef.current] *)
  runningRef : bool;
  (** [intervalRef.current]: a timer id or null *)
  intervalRef : option nat;
  (** the React state [score] of line 23 *)
  score : Z;
  (** the interval timers that are active, by id *)
  timers : gmap nat Timer;
  (** the id the next call of [setInterval] returns *)
  timerSeq : nat;
  (** how many [handleKey] closures listen for [keydown] on [window] *)
  listeners : nat;
  (** the messages shown by [alert], oldest first *)
  alerts : list string;
  (** how many calls of [Math.random()] were made *)
  rng : nat;
  (** how many times the page was reloaded *)
  reloads : nat
}.

#[export] Instance World_eq_dec : EqDecision World.
Proof. solve_decision. Defined.

(** ** Assignments: one function per field *)

Definition set_canvasRef (v : option Canvas) (w : World) : World :=
  {| canvasRef := v; logoRef := logoRef w; logoLoadedRef := logoLoadedRef w;
     snakeRef := snakeRef w; dirRef := dirRef w; foodRef := foodRef w;
     scoreRef := scoreRef w; runningRef := runningRef w;
     intervalRef := intervalRef w; score := score w; timers := timers w;
     timerSeq := timerSeq w; listeners := listeners w; alerts := alerts w;
     rng := rng w; reloads := reloads w |}.

Definition set_logoRef (v : option Image) (w : World) : World :=
  {| canvasRef := canvasRef w; logoRef := v;
     logoLoadedRef := logoLoadedRef w; snakeRef := snakeRef w;
     dirRef := dirRef w; foodRef := foodRef w; scoreRef := scoreRef w;
     runningRef := runningRef w; intervalRef := intervalRef w;
     score := score w; timers := timers w; timerSeq := timerSeq w;
     listeners := listeners w; alerts := alerts w; rng := rng w;
     reloads := reloads w |}.

Definition set_logoLoadedRef (v : bool) (w : World) : World :=
  {| canvasRef := canvasRef w; logoRef := logoRef w; logoLoadedRef := v;
     snakeRef := snakeRef w; dirRef := dirRef w; foodRef := foodRef w;
     scoreRef := scoreRef w; runningRef := runningRef w;
     intervalRef := intervalRef w; score := score w; timers := timers w;
     timerSeq := timerSeq w; listeners := listeners w; alerts := alerts w;
     rng := rng w; reloads := reloads w |}.

Definition set_snakeRef (v : list Cell.t) (w : World) : World :=
  {| canvasRef := canvasRef w; logoRef := logoRef w;
     logoLoadedRef := logoLoadedRef w; snakeRef := v; dirRef := dirRef w;
     foodRef := foodRef w; scoreRef := scoreRef w;
     runningRef := runningRef w; intervalRef := intervalRef w;
     score := score w; timers := timers w; timerSeq := timerSeq w;
     listeners := listeners w; alerts := alerts w; rng := rng w;
     reloads := reloads w |}.

Definition set_dirRef (v : Cell.t) (w : World) : World :=
  {| canvasRef := canvasRef w; logoRef := logoRef w;
     logoLoadedRef := logoLoadedRef w; snakeRef := snakeRef w; dirRef := v;
     foodRef := foodRef w; scoreRef := scoreRef w;
     runningRef := runningRef w; intervalRef := intervalRef w;
     score := score w; timers := timers w; timerSeq := timerSeq w;
     listeners := listeners w; alerts := alerts w; rng := rng w;
     reloads := reloads w |}.

Definition set_foodRef (v : option Cell.t) (w : World) : World :=
  {| canvasRef := canvasRef w; logoRef := logoRef w;
     logoLoadedRef := logoLoadedRef w; snakeRef := snakeRef w;
     dirRef := dirRef w; foodRef := v; scoreRef := scoreRef w;
     runningRef := runningRef w; intervalRef := intervalRef w;
     score := score w; timers := timers w; timerSeq := timerSeq w;
     listeners := listeners w; alerts := alerts w; rng := rng w;
     reloads := reloads w |}.

Definition set_scoreRef (v : Z) (w : World) : World :=
  {| canvasRef := canvasRef w; logoRef := logoRef w;
     logoLoadedRef := logoLoadedRef w; snakeRef := snakeRef w;
     dirRef := dirRef w; foodRef := foodRef w; scoreRef := v;
     runningRef := runningRef w; intervalRef := intervalRef w;
     score := score w; timers := timers w; timerSeq := timerSeq w;
     listeners := listeners w; alerts := alerts w; rng := rng w;
     reloads := reloads w |}.

Definition set_runningRef (v : bool) (w : World) : World :=
  {| canvasRef := canvasRef w; logoRef := logoRef w;
     logoLoadedRef := logoLoadedRef w; snakeRef := snakeRef w;
     dirRef := dirRef w; foodRef := foodRef w; scoreRef := scoreRef w;
     runningRef := v; intervalRef := intervalRef w; score := score w;
     timers := timers w; timerSeq := timerSeq w; listeners := listeners w;
     alerts := alerts w; rng := rng w; reloads := reloads w |}.

Definition set_intervalRef (v : option nat) (w : World) : World :=
  {| canvasRef := canvasRef w; logoRef := logoRef w;
     logoLoadedRef := logoLoadedRef w; snakeRef := snakeRef w;
     dirRef := dirRef w; foodRef := foodRef w; scoreRef := scoreRef w;
     runningRef := runningRef w; intervalRef := v; score := score w;
     timers := timers w; timerSeq := timerSeq w; listeners := listeners w;
     alerts := alerts w; rng := rng w; reloads := reloads w |}.

Definition set_score (v : Z) (w : World) : World :=
  {| canvasRef := canvasRef w; logoRef := logoRef w;
     logoLoadedRef := logoLoadedRef w; snakeRef := snakeRef w;
     dirRef := dirRef w; foodRef := foodRef w; scoreRef := scoreRef w;
     runningRef := runningRef w; intervalRef := intervalRef w; score := v;
     timers := timers w; timerSeq := timerSeq w; listeners := listeners w;
     alerts := alerts w; rng := rng w; reloads := reloads w |}.

Definition set_timers (v : gmap nat Timer) (w : World) : World :=
  {| canvasRef := canvasRef w; logoRef := logoRef w;
     logoLoadedRef := logoLoadedRef w; snakeRef := snakeRef w;
     dirRef := dirRef w; foodRef := foodRef w; scoreRef := scoreRef w;
     runningRef := runningRef w; intervalRef := intervalRef w;
     score := score w; timers := v; timerSeq := timerSeq w;
     listeners := listeners w; alerts := alerts w; rng := rng w;
     reloads := reloads w |}.

Definition set_timerSeq (v : nat) (w : World) : World :=
  {| canvasRef := canvasRef w; logoRef := logoRef w;
     logoLoadedRef := logoLoadedRef w; snakeRef := snakeRef w;
     dirRef := dirRef w; foodRef := foodRef w; scoreRef := scoreRef w;
     runningRef := runningRef w; intervalRef := intervalRef w;
     score := score w; timers := timers w; timerSeq := v;
     listeners := listeners w; alerts := alerts w; rng := rng w;
     reloads := reloads w |}.

Definition set_listeners (v : nat) (w : World) : World :=
  {| canvasRef := canvasRef w; logoRef := logoRef w;
     logoLoadedRef := logoLoadedRef w; snakeRef := snakeRef w;
     dirRef := dirRef w; foodRef := foodRef w; scoreRef := scoreRef w;
     runningRef := runningRef w; intervalRef := intervalRef w;
     score := score w; timers := timers w; timerSeq := timerSeq w;
     listeners := v; alerts := alerts w; rng := rng w;
     reloads := reloads w |}.

Definition set_alerts (v : list string) (w : World) : World :=
  {| canvasRef := canvasRef w; logoRef := logoRef w;
     logoLoadedRef := logoLoadedRef w; snakeRef := snakeRef w;
     dirRef := dirRef w; foodRef := foodRef w; scoreRef := scoreRef w;
     runningRef := runningRef w; intervalRef := intervalRef w;
     score := score w; timers := timers w; timerSeq := timerSeq w;
     listeners := listeners w; alerts := v; rng := rng w;
     reloads := reloads w |}.

Definition set_rng (v : nat) (w : World) : World :=
  {| canvasRef := canvasRef w; logoRef := logoRef w;
     logoLoadedRef := logoLoadedRef w; snakeRef := snakeRef w;
     dirRef := dirRef w; foodRef := foodRef w; scoreRef := scoreRef w;
     runningRef := runningRef w; intervalRef := intervalRef w;
     score := score w; timers := timers w; timerSeq := timerSeq w;
     listeners := listeners w; alerts := alerts w; rng := v;
     reloads := reloads w |}.

Definition set_reloads (v : nat) (w : World) : World :=
  {| canvasRef := canvasRef w; logoRef := logoRef w;
     logoLoadedRef := logoLoadedRef w; snakeRef := snakeRef w;
     dirRef := dirRef w; foodRef := foodRef w; scoreRef := scoreRef w;
     runningRef := runningRef w; intervalRef := intervalRef w;
     score := score w; timers := timers w; timerSeq := timerSeq w;
     listeners := listeners w; alerts := alerts w; rng := rng w;
     reloads := v |}.
(** ** What a handler leaves behind *)

(** A handler runs to its end or throws.  The only exception the code can
    raise is the [TypeError] of reading a property of [undefined] or [null];
    the state is the one reached when the handler stopped. *)
Inductive Completion : Type :=
| Normal (w : World)
| TypeError (w : World).

Definition final (c : Completion) : World :=
  match c with Normal w | TypeError w => w end.

Definition returns_normally (c : Completion) : Prop :=
  match c with Normal _ => True | TypeError _ => False end.

#[export] Instance returns_normally_dec c : Decision (returns_normally c).
Proof. destruct c; apply _. Defined.

(** ** The browser functions the handlers call *)

(** [setInterval(callback, delay)]: registers the timer under a fresh id
    and returns the id. *)
Definition setInterval (cb : Callback) (ms : Z) (w : World) : nat * World :=
  let id := timerSeq w in
  let timer := {| callback := cb; delay := ms |} in
  (id, set_timerSeq (S id) (set_timers (<[id := timer]> (timers w)) w)).

(** [clearInterval(id)]: cancels the timer; no effect on null or on an id
    that is not active. *)
Definition clearInterval (id : option nat) (w : World) : World :=
  match id with
  | Some id => set_timers (delete id (timers w)) w
  | None => w
  end.

(** [alert(message)] *)
Definition alert (message : string) (w : World) : World :=
  set_alerts (alerts w ++ [message]) w.

(** ** The page when the component has rendered for the first time

    The refs hold the initial values given to [useRef] (lines 10-20), the
    state is 0 (line 23), React has attached the canvas element, and no
    effect has run: no timer, no listener.  The three parameters are what a
    page load does not reset in the model: the position in the stream of
    random numbers, the count of reloads and the alerts already shown. *)
Definition initial (rng reloads : nat) (alerts : list string) : World :=
  {| canvasRef := Some blank_canvas; logoRef := None; logoLoadedRef := false;
     snakeRef := [start]; dirRef := dir_right; foodRef := None; scoreRef := 0;
     runningRef := true; intervalRef := None; score := 0;
     timers := ∅; timerSeq := 1; listeners := 0; alerts := alerts;
     rng := rng; reloads := reloads |}.

(** ** Facts *)

Lemma clearInterval_timers id w :
  timers (clearInterval id w) = if id is Some i then delete i (timers w) else timers w.
Proof. by destruct id. Qed.

(** Cancelling a timer twice is cancelling it once. *)
Lemma clearInterval_idemp id w :
  clearInterval id (clearInterval id w) = clearInterval id w.
Proof.
  destruct id as [id|]; [|done]. unfold clearInterval, set_timers. simpl.
  by rewrite delete_delete_eq.
Qed.

(** [clearInterval] and [setInterval] as assignments, for rewriting. *)
Lemma clearInterval_eq id w :
  clearInterval id w
  = set_timers (if id is Some i then delete i (timers w) else timers w) w.
Proof. destruct id; [done|by destruct w]. Qed.

Lemma set_canvasRef_id w : set_canvasRef (canvasRef w) w = w.
Proof. by destruct w. Qed.
