(* ===== verification/Engine.v ===== *)
(** * Engine: [tick], [draw] and [gameOver]

    SimulationEngine of the specification.  [tick] (lines 63-99) is the
    callback of the interval timer: it computes the next head from the first
    segment and the stored direction, ends the game when the head leaves the
    board or lands on a segment, and otherwise moves the snake, keeping the
    tail when the head is on the food.  It calls [gameOver] (lines 147-154),
    [spawnFood] and [draw] (lines 102-131), which are part of the model of
    the handler: a tick is one function from the state of the page to a
    completion.

    The two places where the code reads a property of a value that can be
    [undefined] or [null] are kept as error paths: [snake[0]] on an empty
    array (line 68) and [foodRef.current] when no food was placed (line 88).
    The second is reached after [unshift], so the state it leaves behind has
    the new head.  [Controller] proves that neither is reachable. *)

From S2P Require Import Prelude Grid Random Food Canvas World.

(** [draw()] (lines 102-131): paints one frame on the canvas, or returns at
    once when [canvasRef.current] is null (line 104). *)
Definition draw (w : World) : World :=
  match canvasRef w with
  | None => w
  | Some ctx =>
      set_canvasRef
        (Some (draw_on (snakeRef w) (foodRef w) (scoreRef w)
                       (logoRef w) (logoLoadedRef w) ctx)) w
  end.

(** The message of line 151. *)
Definition game_over_message (score : Z) : string :=
  "Game Over! Final Score: " +:+ pretty score.

(** [gameOver()] (lines 147-154). *)
Definition gameOver (w : World) : World :=
  let w := set_runningRef false w in
  let w := clearInterval (intervalRef w) w in
  alert (game_over_message (scoreRef w)) w.

(** The loop of lines 77-82: is there an index [i] with [snake[i]] equal to
    [head]?  The loop runs over the whole array, tail included. *)
Fixpoint self_collision (snake : list Cell.t) (head : Cell.t) : bool :=
  match snake with
  | [] => false
  | segment :: snake => if same_cell segment head then true else self_collision snake head
  end.

Section tick.
Context `{RandomSource}.

(** [tick()] (lines 63-99). *)
Definition tick (w : World) : Completion :=
  if negb (runningRef w) then Normal w else
  let snake := snakeRef w in
  let dir := dirRef w in
  match snake with
  | [] => TypeError w
  | first :: _ =>
      let head := Cell.add first dir in
      if hits_wall head then Normal (gameOver w)
      else if self_collision snake head then Normal (gameOver w)
      else
        let w := set_snakeRef (head :: snake) w in
        match foodRef w with
        | None => TypeError w
        | Some food =>
            if same_cell head food then
              let w := set_scoreRef (scoreRef w + 1) w in
              let w := set_score (scoreRef w) w in
              let '(food, rng) := spawnFood (snakeRef w) (rng w) in
              let w := set_rng rng (set_foodRef (Some food) w) in
              Normal (draw w)
            else
              let w := set_snakeRef (removelast (snakeRef w)) w in
              Normal (draw w)
        end
  end.

(** The state after a tick on which the snake eats: the new head is kept
    with the whole body, both scores go up by one, a new food is drawn for
    the grown snake and the frame is painted. *)
Definition ate (w : World) (head : Cell.t) : World :=
  let snake := head :: snakeRef w in
  let placed := spawnFood snake (rng w) in
  draw (set_rng placed.2 (set_foodRef (Some placed.1)
         (set_score (scoreRef w + 1) (set_scoreRef (scoreRef w + 1)
            (set_snakeRef snake w))))).

(** The state after a tick on which the snake only moves. *)
Definition moved (w : World) (head : Cell.t) : World :=
  draw (set_snakeRef (removelast (head :: snakeRef w)) w).

(** The branches of [tick] as a relation between the state before and the
    completion: the specification of one tick, read off the code. *)
Inductive tick_spec (w : World) : Completion → Prop :=
| tick_spec_paused :
    runningRef w = false → tick_spec w (Normal w)
| tick_spec_no_snake :
    runningRef w = true → snakeRef w = [] → tick_spec w (TypeError w)
| tick_spec_collision first rest :
    runningRef w = true → snakeRef w = first :: rest →
    ¬ in_grid (Cell.add first (dirRef w)) ∨ Cell.add first (dirRef w) ∈ snakeRef w →
    tick_spec w (Normal (gameOver w))
| tick_spec_no_food first rest :
    runningRef w = true → snakeRef w = first :: rest →
    in_grid (Cell.add first (dirRef w)) → Cell.add first (dirRef w) ∉ snakeRef w →
    foodRef w = None →
    tick_spec w (TypeError (set_snakeRef (Cell.add first (dirRef w) :: snakeRef w) w))
| tick_spec_eat first rest :
    runningRef w = true → snakeRef w = first :: rest →
    in_grid (Cell.add first (dirRef w)) → Cell.add first (dirRef w) ∉ snakeRef w →
    foodRef w = Some (Cell.add first (dirRef w)) →
    tick_spec w (Normal (ate w (Cell.add first (dirRef w))))
| tick_spec_move first rest food :
    runningRef w = true → snakeRef w = first :: rest →
    in_grid (Cell.add first (dirRef w)) → Cell.add first (dirRef w) ∉ snakeRef w →
    foodRef w = Some food → food ≠ Cell.add first (dirRef w) →
    tick_spec w (Normal (moved w (Cell.add first (dirRef w)))).

End tick.

(** ** The invariant of the game state *)

(** The stored food is a cell of the board. *)
Definition food_in_grid (w : World) : Prop :=
  match foodRef w with Some food => in_grid food | None => False end.

(** What every handler may rely on once the game is mounted: the snake has
    a head, its segments are distinct cells of the board, the stored
    direction is one of the four, food is placed on the board, the score is
    the number of segments grown, and the React state shows the score. *)
Definition playable (w : World) : Prop :=
  snakeRef w ≠ [] ∧ NoDup (snakeRef w) ∧ Forall in_grid (snakeRef w) ∧
  is_direction (dirRef w) ∧ food_in_grid w ∧
  scoreRef w = Z.of_nat (length (snakeRef w)) - 1 ∧ score w = scoreRef w.

(** The food is not under the snake (specification 3, Food). *)
Definition food_off_snake (w : World) : Prop :=
  match foodRef w with Some food => food ∉ snakeRef w | None => True end.

#[export] Instance food_off_snake_dec w : Decision (food_off_snake w).
Proof. unfold food_off_snake. destruct (foodRef w); apply _. Defined.

#[export] Instance food_in_grid_dec w : Decision (food_in_grid w).
Proof. unfold food_in_grid. destruct (foodRef w); apply _. Defined.

#[export] Instance playable_dec w : Decision (playable w).
Proof. unfold playable. apply _. Defined.

(** ** States for the scenarios *)

(** A running game with the given snake, direction and food, on a fresh
    page. *)
Definition scene (snake : list Cell.t) (dir : Cell.t) (food : option Cell.t) : World :=
  set_foodRef food (set_dirRef dir (set_snakeRef snake (initial 0 0 []))).

(** The states of the scenarios at the end of the file. *)
Definition move_scene : World := scene [start] dir_right (Some (Cell.mk 3 4)).
Definition eat_scene : World := scene [start] dir_right (Some (Cell.mk 11 10)).
Definition wall_scene : World := scene [Cell.mk 19 10] dir_right (Some (Cell.mk 3 4)).
Definition paused_scene : World := set_runningRef false move_scene.

(** ** [draw] and [gameOver] as assignments *)

Lemma draw_eq w :
  draw w
  = set_canvasRef
      (draw_on (snakeRef w) (foodRef w) (scoreRef w) (logoRef w) (logoLoadedRef w)
         <$> canvasRef w) w.
Proof. unfold draw. destruct (canvasRef w) eqn:E; simpl; [done|]. by rewrite <-E, set_canvasRef_id. Qed.

Lemma gameOver_eq w :
  gameOver w
  = set_alerts (alerts w ++ [game_over_message (scoreRef w)])
      (set_timers (if intervalRef w is Some i then delete i (timers w) else timers w)
         (set_runningRef false w)).
Proof. unfold gameOver, alert. by rewrite clearInterval_eq. Qed.

(** [world_simpl] reduces the fields of a state built by the handlers. *)
Ltac world_simpl := rewrite ?draw_eq, ?gameOver_eq, ?clearInterval_eq; simpl.

Lemma self_collision_true snake head : self_collision snake head = true ↔ head ∈ snake.
Proof.
  induction snake as [|s snake IH]; simpl; [by rewrite elem_of_nil|].
  rewrite elem_of_cons. destruct (same_cell s head) eqn:E.
  - apply same_cell_true in E as ->. tauto.
  - apply same_cell_false in E. rewrite IH. split; [by right|by intros [->|?]].
Qed.

Lemma self_collision_false snake head : self_collision snake head = false ↔ head ∉ snake.
Proof. rewrite <-self_collision_true. by destruct (self_collision snake head). Qed.

(** The loop of [tick] and the [some] of [spawnFood] test the same thing. *)
Lemma self_collision_on_snake snake head : self_collision snake head = on_snake snake head.
Proof.
  apply eq_true_iff_eq. by rewrite self_collision_true, on_snake_true.
Qed.

(** ** [tick], branch by branch *)

Section tick_facts.
Context `{RandomSource}.
Implicit Types (w : World) (first head food : Cell.t) (rest : list Cell.t).

(** The two tests of lines 71 and 78 on a head that is a free cell of the
    board. *)
Lemma free_cell_tests snake head :
  in_grid head → head ∉ snake → hits_wall head = false ∧ self_collision snake head = false.
Proof. by rewrite hits_wall_false, self_collision_false. Qed.

(** The code does what the specification says, branch by branch. *)
Lemma tick_spec_sound w c : tick_spec w c → tick w = c.
Proof.
  unfold tick.
  destruct 1 as [Hrun|Hrun Hsnake|first rest Hrun Hsnake Hhit
    |first rest Hrun Hsnake Hgrid Hfree Hfood|first rest Hrun Hsnake Hgrid Hfree Hfood
    |first rest food Hrun Hsnake Hgrid Hfree Hfood Hne];
    rewrite Hrun; [done|by rewrite Hsnake|..]; rewrite Hsnake in *; simpl.
  - destruct (hits_wall _) eqn:Hwall; [done|].
    apply hits_wall_false in Hwall. destruct Hhit as [?|Hself]; [done|].
    apply self_collision_true in Hself. simpl in Hself. by rewrite Hself.
  - destruct (free_cell_tests _ _ Hgrid Hfree) as [-> Hself]. simpl in Hself.
    by rewrite Hself, Hfood.
  - destruct (free_cell_tests _ _ Hgrid Hfree) as [-> Hself]. simpl in Hself.
    rewrite Hself, Hfood, same_cell_refl. unfold ate. rewrite Hsnake.
    by destruct (spawnFood _ _).
  - destruct (free_cell_tests _ _ Hgrid Hfree) as [-> Hself]. simpl in Hself.
    rewrite Hself, Hfood, (proj2 (same_cell_false _ _)) by done.
    unfold moved. by rewrite Hsnake.
Qed.

(** Every state is covered by one of the six branches. *)
Lemma tick_spec_total w : ∃ c, tick_spec w c.
Proof.
  destruct (runningRef w) eqn:Hrun; [|eauto using tick_spec].
  destruct (snakeRef w) as [|first rest] eqn:Hsnake; [eauto using tick_spec|].
  destruct (decide (in_grid (Cell.add first (dirRef w)))) as [Hgrid|Hgrid];
    [|eauto using tick_spec].
  destruct (decide (Cell.add first (dirRef w) ∈ snakeRef w)) as [Hself|Hself];
    [eauto using tick_spec|].
  destruct (foodRef w) as [food|] eqn:Hfood; [|eauto using tick_spec].
  destruct (decide (food = Cell.add first (dirRef w))) as [->|Hne];
    eauto using tick_spec.
Qed.

(** [tick] takes one of the six branches, whatever the state. *)
Lemma tick_view w : tick_spec w (tick w).
Proof. destruct (tick_spec_total w) as [c Hc]. by rewrite (tick_spec_sound w c Hc). Qed.

(** C5. The specification is the function: a completion is related to a
    state exactly when [tick] returns it. *)
Theorem tick_spec_iff w c : tick_spec w c ↔ tick w = c.
Proof. split; [apply tick_spec_sound|intros <-; apply tick_view]. Qed.

(** While [runningRef] is false a tick does nothing at all. *)
Theorem tick_not_running w : runningRef w = false → tick w = Normal w.
Proof. intros. apply tick_spec_sound. by constructor. Qed.

(** C10. A tick whose next head is off the board or on a segment of the
    snake ends the game and changes nothing else. *)
Theorem tick_collision w first rest :
  runningRef w = true → snakeRef w = first :: rest →
  ¬ in_grid (Cell.add first (dirRef w)) ∨ Cell.add first (dirRef w) ∈ snakeRef w →
  tick w = Normal (gameOver w).
Proof. intros. apply tick_spec_sound. by econstructor. Qed.

(** C11. A tick whose next head is a free cell of the board that holds the
    food grows the snake by that head, adds one to the score and places new
    food. *)
Theorem tick_eat w first rest :
  runningRef w = true → snakeRef w = first :: rest →
  in_grid (Cell.add first (dirRef w)) → Cell.add first (dirRef w) ∉ snakeRef w →
  foodRef w = Some (Cell.add first (dirRef w)) →
  tick w = Normal (ate w (Cell.add first (dirRef w))).
Proof. intros. apply tick_spec_sound. by econstructor. Qed.

(** A tick whose next head is a free cell of the board without the
    food moves the snake: the head is pushed and the last segment popped. *)
Theorem tick_move w first rest food :
  runningRef w = true → snakeRef w = first :: rest →
  in_grid (Cell.add first (dirRef w)) → Cell.add first (dirRef w) ∉ snakeRef w →
  foodRef w = Some food → food ≠ Cell.add first (dirRef w) →
  tick w = Normal (moved w (Cell.add first (dirRef w))).
Proof. intros. apply tick_spec_sound. by econstructor. Qed.

(** C20. The two error paths: a tick throws exactly when the game is
    running and either the snake is empty, or no food is stored and the next
    head is a free cell of the board. *)
Theorem tick_throws w :
  ¬ returns_normally (tick w) ↔
  runningRef w = true ∧
  (snakeRef w = [] ∨
   ∃ first rest, snakeRef w = first :: rest ∧ foodRef w = None ∧
     in_grid (Cell.add first (dirRef w)) ∧ Cell.add first (dirRef w) ∉ snakeRef w).
Proof.
  destruct (tick_view w) as [Hrun|Hrun Hsnake|first rest Hrun Hsnake Hhit
    |first rest Hrun Hsnake Hgrid Hfree Hfood|first rest Hrun Hsnake Hgrid Hfree Hfood
    |first rest food Hrun Hsnake Hgrid Hfree Hfood Hne]; simpl.
  - split; [tauto|]. intros [? _]. congruence.
  - tauto.
  - split; [tauto|]. intros (_ & [?|(f & r & Hs & _ & ? & ?)]); [congruence|].
    rewrite Hsnake in Hs. simplify_eq. tauto.
  - split; [|tauto]. intros _. split; [done|]. right. by exists first, rest.
  - split; [tauto|]. intros (_ & [?|(? & ? & ? & ? & _)]); congruence.
  - split; [tauto|]. intros (_ & [?|(? & ? & ? & ? & _)]); congruence.
Qed.

End tick_facts.

(** ** [tick] preserves the invariant *)

Section invariant.
Context `{RandomSource}.
Implicit Types (w : World) (head : Cell.t).

Lemma gameOver_playable w : playable w → playable (gameOver w).
Proof. unfold playable, food_in_grid. by rewrite gameOver_eq. Qed.

Lemma ate_playable w head :
  playable w → in_grid head → head ∉ snakeRef w → playable (ate w head).
Proof.
  unfold playable, food_in_grid, ate. world_simpl.
  intros (Hne & Hdup & Hgrid & Hdir & _ & Hscore & _) Hhead Hfree.
  split_and!; [done|by apply NoDup_cons|by apply Forall_cons|done
    |apply spawnFood_in_grid|lia|done].
Qed.

Lemma moved_playable w head :
  playable w → in_grid head → head ∉ snakeRef w → playable (moved w head).
Proof.
  unfold playable, food_in_grid, moved. world_simpl.
  intros (Hne & Hdup & Hgrid & Hdir & Hfood & Hscore & Hstate) Hhead Hfree.
  rewrite removelast_cons by done.
  split_and!; [done| | |done|done| |done].
  - apply NoDup_cons. split; eauto with snake.
  - apply Forall_cons. split; auto with snake.
  - simpl length. rewrite length_removelast.
    destruct (snakeRef w); [done|simpl in *; lia].
Qed.

(** Safety of [tick]: on a playable state the callback never throws. *)
Theorem tick_returns w : playable w → returns_normally (tick w).
Proof.
  intros (Hne & _ & _ & _ & Hfood & _). unfold food_in_grid in Hfood.
  destruct (tick_view w); try done. by destruct (foodRef w).
Qed.

(** C1. [tick] preserves the invariant, on every branch. *)
Theorem tick_playable w : playable w → playable (final (tick w)).
Proof.
  intros Hw. destruct (tick_view w); simpl;
    eauto using gameOver_playable, ate_playable, moved_playable.
  destruct Hw as (_ & _ & _ & _ & Hfood & _). unfold food_in_grid in Hfood.
  by destruct (foodRef w).
Qed.

(** The score of a playable state is between 0 and 399: the snake has
    at least one segment and at most one per cell of the board. *)
Theorem playable_score_bound w :
  playable w → 0 ≤ scoreRef w ≤ tileCount * tileCount - 1.
Proof.
  intros (Hne & Hdup & Hgrid & _ & _ & -> & _).
  pose proof (NoDup_in_grid_length _ Hdup Hgrid).
  destruct (snakeRef w); [done|simpl length in *; lia].
Qed.

End invariant.

(** On a playable state a tick takes one of four branches. *)
Lemma tick_playable_cases `{RandomSource} w :
  playable w →
  tick w = Normal w ∧ runningRef w = false ∨
  runningRef w = true ∧
    (tick w = Normal (gameOver w) ∨
     ∃ head, in_grid head ∧ (head ∉ snakeRef w) ∧
       (tick w = Normal (ate w head) ∨ tick w = Normal (moved w head))).
Proof.
  intros (Hne & _ & _ & _ & Hfood & _). unfold food_in_grid in Hfood.
  destruct (tick_view w) as [ | | | | |]; try done.
  - by left.
  - right. split; [done|]. by left.
  - by destruct (foodRef w).
  - right. split; [done|]. right. eauto.
  - right. split; [done|]. right. eauto 6.
Qed.

(** ** Consequences for the score, the length and the direction *)

Section consequences.
Context `{RandomSource}.
Implicit Types (w : World).

(** C21. On a tick whose next head is a free cell of the board, the snake
    grows by exactly one segment if the head is on the food and keeps its
    length otherwise. *)
Theorem tick_length w first rest food :
  runningRef w = true → snakeRef w = first :: rest → foodRef w = Some food →
  in_grid (Cell.add first (dirRef w)) → Cell.add first (dirRef w) ∉ snakeRef w →
  length (snakeRef (final (tick w)))
  = (length (snakeRef w) + if decide (food = Cell.add first (dirRef w)) then 1 else 0)%nat.
Proof.
  intros Hrun Hsnake Hfood Hgrid Hfree. case_decide as Hfd.
  - subst food. erewrite (tick_spec_sound w) by (by eapply tick_spec_eat).
    unfold ate. world_simpl. lia.
  - erewrite (tick_spec_sound w) by (by eapply tick_spec_move).
    unfold moved. world_simpl. autorewrite with snake. simpl. lia.
Qed.

(** After a tick that changed the snake, the second segment is the old
    head and the head is one step from it in the stored direction: the
    direction in [dirRef] is the direction of the last move. *)
Theorem tick_neck w first second rest :
  snakeRef (final (tick w)) = first :: second :: rest →
  snakeRef (final (tick w)) ≠ snakeRef w →
  first = Cell.add second (dirRef w).
Proof.
  destruct (tick_view w) as [| | |f r _ Hsnake|f r _ Hsnake|f r ? _ Hsnake];
    unfold ate, moved; world_simpl; try done; rewrite Hsnake.
  - by intros [= <- <- <-].
  - by intros [= <- <- <-].
  - rewrite removelast_cons by done. intros [= <- Hrest] _.
    destruct r; [done|]. rewrite removelast_cons in Hrest by done.
    by injection Hrest as <- _.
Qed.

(** The food stays off the snake: after a tick of a playable state
    whose food is off the snake, the food is off the snake again, provided
    that, when the snake eats, one of the first 500 cells [spawnFood]
    samples is off the grown snake. *)
Theorem tick_food_off_snake w :
  playable w → food_off_snake w →
  (∀ first rest, snakeRef w = first :: rest →
     ∃ k, (k < 500)%nat ∧ sample (rng w) k ∉ Cell.add first (dirRef w) :: snakeRef w) →
  food_off_snake (final (tick w)).
Proof.
  intros (Hne & _) Hoff Hlucky. unfold food_off_snake in *.
  destruct (tick_view w)
    as [| | |f r _ _ _ _ Hnone|f r _ Hsnake _ _ _|f r food _ _ _ _ Hfood Hnew];
    unfold ate, moved; world_simpl; try done.
  - by rewrite Hnone.
  - destruct (Hlucky f r Hsnake) as (k & Hk & Hfree). by eapply spawnFood_off.
  - rewrite Hfood in *. intros [->|?]%elem_of_removelast%elem_of_cons; done.
Qed.

(** A tick never lowers the score and raises it by one at most, whatever
    the state. *)
Lemma tick_score w :
  scoreRef w ≤ scoreRef (final (tick w)) ≤ scoreRef w + 1.
Proof.
  destruct (tick_view w); unfold ate, moved; world_simpl; lia.
Qed.

(** A tick never writes [dirRef]: the direction changes on key
    presses only. *)
Theorem tick_dirRef w : dirRef (final (tick w)) = dirRef w.
Proof. destruct (tick_view w); unfold ate, moved; by world_simpl. Qed.

(** [draw] does not touch the model: putting the canvas back as it was
    gives the state before the call, whatever the state. *)
Theorem draw_model w : set_canvasRef (canvasRef w) (draw w) = w.
Proof. rewrite draw_eq. by destruct w. Qed.

(** [gameOver] stops the game: [runningRef] is false, the timer stored
    in [intervalRef] is cancelled, one alert reports the score, and the
    snake, the direction, the food and the score are left as they are. *)
Theorem gameOver_stops w :
  runningRef (gameOver w) = false ∧
  (∀ id, intervalRef w = Some id → timers (gameOver w) !! id = None) ∧
  alerts (gameOver w) = alerts w ++ [game_over_message (scoreRef w)] ∧
  snakeRef (gameOver w) = snakeRef w ∧ dirRef (gameOver w) = dirRef w ∧
  foodRef (gameOver w) = foodRef w ∧ scoreRef (gameOver w) = scoreRef w.
Proof.
  rewrite gameOver_eq. simpl. split_and!; try done.
  intros id ->. apply lookup_delete_eq.
Qed.

(** After [gameOver] a tick does nothing: the end of the game is not
    left by the timer. *)
Theorem gameOver_terminal w : tick (gameOver w) = Normal (gameOver w).
Proof. apply tick_spec_sound. constructor. by rewrite gameOver_eq. Qed.

End consequences.

(** ** Scenarios *)

(** The snake [(10,10)] moving right, food elsewhere: one tick moves it to
    [(11,10)] and the score stays 0. *)
Example scenario_move :
  let w := final (@tick (scripted [3; 4]) (scene [start] dir_right (Some (Cell.mk 3 4)))) in
  snakeRef w = [Cell.mk 11 10] ∧ scoreRef w = 0 ∧ foodRef w = Some (Cell.mk 3 4).
Proof. by vm_compute. Qed.

(** The same with the food at (11,10): the snake is [(11,10); (10,10)], the
    score 1, and the new food is the first sample off the snake. *)
Example scenario_eat :
  let w := final (@tick (scripted [11; 10; 3; 4]) (scene [start] dir_right (Some (Cell.mk 11 10)))) in
  snakeRef w = [Cell.mk 11 10; Cell.mk 10 10] ∧ scoreRef w = 1 ∧ score w = 1 ∧
  foodRef w = Some (Cell.mk 3 4) ∧ rng w = 4%nat.
Proof. by vm_compute. Qed.

(** The head at x = 19 moving right: the next head has x = 20, the game is
    over, and nothing of the model has changed. *)
Example scenario_wall :
  let w0 := scene [Cell.mk 19 10] dir_right (Some (Cell.mk 3 4)) in
  let w := final (@tick (scripted []) w0) in
  snakeRef w = [Cell.mk 19 10] ∧ scoreRef w = 0 ∧ foodRef w = Some (Cell.mk 3 4) ∧
  runningRef w = false ∧ alerts w = ["Game Over! Final Score: 0"].
Proof. by vm_compute. Qed.

(** The snake [(5,5); (5,6); (5,7)] moving up reaches (5,4): no collision. *)
Example scenario_up :
  let w0 := scene [Cell.mk 5 5; Cell.mk 5 6; Cell.mk 5 7] dir_up (Some (Cell.mk 3 4)) in
  let w := final (@tick (scripted []) w0) in
  snakeRef w = [Cell.mk 5 4; Cell.mk 5 5; Cell.mk 5 6] ∧ runningRef w = true.
Proof. by vm_compute. Qed.

(** The head may not enter the cell the tail is about to leave: the test of
    lines 77-82 runs over the whole array before the tail is popped. *)
Example scenario_tail :
  let w0 := scene [Cell.mk 5 5; Cell.mk 6 5; Cell.mk 6 6; Cell.mk 5 6] dir_down
                  (Some (Cell.mk 3 4)) in
  @tick (scripted []) w0 = Normal (gameOver w0).
Proof. by vm_compute. Qed.

(** ** Witnesses *)

Lemma tick_not_running_witness : @tick (scripted []) paused_scene = Normal paused_scene.
Proof. by apply tick_not_running. Defined.

Lemma tick_collision_witness : @tick (scripted []) wall_scene = Normal (gameOver wall_scene).
Proof.
  apply (tick_collision (H:=scripted []) wall_scene (Cell.mk 19 10) []); [done..|].
  left. compute_done.
Defined.

Lemma tick_eat_witness :
  @tick (scripted [3; 4]) eat_scene
  = Normal (@ate (scripted [3; 4]) eat_scene (Cell.add start (dirRef eat_scene))).
Proof.
  apply (tick_eat (H:=scripted [3; 4]) eat_scene start []);
    [done|done|compute_done..|done].
Defined.

Lemma tick_move_witness :
  @tick (scripted []) move_scene
  = Normal (moved move_scene (Cell.add start (dirRef move_scene))).
Proof.
  apply (tick_move (H:=scripted []) move_scene start [] (Cell.mk 3 4));
    [done|done|compute_done..|done|done].
Defined.

Lemma tick_length_witness :
  length (snakeRef (final (@tick (scripted [3; 4]) eat_scene)))
  = (length (snakeRef eat_scene)
     + if decide (Cell.mk 11 10 = Cell.add start (dirRef eat_scene)) then 1 else 0)%nat.
Proof.
  apply (tick_length (H:=scripted [3; 4]) eat_scene start [] (Cell.mk 11 10));
    [done|done|done|compute_done..].
Defined.

Lemma tick_returns_witness : returns_normally (@tick (scripted [3; 4]) eat_scene).
Proof. apply tick_returns. compute_done. Defined.

Lemma tick_playable_witness : playable (final (@tick (scripted [3; 4]) eat_scene)).
Proof. apply tick_playable. compute_done. Defined.

Lemma playable_score_bound_witness :
  0 ≤ scoreRef eat_scene ≤ tileCount * tileCount - 1.
Proof. apply playable_score_bound. compute_done. Defined.

Lemma tick_neck_witness :
  Cell.mk 11 10 = Cell.add start (dirRef eat_scene).
Proof.
  apply (tick_neck (H:=scripted [3; 4]) eat_scene (Cell.mk 11 10) start []); by vm_compute.
Defined.

Lemma tick_food_off_snake_witness :
  food_off_snake (final (@tick (scripted [3; 4]) eat_scene)).
Proof.
  apply (tick_food_off_snake (H:=scripted [3; 4]) eat_scene).
  - compute_done.
  - compute_done.
  - intros first rest [= <- <-]. exists 0%nat. split; [lia|compute_done].
Defined.
