(* ===== verification/Pixels.v ===== *)
(** * Pixels: what a frame shows

    The canvas of [Canvas] records the painting calls made on it.  This file
    gives the calls their meaning for the pixels of the canvas, the way the
    2D context of a browser defines it for the calls [draw] makes: a call
    paints a region, and what it paints is composed over what the pixel
    showed before (source-over).  A call covers a pixel fully, partly or not
    at all.  [fillRect] with the opaque colours and the integer coordinates
    of [draw] covers the pixels of its rectangle fully; [drawImage] covers a
    pixel of the destination rectangle as much as the image is opaque there;
    [fillText] covers the pixels of the glyphs, their edges partly.  A full
    cover replaces what the pixel showed, a partial one is laid [Over] it.
    How much a text inks a pixel and how opaque a pixel of an image is are
    not known to the program: both are parameters, and what is proved holds
    for every font and every image.

    The theorems are the contract of the Renderer: a frame hides whatever
    the canvas showed before, because it starts by filling the canvas, so
    the picture after [draw] is a function of the model alone and a second
    [draw] changes no pixel; each cell of the board shows the colour of what
    is on it; once the logo has loaded the cell of the food shows the image,
    composed over the background.  A frame without the fill would let the
    partial covers pile up ([frame_needs_fill]).

    Two canvases are [same_picture] when they show the same paint at every
    pixel of the canvas; the relation is an equivalence that the painting
    calls respect, and a frame takes any two canvases to the same
    picture. *)

From S2P Require Import Prelude Grid Canvas World Engine.

(** How much of a pixel a call covers: nothing, a part (the edge of a
    glyph, a partly transparent pixel of an image), or all of it. *)
Inductive Coverage : Type := Clear | Partly | Fully.

#[export] Instance Coverage_eq_dec : EqDecision Coverage.
Proof. solve_decision. Defined.

(** What a pixel shows: nothing yet, a colour, the pixel of an image, or a
    paint that covers the pixel partly over what the pixel showed before. *)
Inductive Paint : Type :=
| Bare
| Solid (style : string)
| Picture (image : Image) (dx dy : Z)
| Over (top under : Paint).

#[export] Instance Paint_eq_dec : EqDecision Paint.
Proof. solve_decision. Defined.

(** The pixel [(px, py)] lies in the rectangle at [(x, y)] of size [w] by
    [h]. *)
Definition in_rect (x y w h px py : Z) : bool :=
  (x <=? px) && (px <? x + w) && (y <=? py) && (py <? y + h).

(** Source-over composition of a paint that covers the pixel as much as
    [c] says with the paint below. *)
Definition compose (c : Coverage) (top under : Paint) : Paint :=
  match c with
  | Clear => under
  | Partly => Over top under
  | Fully => top
  end.

(** The colour of the cell [c] in a frame that paints the food as a square:
    the head, the body, the food or the background. *)
Definition cell_colour (snake : list Cell.t) (food : option Cell.t) (c : Cell.t) : string :=
  if bool_decide (head snake = Some c) then head_colour
  else if bool_decide (c ∈ snake) then body_colour
  else if bool_decide (food = Some c) then "red"
  else background_colour.

(** The pixels of the square [fillRect] paints for the cell [c]: the cell
    less its last row and column. *)
Definition in_cell (c : Cell.t) (px py : Z) : Prop :=
  Cell.x c * boxSize ≤ px < Cell.x c * boxSize + (boxSize - 1) ∧
  Cell.y c * boxSize ≤ py < Cell.y c * boxSize + (boxSize - 1).

(** The pixels of the whole cell [c], the rectangle [drawImage] paints for
    the food. *)
Definition in_box (c : Cell.t) (px py : Z) : Prop :=
  Cell.x c * boxSize ≤ px < Cell.x c * boxSize + boxSize ∧
  Cell.y c * boxSize ≤ py < Cell.y c * boxSize + boxSize.

Definition on_canvas (px py : Z) : Prop :=
  0 ≤ px < canvasSize ∧ 0 ≤ py < canvasSize.

(** The scene of [Engine.eat_scene] once the logo has loaded. *)
Definition logo_scene : World :=
  set_logoLoadedRef true (set_logoRef (Some {| src := "/intuition-logo.png" |}) eat_scene).

(** Fonts and images for the examples: a font that inks nothing and one
    that inks every pixel in part, an image without transparent pixels and
    one that is partly transparent everywhere. *)
Definition no_ink (font text : string) (dx dy : Z) : Coverage := Clear.
Definition faint_ink (font text : string) (dx dy : Z) : Coverage := Partly.
Definition all_opaque (image : Image) (dx dy : Z) : Coverage := Fully.
Definition half_opaque (image : Image) (dx dy : Z) : Coverage := Partly.

Section pixels.
Context (ink : string → string → Z → Z → Coverage) (opaque : Image → Z → Z → Coverage).
Implicit Types (cmd : DrawCmd) (cmds : list DrawCmd) (px py : Z) (paint under : Paint).

(** How much of a pixel a call covers. *)
Definition covers cmd px py : Coverage :=
  match cmd with
  | FillRect style x y w h =>
      if in_rect x y w h px py then Fully else Clear
  | DrawImage image x y w h =>
      if in_rect x y w h px py then opaque image (px - x) (py - y) else Clear
  | FillText style font text x y =>
      ink font text (px - x) (py - y)
  end.

(** The paint a call puts on the pixels it covers. *)
Definition paint_of cmd px py : Paint :=
  match cmd with
  | FillRect style x y w h => Solid style
  | DrawImage image x y w h => Picture image (px - x) (py - y)
  | FillText style font text x y => Solid style
  end.

(** What a pixel shows after one more call. *)
Definition lay cmd px py under : Paint :=
  compose (covers cmd px py) (paint_of cmd px py) under.

(** What a pixel that showed [under] shows after a sequence of calls, the
    first call first. *)
Definition pixel_on under cmds px py : Paint :=
  foldl (λ under cmd, lay cmd px py under) under cmds.

(** What a pixel of a new canvas shows after a sequence of calls. *)
Definition pixel cmds px py : Paint := pixel_on Bare cmds px py.

(** What the canvas of the page shows at a pixel. *)
Definition shown (w : World) px py : option Paint :=
  ctx ← canvasRef w; Some (pixel (painted ctx) px py).

(** The text of the score does not ink the pixel. *)
Definition clear_of_text (score : Z) (px py : Z) : Prop :=
  ink "14px Arial" (score_text score) (px - 8) (py - 16) = Clear.

(** What the cell of the food shows once the logo has loaded: the image
    where it is opaque, the background where it is transparent, the image
    over the background where it is partly transparent. *)
Definition logo_paint (image : Image) (food : Cell.t) px py : Paint :=
  compose (opaque image (px - Cell.x food * boxSize) (py - Cell.y food * boxSize))
    (Picture image (px - Cell.x food * boxSize) (py - Cell.y food * boxSize))
    (Solid background_colour).

(** Two lists of painting calls show the same picture on the canvas. *)
Definition same_picture cmds1 cmds2 : Prop :=
  ∀ px py, on_canvas px py → pixel cmds1 px py = pixel cmds2 px py.

#[export] Instance same_picture_equiv : Equivalence same_picture.
Proof.
  split; [by intros ???|by intros ?? Hp ???; rewrite Hp|].
  intros ??? H1 H2 ???. by rewrite H1, H2.
Qed.

(** ** Facts *)

Lemma pixel_on_app under cmds1 cmds2 px py :
  pixel_on under (cmds1 ++ cmds2) px py
  = pixel_on (pixel_on under cmds1 px py) cmds2 px py.
Proof. apply foldl_app. Qed.

Lemma pixel_app cmds1 cmds2 px py :
  pixel (cmds1 ++ cmds2) px py = pixel_on (pixel cmds1 px py) cmds2 px py.
Proof. apply pixel_on_app. Qed.

(** Calls that leave a pixel clear do not change what it shows. *)
Lemma pixel_on_clear cmds : ∀ under px py,
  (∀ cmd, cmd ∈ cmds → covers cmd px py = Clear) → pixel_on under cmds px py = under.
Proof.
  induction cmds as [|cmd cmds IH]; intros under px py Hall; [done|].
  cbn [pixel_on foldl]. unfold lay. rewrite (Hall cmd) by by left.
  apply IH. intros cmd' ?. apply Hall. by right.
Qed.

(** A call that covers a pixel fully hides what the pixel showed. *)
Lemma pixel_on_fully under cmd cmds px py :
  covers cmd px py = Fully →
  pixel_on under (cmd :: cmds) px py = pixel_on (paint_of cmd px py) cmds px py.
Proof. intros Hc. cbn [pixel_on foldl]. unfold lay. by rewrite Hc. Qed.

(** The last call that covers a pixel, when it covers it fully, decides
    what the pixel shows. *)
Lemma pixel_on_last cmds : ∀ j cmd under px py,
  cmds !! j = Some cmd → covers cmd px py = Fully →
  (∀ k cmd', (j < k)%nat → cmds !! k = Some cmd' → covers cmd' px py = Clear) →
  pixel_on under cmds px py = paint_of cmd px py.
Proof.
  induction cmds as [|c cmds IH]; intros j cmd under px py Hj Hc Hlater; [done|].
  destruct j as [|j]; simpl in Hj.
  - injection Hj as ->. rewrite pixel_on_fully by done. apply pixel_on_clear.
    intros cmd' [k Hk]%list_elem_of_lookup_1. apply (Hlater (S k)); [lia|done].
  - cbn [pixel_on foldl]. apply (IH j); [done..|].
    intros k cmd' ? Hk. apply (Hlater (S k)); [lia|done].
Qed.

(** The background covers the canvas. *)
Lemma covers_background px py :
  on_canvas px py →
  covers (FillRect background_colour 0 0 canvasSize canvasSize) px py = Fully.
Proof.
  unfold on_canvas, covers, in_rect. intros [??].
  by rewrite !andb_true_intro by (split_and!; lia).
Qed.

(** A frame on a pixel that showed [under]: the background, then the snake,
    the food and the score over it. *)
Lemma frame_on under snake food score logo logoLoaded px py :
  on_canvas px py →
  pixel_on under (draw_commands snake food score logo logoLoaded) px py
  = pixel_on (Solid background_colour)
      (imap segment_rect snake ++
       match food with
       | None => []
       | Some f => [food_command f logo logoLoaded;
                    FillText "white" "14px Arial" (score_text score) 8 16]
       end) px py.
Proof. intros Hp. unfold draw_commands. by rewrite pixel_on_fully by by apply covers_background. Qed.

(** A frame hides what the canvas showed before: after the painting calls
    of a frame, every pixel of the canvas shows what the frame alone shows,
    whatever was painted earlier. *)
Lemma frame_hides_history old snake food score logo logoLoaded px py :
  on_canvas px py →
  pixel (old ++ draw_commands snake food score logo logoLoaded) px py
  = pixel (draw_commands snake food score logo logoLoaded) px py.
Proof. intros Hp. unfold pixel. by rewrite pixel_on_app, !frame_on. Qed.

(** ** The cells of a frame *)

Lemma in_cell_in_box c px py : in_cell c px py → in_box c px py.
Proof. unfold in_cell, in_box, boxSize. lia. Qed.

(** The boxes of two cells share no pixel. *)
Lemma in_box_inj c s px py :
  in_box c px py →
  in_rect (Cell.x s * boxSize) (Cell.y s * boxSize) boxSize boxSize px py = true → s = c.
Proof.
  unfold in_box, in_rect, boxSize. intros [??]. destruct s, c. simpl in *.
  rewrite !andb_true_iff. intros. f_equal; lia.
Qed.

Lemma in_cell_in_rect c px py :
  in_cell c px py →
  in_rect (Cell.x c * boxSize) (Cell.y c * boxSize) (boxSize - 1) (boxSize - 1) px py = true.
Proof. unfold in_cell, in_rect. intros [??]. rewrite !andb_true_iff. lia. Qed.

Lemma in_box_in_rect c px py :
  in_box c px py →
  in_rect (Cell.x c * boxSize) (Cell.y c * boxSize) boxSize boxSize px py = true.
Proof. unfold in_box, in_rect. intros [??]. rewrite !andb_true_iff. lia. Qed.

Lemma in_box_on_canvas c px py : in_grid c → in_box c px py → on_canvas px py.
Proof. unfold in_grid, in_box, on_canvas, canvasSize, tileCount, boxSize. lia. Qed.

Lemma in_cell_on_canvas c px py : in_grid c → in_cell c px py → on_canvas px py.
Proof. eauto using in_box_on_canvas, in_cell_in_box. Qed.

(** The square painted for a cell covers no pixel of the box of another
    cell. *)
Lemma covers_square_other style s c px py :
  in_box c px py → s ≠ c →
  covers (FillRect style (Cell.x s * boxSize) (Cell.y s * boxSize)
            (boxSize - 1) (boxSize - 1)) px py = Clear.
Proof.
  intros Hp Hs. unfold covers. destruct (in_rect _ _ _ _ _ _) eqn:Hin; [|done].
  destruct Hs. apply (in_box_inj c s px py Hp). unfold in_rect, boxSize in *.
  rewrite !andb_true_iff in *. lia.
Qed.

(** The square painted for a cell covers the pixels of that cell only. *)
Lemma covers_cell_square style s c px py :
  in_cell c px py →
  covers (FillRect style (Cell.x s * boxSize) (Cell.y s * boxSize)
            (boxSize - 1) (boxSize - 1)) px py
  = if decide (s = c) then Fully else Clear.
Proof.
  intros Hp. case_decide as Hs; [|by apply (covers_square_other _ s c); [apply in_cell_in_box|]].
  subst s. unfold covers. by rewrite in_cell_in_rect.
Qed.

Lemma covers_segment_rect i s c px py :
  in_cell c px py →
  covers (segment_rect i s) px py = if decide (s = c) then Fully else Clear.
Proof. apply covers_cell_square. Qed.

(** The call that paints the food, on a pixel of the square of [c]: the
    red square on the food, nothing elsewhere, whether the food is painted
    as a square or as the logo. *)
Lemma lay_food_square f logo loaded c px py under :
  in_cell c px py → (loaded = true → f ≠ c) →
  lay (food_command f logo loaded) px py under
  = if decide (f = c) then Solid "red" else under.
Proof.
  intros Hp Hl. unfold lay, food_command. destruct loaded, logo as [image|];
    [|rewrite (covers_cell_square _ f c) by done; by case_decide..].
  rewrite decide_False by auto. unfold covers.
  destruct (in_rect _ _ _ _ _ _) eqn:Hin; [|done].
  destruct Hl; [done|]. by eapply in_box_inj, Hin; apply in_cell_in_box.
Qed.

(** The logo, on a pixel of the box of the food. *)
Lemma lay_food_logo f image px py under :
  in_box f px py →
  lay (food_command f (Some image) true) px py under
  = compose (opaque image (px - Cell.x f * boxSize) (py - Cell.y f * boxSize))
      (Picture image (px - Cell.x f * boxSize) (py - Cell.y f * boxSize)) under.
Proof. intros Hp. unfold lay, food_command, covers. by rewrite in_box_in_rect. Qed.

Lemma lay_text_clear score px py under :
  clear_of_text score px py →
  lay (FillText "white" "14px Arial" (score_text score) 8 16) px py under = under.
Proof. unfold clear_of_text, lay, covers. by intros ->. Qed.

(** The snake's part of a frame on a cell without a segment. *)
Lemma pixel_segments_off under snake c px py :
  in_box c px py → c ∉ snake → pixel_on under (imap segment_rect snake) px py = under.
Proof.
  intros Hp Hc. apply pixel_on_clear. intros cmd (i & s & -> & Hs)%elem_of_lookup_imap.
  apply (covers_square_other _ s c); [done|]. intros ->.
  destruct Hc. by eapply list_elem_of_lookup_2.
Qed.

(** The snake's part of a frame on the cell of segment [i]. *)
Lemma pixel_segments_on under snake i c px py :
  NoDup snake → snake !! i = Some c → in_cell c px py →
  pixel_on under (imap segment_rect snake) px py
  = Solid (if i is O then head_colour else body_colour).
Proof.
  intros Hdup Hi Hp. rewrite (pixel_on_last _ i (segment_rect i c)); [done|..].
  - by rewrite list_lookup_imap, Hi.
  - rewrite (covers_segment_rect i c c) by done. by case_decide.
  - intros k cmd Hk. rewrite list_lookup_imap.
    destruct (snake !! k) as [s|] eqn:Hs; [|done]. intros [= <-].
    rewrite (covers_segment_rect k s c) by done. case_decide; [|done].
    subst s. pose proof (NoDup_lookup _ _ _ _ Hdup Hi Hs). lia.
Qed.

(** The food and the score, the last two calls of a frame, on a pixel the
    text leaves clear. *)
Lemma pixel_food_square under food score logo loaded c px py :
  in_cell c px py → clear_of_text score px py → (loaded = true → food ≠ Some c) →
  pixel_on under
    (match food with
     | None => []
     | Some f => [food_command f logo loaded;
                  FillText "white" "14px Arial" (score_text score) 8 16]
     end) px py
  = if bool_decide (food = Some c) then Solid "red" else under.
Proof.
  intros Hp Htext Hl. destruct food as [f|]; [|done]. cbn [pixel_on foldl].
  rewrite lay_text_clear, (lay_food_square f logo loaded c) by (done || naive_solver).
  case_decide; case_bool_decide; congruence.
Qed.

(** The cells of a frame, for a snake of distinct cells and food off the
    snake: every cell before the logo has loaded, every cell but the one
    of the food after. *)
Lemma frame_shows_cell snake food score logo loaded c px py :
  NoDup snake → (∀ f, food = Some f → f ∉ snake) → in_grid c →
  in_cell c px py → clear_of_text score px py → (loaded = true → food ≠ Some c) →
  pixel (draw_commands snake food score logo loaded) px py
  = Solid (cell_colour snake food c).
Proof.
  intros Hdup Hfood Hc Hp Htext Hl. unfold pixel, cell_colour.
  rewrite frame_on by by apply (in_cell_on_canvas c).
  rewrite pixel_on_app, (pixel_food_square _ food score logo loaded c) by done.
  rewrite head_lookup. repeat case_bool_decide.
  - destruct (Hfood c); [done|by eapply list_elem_of_lookup_2].
  - by destruct (Hfood c).
  - done.
  - by rewrite (pixel_segments_on _ snake 0 c).
  - destruct (list_elem_of_lookup_1 snake c) as [i Hi]; [done|].
    rewrite (pixel_segments_on _ snake i c) by done. by destruct i.
  - by rewrite (pixel_segments_off _ snake c) by (done || by apply in_cell_in_box).
Qed.

(** The cell of the food in a frame painted after the logo has loaded. *)
Lemma frame_shows_logo snake food score image px py :
  food ∉ snake → in_grid food → in_box food px py → clear_of_text score px py →
  pixel (draw_commands snake (Some food) score (Some image) true) px py
  = logo_paint image food px py.
Proof.
  intros Hfood Hc Hp Htext. unfold pixel, logo_paint.
  rewrite frame_on by by apply (in_box_on_canvas food).
  rewrite pixel_on_app. cbn [pixel_on foldl].
  by rewrite lay_text_clear, lay_food_logo, (pixel_segments_off _ snake food) by done.
Qed.

(** Painting calls respect the pictures: appending the same calls to two
    lists that show the same picture gives the same picture. *)
Lemma app_same_picture : Proper (same_picture ==> eq ==> same_picture) (@app DrawCmd).
Proof.
  intros cmds1 cmds2 Hsame more ? <- px py Hp. by rewrite !pixel_app, Hsame.
Qed.

#[local] Existing Instance app_same_picture.

Lemma paint_same_picture cmd ctx1 ctx2 :
  same_picture (painted ctx1) (painted ctx2) →
  same_picture (painted (paint cmd ctx1)) (painted (paint cmd ctx2)).
Proof. intros Hsame. rewrite !painted_paint. by rewrite Hsame. Qed.

(** A frame takes every list of calls to the same picture. *)
Lemma frame_same_picture old1 old2 snake food score logo loaded :
  same_picture (old1 ++ draw_commands snake food score logo loaded)
               (old2 ++ draw_commands snake food score logo loaded).
Proof. intros px py Hp. by rewrite !frame_hides_history. Qed.

(** What [draw] leaves on two canvases is the same picture, whatever was
    painted on them before. *)
Lemma draw_on_same_picture snake food score logo loaded ctx1 ctx2 :
  same_picture (painted (draw_on snake food score logo loaded ctx1))
               (painted (draw_on snake food score logo loaded ctx2)).
Proof. rewrite !draw_on_painted. apply frame_same_picture. Qed.

(** ** [draw] *)

(** The frame [draw] paints for the state [w]. *)
Lemma shown_draw w px py :
  on_canvas px py → is_Some (canvasRef w) →
  shown (draw w) px py
  = Some (pixel (draw_commands (snakeRef w) (foodRef w) (scoreRef w) (logoRef w)
                   (logoLoadedRef w)) px py).
Proof.
  intros Hp [ctx Hctx]. unfold shown. rewrite draw_eq, Hctx. simpl.
  by rewrite draw_on_painted, frame_hides_history.
Qed.

(** The picture after [draw] is a function of the model alone: two states
    with the same snake, food, score and logo show the same picture after
    [draw], whatever their canvases showed before. *)
Theorem draw_forgets_canvas w1 w2 px py :
  on_canvas px py → is_Some (canvasRef w1) → is_Some (canvasRef w2) →
  snakeRef w1 = snakeRef w2 → foodRef w1 = foodRef w2 → scoreRef w1 = scoreRef w2 →
  logoRef w1 = logoRef w2 → logoLoadedRef w1 = logoLoadedRef w2 →
  shown (draw w1) px py = shown (draw w2) px py.
Proof. intros Hp ?? Hs Hf Hsc Hl Hll. rewrite !shown_draw by done. by rewrite Hs, Hf, Hsc, Hl, Hll. Qed.

(** C40. Painting is idempotent for the eye: a second call of [draw] in the
    same state changes no pixel of the canvas, although it adds its calls
    to the canvas, because the frame starts by filling the whole canvas:
    the partly transparent paint of the glyphs and of the logo is laid over
    the fresh background, not over what the first call left. *)
Theorem draw_idempotent w px py :
  on_canvas px py → shown (draw (draw w)) px py = shown (draw w) px py.
Proof.
  intros Hp. destruct (canvasRef w) as [ctx|] eqn:Hctx; cycle 1.
  { unfold draw. by rewrite Hctx, Hctx. }
  rewrite !shown_draw by (done || by rewrite ?draw_eq, ?Hctx). by rewrite draw_eq.
Qed.

(** C37. After [draw] every cell of the board shows what the model has on
    it: in a playable state whose food is off the snake, the pixels of the
    square of a cell that the score text leaves clear show the colour of
    the head on the head, of the body on the other segments, red on the
    food and the background elsewhere; once the logo has loaded this holds
    of every cell but the one of the food. *)
Theorem draw_shows_cell w c px py :
  playable w → is_Some (canvasRef w) →
  (logoLoadedRef w = true → foodRef w ≠ Some c) → food_off_snake w →
  in_grid c → in_cell c px py → clear_of_text (scoreRef w) px py →
  shown (draw w) px py = Some (Solid (cell_colour (snakeRef w) (foodRef w) c)).
Proof.
  intros (_ & Hdup & _) Hctx Hlogo Hfood Hc Hp Htext.
  rewrite shown_draw by eauto using in_cell_on_canvas. f_equal.
  apply frame_shows_cell; try done.
  intros f Hf. unfold food_off_snake in Hfood. by rewrite Hf in Hfood.
Qed.

(** C38. Once the logo has loaded the cell of the food shows the logo: in a
    playable state whose food is off the snake, a pixel of the 20 by 20 box
    of the food that the score text leaves clear shows the pixel of the
    image where the image is opaque, the background where it is
    transparent, and the image over the background where it is partly
    transparent. *)
Theorem draw_shows_logo w image food px py :
  playable w → is_Some (canvasRef w) →
  logoLoadedRef w = true → logoRef w = Some image →
  foodRef w = Some food → food ∉ snakeRef w →
  in_box food px py → clear_of_text (scoreRef w) px py →
  shown (draw w) px py = Some (logo_paint image food px py).
Proof.
  intros (_ & _ & _ & _ & Hgrid & _) Hctx Hloaded Hlogo Hfood Hoff Hp Htext.
  unfold food_in_grid in Hgrid. rewrite Hfood in Hgrid.
  rewrite shown_draw, Hloaded, Hlogo, Hfood by eauto using in_box_on_canvas. f_equal.
  by apply frame_shows_logo.
Qed.

End pixels.

(** ** Runs *)

(** The frame of [Engine.eat_scene] without its first call, the fill of
    lines 108-109. *)
Lemma frame_needs_fill :
  let frame := tail (draw_commands [start] (Some (Cell.mk 11 10)) 0 None false) in
  pixel faint_ink all_opaque (frame ++ frame) 0 0 ≠ pixel faint_ink all_opaque frame 0 0 ∧
  pixel faint_ink all_opaque frame 0 0 = Over (Solid "white") Bare.
Proof. split; [|done]. by vm_compute. Qed.

Lemma draw_idempotent_witness :
  shown faint_ink half_opaque (draw (draw logo_scene)) 225 205
  = shown faint_ink half_opaque (draw logo_scene) 225 205.
Proof. apply draw_idempotent. by vm_compute. Defined.

Lemma draw_shows_cell_witness :
  shown no_ink all_opaque (draw eat_scene) 205 205
  = Some (Solid (cell_colour (snakeRef eat_scene) (foodRef eat_scene) start)).
Proof.
  apply (draw_shows_cell no_ink all_opaque eat_scene start 205 205);
    [compute_done|by eexists|done|compute_done|compute_done|by vm_compute|done].
Defined.

Lemma draw_shows_logo_witness :
  shown no_ink half_opaque (draw logo_scene) 225 205
  = Some (logo_paint half_opaque {| src := "/intuition-logo.png" |} (Cell.mk 11 10) 225 205).
Proof.
  apply (draw_shows_logo no_ink half_opaque logo_scene
           {| src := "/intuition-logo.png" |} (Cell.mk 11 10));
    [compute_done|by eexists|done|done|done|compute_done|by vm_compute|done].
Defined.

(** The first frame of a game: the head in the middle, the food as a red
    square, the background elsewhere. *)
Example first_frame_pixels :
  let w := draw move_scene in
  shown no_ink all_opaque w 205 205 = Some (Solid "#4cafef") ∧
  shown no_ink all_opaque w 65 85 = Some (Solid "red") ∧
  shown no_ink all_opaque w 0 0 = Some (Solid "#0b0b0b") ∧
  shown no_ink all_opaque w 219 205 = Some (Solid "#0b0b0b").
Proof. by vm_compute. Qed.

(** The same pixel of the food under a partly transparent logo and a text
    that inks it in part: the text over the logo over the background. *)
Example composed_pixel :
  shown faint_ink half_opaque (draw logo_scene) 225 205
  = Some (Over (Solid "white")
            (Over (Picture {| src := "/intuition-logo.png" |} 5 5) (Solid "#0b0b0b"))).
Proof. by vm_compute. Qed.
