(* ===== verification/Controller.v ===== *)
(** * Controller: mounting, the buttons, the timers and the event loop

    GameController of the specification.  In the source it is spread over
    the effect of [SnakeGame] (lines 39-145: the logo, the first food, the
    key listener, the interval timer and the cleanup), the two [onClick]
    handlers (lines 183-187 and 194-206), [resetGame] (lines 156-168, which
    nothing calls) and the browser's event loop.

    Every handler is a function on [World].  The event loop is the function
    [handle]: given an event it runs the handler registered for it, or
    returns [None] when the event cannot occur in that state (a timer that
    is not active, a button of a component that is not in the document).
    Handlers run to completion one at a time, so a run of the page is a
    sequence of events, and [reachable] is the set of states of all runs
    from a page load.

    [window.location.reload()] discards the page; the next page renders the
    component and runs its effect.  [reload] is the state after that:
    [effect] on the [initial] page, with the alerts shown so far, the
    position in the random stream and one more reload counted.  No event is
    taken between the reload and the effect.

    React removes a component in two turns: the elements leave the document
    and the refs are cleared ([Unmount], the handler [detach]); the cleanup
    of the effect runs later ([Cleanup]).  Between the two the timer and
    the key listener are those of the effect, so ticks and key presses are
    events of the gap as well: such a tick moves the snake and paints
    nothing.  The logo can fire its [load] event whenever an image has been
    created, any number of times; the browser fires it at most once per
    image, so [handle] allows every run of the page and more. *)

From S2P Require Import Prelude Grid Random Food Input Canvas World Engine.

(** ** Events *)

Inductive Event : Type :=
| KeyDown (key : string)      (** a [keydown] event on [window] *)
| TimerFires (id : nat)       (** the interval timer [id] elapses *)
| ClickRestart                (** a click on the Restart button *)
| ClickPause                  (** a click on the Pause/Resume button *)
| LogoLoads                   (** the [load] event of a logo image *)
| Unmount                     (** React removes the elements of the component *)
| Cleanup.                    (** React runs the cleanup of the effect *)

#[export] Instance Event_eq_dec : EqDecision Event.
Proof. solve_decision. Defined.

Section handlers.
Context `{RandomSource}.

(** ** The effect and its cleanup *)

(** The address of line 42. *)
Definition logo : Image := {| src := "/intuition-logo.png" |}.

(** [logoRef.current.onload] (lines 43-47). *)
Definition onload (w : World) : World :=
  draw (set_logoLoadedRef true w).

(** Line 50: [if (!foodRef.current) foodRef.current = spawnFood()]. *)
Definition initial_food (w : World) : World :=
  match foodRef w with
  | Some _ => w
  | None =>
      let placed := spawnFood (snakeRef w) (rng w) in
      set_rng placed.2 (set_foodRef (Some placed.1) w)
  end.

(** [intervalRef.current = setInterval(callback, 120)] (lines 135, 163
    and 201). *)
Definition start_interval (cb : Callback) (w : World) : World :=
  let started := setInterval cb 120 w in
  set_intervalRef (Some started.1) started.2.

(** The body of the effect (lines 40-135). *)
Definition effect (w : World) : World :=
  let w := set_logoRef (Some logo) w in
  let w := initial_food w in
  let w := set_listeners (S (listeners w)) w in
  let w := set_runningRef true w in
  start_interval TickCallback w.

(** The cleanup the effect returns (lines 138-142). *)
Definition cleanup (w : World) : World :=
  let w := set_runningRef false w in
  let w := clearInterval (intervalRef w) w in
  set_listeners (pred (listeners w)) w.

(** React removes the component in two steps.  First the elements leave
    the document and the ref is cleared; the timer and the listener of the
    effect are still active. *)
Definition detach (w : World) : World := set_canvasRef None w.

(** Then, in a later turn of the event loop, the cleanup of the effect
    runs.  [unmount] is the state after both steps. *)
Definition unmount (w : World) : World :=
  set_canvasRef None (cleanup w).

(** A page load: the component renders and its effect runs. *)
Definition mount (rng reloads : nat) (alerts : list string) : World :=
  effect (initial rng reloads alerts).

(** [window.location.reload()] *)
Definition reload (w : World) : World :=
  mount (rng w) (S (reloads w)) (alerts w).

(** ** The handlers *)

(** [handleKey] as registered on [window]: every listener runs. *)
Definition keydown (key : string) (w : World) : World :=
  Nat.iter (listeners w) (λ w, set_dirRef (handleKey key (dirRef w)) w) w.

(** [onClick] of the Restart button (lines 183-188). *)
Definition restart_click (w : World) : World :=
  if negb (runningRef w) then reload w else w.

(** [onClick] of the Pause/Resume button (lines 194-206). *)
Definition pause_click (w : World) : World :=
  if runningRef w then
    let w := set_runningRef false w in
    clearInterval (intervalRef w) w
  else
    let w := set_runningRef true w in
    start_interval ReloadCallback w.

(** [resetGame()] (lines 156-168).  No handler calls it. *)
Definition resetGame (w : World) : World :=
  let w := set_snakeRef [start] w in
  let w := set_dirRef dir_right w in
  let placed := spawnFood (snakeRef w) (rng w) in
  let w := set_rng placed.2 (set_foodRef (Some placed.1) w) in
  let w := set_scoreRef 0 w in
  let w := set_score 0 w in
  let w := set_runningRef true w in
  start_interval ReloadCallback w.

(** What a timer runs when it elapses. *)
Definition run_callback (cb : Callback) (w : World) : Completion :=
  match cb with
  | TickCallback => tick w
  | ReloadCallback => Normal (reload w)
  end.

(** ** The event loop *)

(** The component is in the document: its canvas is attached. *)
Definition in_document (w : World) : bool := bool_decide (is_Some (canvasRef w)).

(** One turn of the event loop: the completion of the handler of [e], or
    [None] when [e] cannot occur in [w]. *)
Definition handle (e : Event) (w : World) : option Completion :=
  match e with
  | KeyDown key => Some (Normal (keydown key w))
  | TimerFires id => timer ← timers w !! id; Some (run_callback (callback timer) w)
  | ClickRestart => if in_document w then Some (Normal (restart_click w)) else None
  | ClickPause => if in_document w then Some (Normal (pause_click w)) else None
  | LogoLoads =>
      if bool_decide (is_Some (logoRef w)) then Some (Normal (onload w)) else None
  | Unmount => if in_document w then Some (Normal (detach w)) else None
  | Cleanup =>
      if negb (in_document w) && bool_decide (0 < listeners w)%nat
      then Some (Normal (cleanup w)) else None
  end.

(** A run: the events are taken in order; an exception ends a handler, not
    the page. *)
Fixpoint run (events : list Event) (w : World) : option World :=
  match events with
  | [] => Some w
  | e :: events => c ← handle e w; run events (final c)
  end.

(** The states of all runs from a page load. *)
Inductive reachable : World → Prop :=
| reachable_mount rng : reachable (mount rng 0 [])
| reachable_step w e c : reachable w → handle e w = Some c → reachable (final c).

(** The event loop as a step relation: the event that occurs, the condition
    under which it can occur, and the completion of its handler. *)
Inductive page_step (w : World) : Event → Completion → Prop :=
| step_key key :
    page_step w (KeyDown key) (Normal (keydown key w))
| step_tick id timer :
    timers w !! id = Some timer → callback timer = TickCallback →
    page_step w (TimerFires id) (tick w)
| step_reload id timer :
    timers w !! id = Some timer → callback timer = ReloadCallback →
    page_step w (TimerFires id) (Normal (reload w))
| step_restart :
    in_document w = true → page_step w ClickRestart (Normal (restart_click w))
| step_pause :
    in_document w = true → page_step w ClickPause (Normal (pause_click w))
| step_logo :
    is_Some (logoRef w) → page_step w LogoLoads (Normal (onload w))
| step_unmount :
    in_document w = true → page_step w Unmount (Normal (detach w))
| step_cleanup :
    in_document w = false → (0 < listeners w)%nat →
    page_step w Cleanup (Normal (cleanup w)).

End handlers.

(** ** The invariant of the page *)

(** The timers agree with [runningRef]: while it is true exactly one timer
    is active, the one whose id [intervalRef] holds, and the id is one that
    [setInterval] has already handed out; while it is false no timer is
    active. *)
Definition scheduled (w : World) : Prop :=
  if runningRef w then
    match intervalRef w with
    | Some id =>
        (id < timerSeq w)%nat ∧
        match timers w !! id with
        | Some timer => timers w = {[id := timer]}
        | None => False
        end
    | None => False
    end
  else timers w = ∅.

(** The key listener agrees with the document: one listener while the
    component is in the document; after it has left the document, one
    listener until the cleanup has run, none and a stopped game after. *)
Definition attached (w : World) : Prop :=
  if in_document w then listeners w = 1%nat
  else listeners w = 1%nat ∨ listeners w = 0%nat ∧ runningRef w = false.

Definition page_ok (w : World) : Prop := playable w ∧ scheduled w ∧ attached w.

#[export] Instance scheduled_dec w : Decision (scheduled w).
Proof.
  unfold scheduled. destruct (runningRef w); [|apply _].
  destruct (intervalRef w) as [id|]; [|apply _].
  destruct (timers w !! id); apply _.
Defined.

#[export] Instance attached_dec w : Decision (attached w).
Proof. unfold attached. destruct (in_document w); apply _. Defined.

#[export] Instance page_ok_dec w : Decision (page_ok w).
Proof. unfold page_ok. apply _. Defined.

(** ** What a run can change *)

(** The game proper: what the player sees of the model. *)
Definition game (w : World) : list Cell.t * option Cell.t * Z * Z :=
  (snakeRef w, foodRef w, scoreRef w, score w).

(** The tick callback is scheduled. *)
Definition ticking (w : World) : Prop :=
  ∃ id timer, timers w !! id = Some timer ∧ callback timer = TickCallback.

(** ** Concrete pages *)

(** The source of the runs: the first food is drawn at (11, 10), right of
    the snake, the second at (3, 4). *)
Definition demo_source : RandomSource := scripted [11; 10; 3; 4].

(** A page just loaded. *)
Definition page0 : World := @mount demo_source 0 0 [].

(** The same page after a click on Pause. *)
Definition stopped_page : World := pause_click page0.

(** The same page after a click on Pause and a click on Resume. *)
Definition resumed_page : World := pause_click stopped_page.

(** The page after the tick on which the snake eats the first food: the
    snake is [(11,10); (10,10)]. *)
Definition fed_page : World := final (@tick demo_source page0).

(** ** Facts about the invariant *)

Lemma scheduled_running w :
  scheduled w → runningRef w = true →
  ∃ id timer, intervalRef w = Some id ∧ timers w = {[id := timer]} ∧ (id < timerSeq w)%nat.
Proof.
  unfold scheduled. intros Hs Hrun. rewrite Hrun in Hs.
  destruct (intervalRef w) as [id|]; [|done]. destruct Hs as [Hlt Hs].
  destruct (timers w !! id) as [timer|]; [|done]. by exists id, timer.
Qed.

Lemma scheduled_stopped w : scheduled w → runningRef w = false → timers w = ∅.
Proof. unfold scheduled. intros Hs Hrun. by rewrite Hrun in Hs. Qed.

(** A state whose game is stopped and whose timers are all cancelled. *)
Lemma scheduled_intro_stopped w : runningRef w = false → timers w = ∅ → scheduled w.
Proof. unfold scheduled. by intros -> ->. Qed.

(** A state whose game runs on the one timer [id]. *)
Lemma scheduled_intro_running w id timer :
  runningRef w = true → intervalRef w = Some id → timers w = {[id := timer]} →
  (id < timerSeq w)%nat → scheduled w.
Proof.
  unfold scheduled. intros -> -> Ht Hlt. split; [done|].
  by rewrite Ht, lookup_singleton_eq.
Qed.

Lemma in_document_true w : in_document w = true ↔ is_Some (canvasRef w).
Proof. unfold in_document. by rewrite bool_decide_eq_true. Qed.

(** ** The step relation is the event loop *)

Section steps.
Context `{RandomSource}.
Implicit Types (w : World) (c : Completion) (e : Event).

Lemma handle_view e w c : handle e w = Some c → page_step w e c.
Proof.
  destruct e; simpl.
  - intros [= <-]. constructor.
  - destruct (timers w !! id) as [[[] ms]|] eqn:Hid; simpl; [..|done]; intros [= <-];
      [eapply step_tick|eapply step_reload]; done.
  - destruct (in_document w) eqn:Hdoc; intros [= <-]. by constructor.
  - destruct (in_document w) eqn:Hdoc; intros [= <-]. by constructor.
  - case_bool_decide; intros [= <-]. by constructor.
  - destruct (in_document w) eqn:Hdoc; intros [= <-]. by constructor.
  - destruct (in_document w) eqn:Hdoc; [done|]. simpl. case_bool_decide; intros [= <-].
    by constructor.
Qed.

Lemma page_step_handle e w c : page_step w e c ↔ handle e w = Some c.
Proof.
  split; [|apply handle_view].
  destruct 1 as [|id timer Hid Hcb|id timer Hid Hcb|Hdoc|Hdoc|Hlogo|Hdoc|Hdoc Hl]; simpl;
    rewrite ?Hid, ?Hdoc, ?bool_decide_eq_true_2 by done; simpl;
    by rewrite ?Hcb.
Qed.

End steps.

Section preservation.
Context `{RandomSource}.
Implicit Types (w : World) (c : Completion) (e : Event).

(** [start_interval] as assignments. *)
Lemma start_interval_eq cb w :
  start_interval cb w
  = set_intervalRef (Some (timerSeq w))
      (set_timerSeq (S (timerSeq w))
         (set_timers (<[timerSeq w := {| callback := cb; delay := 120 |}]> (timers w)) w)).
Proof. done. Qed.

(** Every listener runs [handleKey] on the direction the one before it
    stored; nothing else changes. *)
Lemma keydown_eq key w :
  keydown key w = set_dirRef (Nat.iter (listeners w) (handleKey key) (dirRef w)) w.
Proof.
  unfold keydown. generalize (listeners w) as n.
  induction n as [|n IH]; simpl; [by destruct w|]. by rewrite IH.
Qed.

(** A page load gives a state that satisfies the invariant, with the tick
    timer running under the first id. *)
Lemma mount_ok rng reloads alerts : page_ok (mount rng reloads alerts).
Proof.
  unfold mount, effect, initial_food. rewrite start_interval_eq. simpl.
  split_and!.
  - unfold playable, food_in_grid. simpl. split_and!; try done.
    + apply NoDup_singleton.
    + apply Forall_singleton. auto with snake.
    + compute_done.
    + apply spawnFood_in_grid.
  - eapply scheduled_intro_running; simpl; [done..|by rewrite insert_empty|lia].
  - done.
Qed.

Lemma keydown_ok key w : page_ok w → page_ok (keydown key w).
Proof.
  intros (Hplay & Hsched & Hatt). rewrite keydown_eq. split_and!; [|done..].
  unfold playable, food_in_grid in *. simpl.
  destruct Hplay as (? & ? & ? & Hdir & ? & ? & ?). split_and!; try done.
  induction (listeners w) as [|n IH]; simpl; [done|].
  by destruct (handleKey_inv key _ IH) as [->|(_ & ? & _)].
Qed.

Lemma gameOver_ok w : page_ok w → runningRef w = true → page_ok (gameOver w).
Proof.
  intros (Hplay & Hsched & Hatt) Hrun. split_and!.
  - by apply gameOver_playable.
  - destruct (scheduled_running w) as (id & timer & Hid & Ht & _); [done..|].
    apply scheduled_intro_stopped; rewrite gameOver_eq; simpl; [done|].
    by rewrite Hid, Ht, delete_singleton_eq.
  - unfold attached, in_document in *. rewrite gameOver_eq. simpl.
    destruct (bool_decide _); [done|]. destruct Hatt as [?|[? _]]; auto.
Qed.

(** The states [ate] and [moved] keep the timers and the document. *)
Lemma ate_frame w head :
  scheduled w → attached w → scheduled (ate w head) ∧ attached (ate w head).
Proof.
  unfold scheduled, attached, in_document, ate. world_simpl.
  by rewrite (bool_decide_ext _ _ (fmap_is_Some _ _)).
Qed.

Lemma moved_frame w head :
  scheduled w → attached w → scheduled (moved w head) ∧ attached (moved w head).
Proof.
  unfold scheduled, attached, in_document, moved. world_simpl.
  by rewrite (bool_decide_ext _ _ (fmap_is_Some _ _)).
Qed.

Lemma tick_ok w : page_ok w → page_ok (final (tick w)) ∧ returns_normally (tick w).
Proof.
  intros Hw.
  destruct (tick_playable_cases w (proj1 Hw))
    as [[-> _]|[Hrun [->|(head & ? & ? & [-> | ->])]]];
    (split; [simpl|done]); [done|by apply gameOver_ok|..];
    destruct Hw as (Hplay & Hsched & Hatt).
  - split; [by apply ate_playable|by apply ate_frame].
  - split; [by apply moved_playable|by apply moved_frame].
Qed.

Lemma reload_ok w : page_ok (reload w).
Proof. unfold reload. apply mount_ok. Qed.

Lemma restart_click_ok w : page_ok w → page_ok (restart_click w).
Proof. unfold restart_click. destruct (negb _); auto using reload_ok. Qed.

Lemma pause_click_ok w : page_ok w → in_document w = true → page_ok (pause_click w).
Proof.
  intros (Hplay & Hsched & Hatt) Hdoc. unfold pause_click.
  unfold attached in Hatt. rewrite Hdoc in Hatt.
  destruct (runningRef w) eqn:Hrun.
  - destruct (scheduled_running w) as (id & timer & Hid & Ht & _); [done..|].
    rewrite clearInterval_eq. simpl. split_and!; [done| |].
    + apply scheduled_intro_stopped; simpl; [done|].
      by rewrite Hid, Ht, delete_singleton_eq.
    + unfold attached, in_document in *. simpl. by rewrite Hdoc.
  - rewrite start_interval_eq. split_and!; [done| |].
    + eapply scheduled_intro_running; simpl; [done..| |lia].
      by rewrite (scheduled_stopped w), insert_empty.
    + unfold attached, in_document in *. simpl. by rewrite Hdoc.
Qed.

Lemma onload_ok w : page_ok w → page_ok (onload w).
Proof.
  unfold page_ok, playable, food_in_grid, scheduled, attached, in_document, onload.
  world_simpl. by rewrite (bool_decide_ext _ _ (fmap_is_Some _ _)).
Qed.

Lemma detach_ok w : page_ok w → in_document w = true → page_ok (detach w).
Proof.
  intros (Hplay & Hsched & Hatt) Hdoc. unfold attached in Hatt. rewrite Hdoc in Hatt.
  split_and!; [done..|]. unfold attached, in_document. simpl. by left.
Qed.

Lemma cleanup_ok w : page_ok w → in_document w = false → page_ok (cleanup w).
Proof.
  intros (Hplay & Hsched & Hatt) Hdoc. unfold cleanup.
  unfold attached in Hatt. rewrite Hdoc in Hatt.
  rewrite clearInterval_eq. simpl. split_and!; [done| |].
  - apply scheduled_intro_stopped; simpl; [done|].
    destruct (runningRef w) eqn:Hrun.
    + destruct (scheduled_running w) as (id & timer & Hid & Ht & _); [done..|].
      by rewrite Hid, Ht, delete_singleton_eq.
    + rewrite (scheduled_stopped w) by done. destruct (intervalRef w); [|done].
      apply delete_empty.
  - unfold attached, in_document in *. simpl. rewrite Hdoc.
    right. destruct Hatt as [->|[-> _]]; done.
Qed.

(** The two steps of the unmount, one after the other. *)
Lemma unmount_eq w : unmount w = cleanup (detach w).
Proof. unfold unmount, detach, cleanup. by rewrite !clearInterval_eq. Qed.

Lemma unmount_ok w : page_ok w → in_document w = true → page_ok (unmount w).
Proof. intros Hw Hdoc. rewrite unmount_eq. apply cleanup_ok; [by apply detach_ok|done]. Qed.

(** Every handler preserves the invariant and returns normally. *)
Lemma handle_ok e w c :
  page_ok w → handle e w = Some c → page_ok (final c) ∧ returns_normally c.
Proof.
  intros Hw [| | | | | | |]%handle_view; try (by apply tick_ok); (split; [|done]);
    eauto using keydown_ok, reload_ok, restart_click_ok, pause_click_ok, onload_ok,
      detach_ok, cleanup_ok.
Qed.

(** C2. Every state a page can reach satisfies the invariant: the snake is
    a non-empty list of distinct cells of the board, the direction is a unit
    direction, food is on the board, the scores agree with the length of the
    snake, and the timers and the listener agree with [runningRef] and the
    document. *)
Theorem reachable_ok w : reachable w → page_ok w.
Proof.
  induction 1 as [rng|w e c _ IH Hstep]; [apply mount_ok|].
  by apply (handle_ok e w c).
Qed.

(** C19. No handler throws in a state that satisfies the invariant: the two
    [TypeError]s of [tick] cannot happen on a mounted page. *)
Theorem handlers_return w e c :
  page_ok w → handle e w = Some c → returns_normally c.
Proof. intros Hw Hc. by apply (handle_ok e w c). Qed.

End preservation.

(** ** What the handlers change *)

Section frames.
Context `{RandomSource}.
Implicit Types (w : World) (c : Completion) (e : Event).

Lemma reload_reloads w : reloads (reload w) = S (reloads w).
Proof. unfold reload, mount, effect. by rewrite start_interval_eq. Qed.

(** A page load starts a new game: one segment in the middle of the board
    moving right, score 0, the tick timer running. *)
Lemma mount_game rng n alerts :
  let w := mount rng n alerts in
  snakeRef w = [start] ∧ dirRef w = dir_right ∧ scoreRef w = 0 ∧ score w = 0 ∧
  foodRef w = Some (spawnFood [start] rng).1 ∧ runningRef w = true ∧
  timers w = {[1%nat := {| callback := TickCallback; delay := 120 |}]}.
Proof.
  unfold mount, effect, initial_food. rewrite start_interval_eq. simpl.
  by rewrite insert_empty.
Qed.

Lemma tick_reloads w : reloads (final (tick w)) = reloads w.
Proof. destruct (tick_view w); unfold ate, moved; by world_simpl. Qed.

(** What a handler does to the game: it reloads the page, or is the tick
    callback, or leaves the snake, the food, the scores and the count of
    page loads as they are. *)
Lemma handle_cases e w c :
  handle e w = Some c →
  c = Normal (reload w) ∨
  (∃ id timer, e = TimerFires id ∧ timers w !! id = Some timer ∧
     callback timer = TickCallback ∧ c = tick w) ∨
  game (final c) = game w ∧ reloads (final c) = reloads w.
Proof.
  intros [key|id timer Hid Hcb| | | | | |]%handle_view; unfold game; cbn [final];
    [|by eauto 10|by left|..].
  - right; right. by rewrite keydown_eq.
  - unfold restart_click. destruct (negb _); [by left|by right; right].
  - right; right. unfold pause_click.
    destruct (runningRef w); [by rewrite clearInterval_eq|by rewrite start_interval_eq].
  - right; right. unfold onload. by world_simpl.
  - by right; right.
  - right; right. unfold cleanup. by rewrite clearInterval_eq.
Qed.

(** A handler either reloads the page or leaves the count of reloads. *)
Lemma handle_reload_cases e w c :
  handle e w = Some c → c = Normal (reload w) ∨ reloads (final c) = reloads w.
Proof.
  intros [->|[(_ & _ & _ & _ & _ & ->)|[_ ?]]]%handle_cases;
    [by left|right; apply tick_reloads|by right].
Qed.

(** Within a page, only a tick changes the snake, the food and the scores:
    a handler that does not reload the page either is the tick callback or
    leaves the game as it is. *)
Lemma handle_game e w c :
  handle e w = Some c → reloads (final c) = reloads w →
  (∃ id timer, e = TimerFires id ∧ timers w !! id = Some timer ∧
     callback timer = TickCallback ∧ c = tick w) ∨
  game (final c) = game w.
Proof.
  intros [->|[?|[? _]]]%handle_cases Hre; [|by left|by right].
  unfold final in Hre. rewrite reload_reloads in Hre. lia.
Qed.

(** The count of reloads never goes down. *)
Lemma handle_reloads e w c : handle e w = Some c → (reloads w ≤ reloads (final c))%nat.
Proof.
  intros [->|Hre]%handle_reload_cases; [|lia]. unfold final. rewrite reload_reloads. lia.
Qed.

End frames.

(** ** The state machine of the page *)

Section machine.
Context `{RandomSource}.
Implicit Types (w : World) (c : Completion) (e : Event).

(** The handlers other than the unmount leave the canvas where it is. *)
Lemma canvasRef_effect w : canvasRef (effect w) = canvasRef w.
Proof.
  unfold effect, initial_food. rewrite start_interval_eq. simpl. by destruct (foodRef w).
Qed.

Lemma in_document_mount rng n alerts : in_document (mount rng n alerts) = true.
Proof. unfold in_document, mount. by rewrite canvasRef_effect. Qed.

Lemma in_document_reload w : in_document (reload w) = true.
Proof. unfold reload. apply in_document_mount. Qed.

Lemma in_document_fmap {f : Canvas → Canvas} w w' :
  canvasRef w' = f <$> canvasRef w → in_document w' = in_document w.
Proof. unfold in_document. intros ->. by rewrite (bool_decide_ext _ _ (fmap_is_Some _ _)). Qed.

Lemma in_document_tick w : in_document (final (tick w)) = in_document w.
Proof.
  destruct (tick_view w); simpl; rewrite ?gameOver_eq; try done;
    by eapply in_document_fmap; unfold ate, moved; rewrite draw_eq.
Qed.

Lemma in_document_onload w : in_document (onload w) = in_document w.
Proof. eapply in_document_fmap. unfold onload. by rewrite draw_eq. Qed.

Lemma in_document_pause_click w : in_document (pause_click w) = in_document w.
Proof.
  unfold pause_click. destruct (runningRef w);
    [by rewrite clearInterval_eq|by rewrite start_interval_eq].
Qed.

(** The handler of an active timer is its callback. *)
Lemma handle_timer w id timer :
  timers w !! id = Some timer →
  handle (TimerFires id) w = Some (run_callback (callback timer) w).
Proof. intros Hid. unfold handle. by rewrite Hid. Qed.

Lemma handle_tick_timer w id timer :
  timers w !! id = Some timer → callback timer = TickCallback →
  handle (TimerFires id) w = Some (tick w).
Proof. intros Hid Hcb. by rewrite (handle_timer w id timer Hid), Hcb. Qed.

(** Two steps every page can take: a key press, and the first tick. *)
Lemma reachable_key key w : reachable w → reachable (keydown key w).
Proof. intros Hw. by apply (reachable_step w (KeyDown key) (Normal (keydown key w))). Qed.

Lemma reachable_first_tick rng : reachable (final (tick (mount rng 0 []))).
Proof.
  pose proof (mount_game rng 0 []) as Hgame. cbv zeta in Hgame.
  destruct Hgame as (_ & _ & _ & _ & _ & _ & Ht).
  apply (reachable_step (mount rng 0 []) (TimerFires 1)); [apply reachable_mount|].
  revert Ht. generalize (mount rng 0 []). intros w Ht.
  eapply handle_tick_timer; [by rewrite Ht, lookup_singleton_eq|done].
Qed.

(** Runs, one event at a time and in two parts. *)
Lemma run_cons e events w :
  run (e :: events) w = c ← handle e w; run events (final c).
Proof. done. Qed.

Lemma run_cons_some e events w c :
  handle e w = Some c → run (e :: events) w = run events (final c).
Proof. intros He. by rewrite run_cons, He. Qed.

Lemma run_app events1 events2 : ∀ w,
  run (events1 ++ events2) w = w' ← run events1 w; run events2 w'.
Proof.
  induction events1 as [|e events1 IH]; intros w; simpl; [done|].
  destruct (handle e w); simpl; [apply IH|done].
Qed.

Lemma run_snoc events e w w' :
  run (events ++ [e]) w = Some w' →
  ∃ w0 c, run events w = Some w0 ∧ handle e w0 = Some c ∧ final c = w'.
Proof.
  rewrite run_app. destruct (run events w) as [w0|]; [|done]. simpl.
  destruct (handle e w0) as [c|] eqn:He; [|done]. simpl. intros [= <-]. by exists w0, c.
Qed.

(** A run keeps the invariant. *)
Lemma run_ok events : ∀ w w', page_ok w → run events w = Some w' → page_ok w'.
Proof.
  induction events as [|e events IH]; intros w w' Hw; simpl; [by intros [= <-]|].
  destruct (handle e w) as [c|] eqn:He; simpl; [|done].
  apply IH. by destruct (handle_ok e w c Hw He).
Qed.

Lemma run_reloads events : ∀ w w', run events w = Some w' → (reloads w ≤ reloads w')%nat.
Proof.
  induction events as [|e events IH]; intros w w'; simpl; [by intros [= ->]|].
  destruct (handle e w) as [c|] eqn:He; simpl; [|done]. intros Hrun.
  apply handle_reloads in He. apply IH in Hrun. lia.
Qed.

(** A timer that is active after a tick was active before it. *)
Lemma tick_timers w id timer :
  timers (final (tick w)) !! id = Some timer → timers w !! id = Some timer.
Proof.
  destruct (tick_view w); unfold ate, moved; world_simpl; try done.
  destruct (intervalRef w); [|done]. by intros [_ ?]%lookup_delete_Some.
Qed.

(** Without a reload, a handler does not start the tick callback: a timer
    that runs [tick] after the handler ran it before, under the same id. *)
Lemma handle_ticking_old e w c id timer :
  page_ok w → handle e w = Some c → reloads (final c) = reloads w →
  timers (final c) !! id = Some timer → callback timer = TickCallback →
  timers w !! id = Some timer.
Proof.
  intros (_ & Hsched & _) [| | | | | | |]%handle_view Hre Hid Hcb; cbn [final] in *.
  - by rewrite keydown_eq in Hid.
  - by apply tick_timers.
  - rewrite reload_reloads in Hre. lia.
  - unfold restart_click in *. destruct (negb _); [|done].
    rewrite reload_reloads in Hre. lia.
  - unfold pause_click in *. destruct (runningRef w) eqn:Hrun;
      [rewrite clearInterval_eq in Hid|rewrite start_interval_eq in Hid]; simpl in Hid.
    + destruct (intervalRef w); [|done]. by apply lookup_delete_Some in Hid as [_ Hid].
    + rewrite (scheduled_stopped w), insert_empty in Hid by done.
      apply lookup_singleton_Some in Hid as [_ <-]. done.
  - unfold onload in Hid. by rewrite draw_eq in Hid.
  - done.
  - unfold cleanup in Hid. rewrite clearInterval_eq in Hid. simpl in Hid.
    destruct (intervalRef w); [|done]. by apply lookup_delete_Some in Hid as [_ Hid].
Qed.

(** Without a reload, a handler does not bring the tick callback back. *)
Lemma handle_not_ticking e w c :
  page_ok w → ¬ ticking w → handle e w = Some c → reloads (final c) = reloads w →
  ¬ ticking (final c).
Proof.
  intros Hw Hnt He Hre (id & timer & Hid & Hcb). apply Hnt. exists id, timer.
  split; [by eapply handle_ticking_old|done].
Qed.

End machine.

(** ** Pausing, resuming and the end of the game *)

Section properties.
Context `{RandomSource}.
Implicit Types (w : World) (c : Completion) (e : Event) (events : list Event).

Lemma not_ticking_empty w : timers w = ∅ → ¬ ticking w.
Proof. intros Ht (id & timer & Hid & _). by rewrite Ht in Hid. Qed.

(** Without the tick callback and without a reload, a run changes nothing
    of the game. *)
Lemma run_frozen events : ∀ w w',
  page_ok w → ¬ ticking w → run events w = Some w' → reloads w' = reloads w →
  game w' = game w.
Proof.
  induction events as [|e events IH]; intros w w' Hw Hnt; simpl; [by intros [= ->]|].
  destruct (handle e w) as [c|] eqn:He; simpl; [|done]. intros Hrun Hre.
  pose proof (handle_reloads e w c He). pose proof (run_reloads _ _ _ Hrun).
  assert (reloads (final c) = reloads w) as Hc by lia.
  rewrite (IH (final c) w');
    [|by eapply handle_ok|by eapply handle_not_ticking|done|lia].
  destruct (handle_game e w c He Hc) as [(id & timer & _ & Hid & Hcb & _)|]; [|done].
  destruct Hnt. by exists id, timer.
Qed.

(** The pause branch of the button, as assignments. *)
Lemma pause_click_running w :
  page_ok w → runningRef w = true →
  pause_click w = set_timers ∅ (set_runningRef false w).
Proof.
  intros (_ & Hsched & _) Hrun. unfold pause_click. rewrite Hrun, clearInterval_eq. simpl.
  destruct (scheduled_running w) as (id & timer & -> & -> & _); [done..|].
  by rewrite delete_singleton_eq.
Qed.

(** The resume branch of the button, as assignments. *)
Lemma pause_click_stopped w :
  page_ok w → runningRef w = false →
  pause_click w
  = set_intervalRef (Some (timerSeq w)) (set_timerSeq (S (timerSeq w))
      (set_timers {[timerSeq w := {| callback := ReloadCallback; delay := 120 |}]}
         (set_runningRef true w))).
Proof.
  intros (_ & Hsched & _) Hrun. unfold pause_click. rewrite Hrun, start_interval_eq. simpl.
  by rewrite (scheduled_stopped w), insert_empty.
Qed.

(** C8. Pause: in a state that satisfies the page invariant, a click on the
    button while the game runs stops it, cancels the timer and leaves the
    snake, the food, the scores and the direction as they are. *)
Theorem pause_click_pauses w :
  page_ok w → runningRef w = true →
  runningRef (pause_click w) = false ∧ timers (pause_click w) = ∅ ∧
  game (pause_click w) = game w ∧ dirRef (pause_click w) = dirRef w.
Proof. intros Hw Hrun. by rewrite pause_click_running. Qed.

(** C28. A paused game is never resumed: from a running state that
    satisfies the page invariant, after a click on Pause, whatever events
    follow, the snake, the food and the scores stay as they were at the
    click for as long as the page is not reloaded. *)
Theorem pause_never_resumes w events w' :
  page_ok w → runningRef w = true →
  run (ClickPause :: events) w = Some w' → reloads w' = reloads w →
  game w' = game w.
Proof.
  intros Hw Hrun. simpl. destruct (in_document w) eqn:Hdoc; [simpl|done].
  intros Hevents Hre.
  rewrite (run_frozen events (pause_click w) w'); try done.
  - by rewrite pause_click_running.
  - by apply pause_click_ok.
  - apply not_ticking_empty. by rewrite pause_click_running.
  - by rewrite pause_click_running.
Qed.

(** Resume is a restart: a click on the button while the game is
    stopped schedules [window.location.reload()], and when that timer fires
    the page is loaded again with a new game: one segment in the middle of
    the board, score 0. *)
Theorem resume_reloads w :
  page_ok w → runningRef w = false → in_document w = true →
  run [ClickPause; TimerFires (timerSeq w)] w
  = Some (mount (rng w) (S (reloads w)) (alerts w)) ∧
  snakeRef (mount (rng w) (S (reloads w)) (alerts w)) = [start] ∧
  scoreRef (mount (rng w) (S (reloads w)) (alerts w)) = 0.
Proof.
  intros Hw Hrun Hdoc. split; [|by destruct (mount_game (rng w) (S (reloads w)) (alerts w))].
  simpl. rewrite Hdoc. simpl. rewrite pause_click_stopped by done. simpl.
  by rewrite lookup_singleton_eq.
Qed.

(** C29. The end of the game is final within a page: after [gameOver],
    whatever events follow, the snake, the food and the scores stay as they
    are for as long as the page is not reloaded. *)
Theorem game_over_frozen w events w' :
  page_ok w → runningRef w = true →
  run events (gameOver w) = Some w' → reloads w' = reloads (gameOver w) →
  game w' = game (gameOver w).
Proof.
  intros Hw Hrun. apply run_frozen; [by apply gameOver_ok|].
  apply not_ticking_empty, scheduled_stopped; [by apply gameOver_ok|].
  by rewrite gameOver_eq.
Qed.

(** C35. A click on Pause/Resume after the end of the game is not ignored:
    it sets [runningRef] and schedules a reload of the page. *)
Theorem game_over_pause_click w :
  page_ok w → runningRef w = true → in_document w = true →
  handle ClickPause (gameOver w) = Some (Normal (pause_click (gameOver w))) ∧
  runningRef (pause_click (gameOver w)) = true ∧
  timers (pause_click (gameOver w))
  = {[timerSeq w := {| callback := ReloadCallback; delay := 120 |}]}.
Proof.
  intros Hw Hrun Hdoc. pose proof (gameOver_ok w Hw Hrun) as Hover.
  assert (runningRef (gameOver w) = false) as Hstop by (by rewrite gameOver_eq).
  split.
  - simpl. unfold in_document in *. rewrite gameOver_eq. simpl. by rewrite Hdoc.
  - rewrite pause_click_stopped by done. by rewrite gameOver_eq.
Qed.

Lemma handle_score e w c :
  handle e w = Some c → reloads (final c) = reloads w →
  scoreRef w ≤ scoreRef (final c) ≤ scoreRef w + 1.
Proof.
  intros He Hre.
  destruct (handle_game e w c He Hre) as [(_ & _ & _ & _ & _ & ->)|Hgame];
    [apply tick_score|].
  unfold game in Hgame. injection Hgame as _ _ -> _. lia.
Qed.

(** C23. The score never goes down within a page: along any run that does
    not reload the page, the score at the end is at least the score at the
    start. *)
Theorem score_monotone events : ∀ w w',
  run events w = Some w' → reloads w' = reloads w → scoreRef w ≤ scoreRef w'.
Proof.
  induction events as [|e events IH]; intros w w'; simpl; [by intros [= ->]|].
  destruct (handle e w) as [c|] eqn:He; simpl; [|done]. intros Hrun Hre.
  pose proof (handle_reloads e w c He). pose proof (run_reloads _ _ _ Hrun).
  pose proof (IH (final c) w' Hrun). pose proof (handle_score e w c He). lia.
Qed.

(** C24. The score goes back to 0 only with a reload of the page: a handler
    that changes the count of reloads is [window.location.reload()], and
    leaves a new game: one segment in the middle of the board moving right,
    score 0, fresh food, the game running. *)
Theorem reload_new_game e w c :
  handle e w = Some c → reloads (final c) ≠ reloads w →
  c = Normal (reload w) ∧ snakeRef (reload w) = [start] ∧
  dirRef (reload w) = dir_right ∧ scoreRef (reload w) = 0 ∧ score (reload w) = 0 ∧
  foodRef (reload w) = Some (spawnFood [start] (rng w)).1 ∧ runningRef (reload w) = true.
Proof.
  intros [->|?]%handle_reload_cases ?; [|done]. split; [done|].
  by destruct (mount_game (rng w) (S (reloads w)) (alerts w)) as (? & ? & ? & ? & ? & ? & _).
Qed.

(** Clicks on Restart while the game runs do nothing. *)
Lemma restart_clicks_running n w :
  in_document w = true → runningRef w = true → run (replicate n ClickRestart) w = Some w.
Proof.
  intros Hdoc Hrun. induction n as [|n IH]; [done|].
  rewrite replicate_S, run_cons. simpl handle. rewrite Hdoc. unfold restart_click.
  by rewrite Hrun.
Qed.

(** C36. Restart is ignored while the game runs, however often the button
    is clicked: the handler returns without doing anything unless
    [runningRef] is false.  On a stopped game the first click reloads the
    page, and the clicks after it are ignored again. *)
Theorem restart_click_cases w n :
  in_document w = true →
  run (replicate (S n) ClickRestart) w = Some (if runningRef w then w else reload w).
Proof.
  intros Hdoc. destruct (runningRef w) eqn:Hrun; [by apply restart_clicks_running|].
  rewrite replicate_S, run_cons. simpl handle. rewrite Hdoc. unfold restart_click.
  rewrite Hrun. cbn [negb mbind option_bind final].
  apply restart_clicks_running; [apply in_document_reload|]. unfold reload.
  by destruct (mount_game (rng w) (S (reloads w)) (alerts w)) as (_ & _ & _ & _ & _ & ? & _).
Qed.

(** ** Keys between ticks *)

(** The key listener of a mounted page runs [handleKey] once. *)
Lemma keydown_mounted key w :
  page_ok w → in_document w = true → keydown key w = set_dirRef (handleKey key (dirRef w)) w.
Proof.
  intros (_ & _ & Hatt) Hdoc. unfold attached in Hatt. rewrite Hdoc in Hatt.
  by rewrite keydown_eq, Hatt.
Qed.

(** C30. One key press after a tick never steers the snake into its neck:
    when the second segment is the cell behind the head along the stored
    direction, as it is after every move, the head that the next tick
    computes from the direction one key press leaves is not that segment. *)
Theorem single_key_safe w key first second rest :
  page_ok w → in_document w = true →
  snakeRef w = first :: second :: rest → first = Cell.add second (dirRef w) →
  Cell.add first (dirRef (keydown key w)) ≠ second.
Proof.
  intros Hw Hdoc Hsnake -> Hback. rewrite keydown_mounted in Hback by done.
  simpl in Hback. destruct Hw as ((_ & _ & _ & Hdir & _) & _).
  destruct (handleKey_inv key (dirRef w) Hdir) as [Heq|(_ & _ & Hne)].
  - rewrite Heq in Hback. by eapply add_direction_ne_twice.
  - apply Hne. by eapply add_cancel_neg.
Qed.

(** C31. Two key presses between two ticks can: in every state of a running
    game whose snake has a neck behind the head, there are two arrow keys
    after which the stored direction is the opposite of the last move, and
    the next tick runs the head into the neck and ends the game. *)
Theorem double_key_reverses w first second rest :
  page_ok w → in_document w = true → runningRef w = true →
  snakeRef w = first :: second :: rest → first = Cell.add second (dirRef w) →
  ∃ k1 k2 w', run [KeyDown k1; KeyDown k2] w = Some w' ∧
    dirRef w' = Cell.neg (dirRef w) ∧ tick w' = Normal (gameOver w').
Proof.
  intros Hw Hdoc Hrun Hsnake Hfirst.
  pose proof (keydown_ok (reversing_keys (dirRef w)).1 w Hw) as Hw1.
  exists (reversing_keys (dirRef w)).1, (reversing_keys (dirRef w)).2. eexists.
  split; [done|]. simpl.
  rewrite (keydown_mounted _ (keydown _ w)), (keydown_mounted _ w); try done; cycle 1.
  { by rewrite keydown_mounted. }
  simpl. rewrite reversing_keys_reverse by apply Hw. split; [done|].
  apply tick_spec_sound. eapply tick_spec_collision; simpl; [done..|].
  right. rewrite Hsnake, Hfirst, add_neg. set_solver.
Qed.

End properties.

(** ** Runs on a concrete page *)

#[local] Existing Instance demo_source.

Lemma page0_ok : page_ok page0.
Proof. apply mount_ok. Qed.

Lemma stopped_page_ok : page_ok stopped_page.
Proof. apply pause_click_ok; [apply mount_ok|by vm_compute]. Qed.

Lemma fed_page_ok : page_ok fed_page.
Proof. apply tick_ok, mount_ok. Qed.

Lemma reachable_ok_witness : page_ok (detach (keydown "ArrowUp" fed_page)).
Proof.
  apply reachable_ok.
  apply (reachable_step (keydown "ArrowUp" fed_page) Unmount
           (Normal (detach (keydown "ArrowUp" fed_page)))); [|by vm_compute].
  apply reachable_key, reachable_first_tick.
Defined.

Lemma handlers_return_witness : returns_normally (tick page0).
Proof.
  refine (handlers_return page0 (TimerFires 1) _ page0_ok _).
  by vm_compute.
Defined.

Lemma pause_click_pauses_witness :
  runningRef stopped_page = false ∧ timers stopped_page = ∅ ∧
  game stopped_page = game page0 ∧ dirRef stopped_page = dirRef page0.
Proof.
  refine (pause_click_pauses page0 page0_ok _). by vm_compute.
Defined.

Lemma pause_never_resumes_witness :
  game (keydown "ArrowUp" stopped_page) = game page0.
Proof.
  refine (pause_never_resumes page0 [KeyDown "ArrowUp"] _ page0_ok _ _ _);
    by vm_compute.
Defined.

Lemma resume_reloads_witness :
  run [ClickPause; TimerFires (timerSeq stopped_page)] stopped_page
  = Some (mount (rng stopped_page) (S (reloads stopped_page))
            (alerts stopped_page)) ∧
  snakeRef (mount (rng stopped_page) (S (reloads stopped_page))
              (alerts stopped_page)) = [start] ∧
  scoreRef (mount (rng stopped_page) (S (reloads stopped_page))
              (alerts stopped_page)) = 0.
Proof.
  refine (resume_reloads stopped_page stopped_page_ok _ _); by vm_compute.
Defined.

Lemma game_over_frozen_witness :
  game (keydown "ArrowUp" (gameOver page0)) = game (gameOver page0).
Proof.
  refine (game_over_frozen page0 [KeyDown "ArrowUp"] _ page0_ok _ _ _);
    by vm_compute.
Defined.

Lemma game_over_pause_click_witness :
  handle ClickPause (gameOver page0)
  = Some (Normal (pause_click (gameOver page0))) ∧
  runningRef (pause_click (gameOver page0)) = true ∧
  timers (pause_click (gameOver page0))
  = {[timerSeq page0 := {| callback := ReloadCallback; delay := 120 |}]}.
Proof.
  refine (game_over_pause_click page0 page0_ok _ _); by vm_compute.
Defined.

Lemma score_monotone_witness :
  scoreRef fed_page ≤ scoreRef (final (tick fed_page)).
Proof.
  refine (score_monotone [TimerFires 1] fed_page _ _ _);
    by vm_compute.
Defined.

Lemma reload_new_game_witness :
  Normal (reload resumed_page) = Normal (reload resumed_page) ∧
  snakeRef (reload resumed_page) = [start] ∧
  dirRef (reload resumed_page) = dir_right ∧
  scoreRef (reload resumed_page) = 0 ∧
  score (reload resumed_page) = 0 ∧
  foodRef (reload resumed_page)
  = Some (spawnFood [start] (rng resumed_page)).1 ∧
  runningRef (reload resumed_page) = true.
Proof.
  refine (reload_new_game (TimerFires 2) resumed_page _ _ _);
    by vm_compute.
Defined.

Lemma restart_click_cases_witness :
  run (replicate 3 ClickRestart) page0
  = Some (if runningRef page0 then page0 else reload page0).
Proof. refine (restart_click_cases page0 2 _). by vm_compute. Defined.

Lemma single_key_safe_witness :
  Cell.add (Cell.mk 11 10) (dirRef (keydown "ArrowLeft" fed_page)) ≠ Cell.mk 10 10.
Proof.
  refine (single_key_safe fed_page "ArrowLeft" _ _ [] fed_page_ok _ _ _);
    by vm_compute.
Defined.

Lemma double_key_reverses_witness :
  ∃ k1 k2 w', run [KeyDown k1; KeyDown k2] fed_page = Some w' ∧
    dirRef w' = Cell.neg (dirRef fed_page) ∧
    tick w' = Normal (gameOver w').
Proof.
  refine (double_key_reverses fed_page (Cell.mk 11 10)
            (Cell.mk 10 10) [] fed_page_ok _ _ _ _); by vm_compute.
Defined.

(** A whole game of five events: the snake eats, the player presses Up and
    Left before the next tick, and the tick after runs the head back into
    the neck: the game is over with one point. *)
Example double_key_game :
  ∃ w, run 
         [TimerFires 1; KeyDown "ArrowUp"; KeyDown "ArrowLeft"; TimerFires 1]
         page0 = Some w ∧
       runningRef w = false ∧ snakeRef w = [Cell.mk 11 10; Cell.mk 10 10] ∧
       alerts w = ["Game Over! Final Score: 1"].
Proof.
  exists (final (tick (keydown "ArrowLeft" (keydown "ArrowUp" fed_page)))).
  by vm_compute.
Qed.
