(* ===== verification/Markup.v ===== *)
(** * Markup: the elements [SnakeGame] and [Home] return

    [SnakeGame] returns the markup of lines 170-214: a heading, the score
    line, the canvas, the two buttons with their [onClick] handlers and a
    line of help.  [Home] (src/app/page.js) wraps it in a [main] element.
    The markup is a tree of elements; an element has a tag, attributes and
    children, and a child is an element or a text.  The attributes are the
    ones the two files use.  An [onClick] attribute names the event of
    [Controller] a click on the element is; the event loop runs the handler
    written in the attribute, [restart_click] (lines 183-188) or
    [pause_click] (lines 194-206).

    The markup reads the state in two places: [{score}] (line 173) and
    [runningRef.current] (line 209).

    The second half of the file reads a tree the way the browser and the
    player do: the text of an element, the elements with a given tag or
    class, the handlers a click can reach, the size of the canvas. *)

From S2P Require Import Prelude Grid Random World Controller.

(** ** Elements *)

Inductive Attr : Type :=
| className (classes : string)
| width (pixels : Z)
| height (pixels : Z)
| style (property value : string)
| ref_canvasRef                       (** [ref={canvasRef}] *)
| onClick (click : Event).

#[warnings="-register-all"]
Inductive Node : Type :=
| Text (content : string)
| Element (tag : string) (attrs : list Attr) (children : list Node).

(** The value [SnakeGame] returns (lines 170-214), in the state [w]. *)
Definition SnakeGame (w : World) : Node :=
  Element "div"
    [className "flex flex-col items-center justify-center min-h-screen bg-black text-white p-6"]
    [Element "h1" [className "text-2xl font-bold mb-3"] [Text "🐍 Intuition Snake"];
     Element "div" [className "mb-2"] [Text "Score: "; Text (pretty (score w))];
     Element "canvas"
       [ref_canvasRef; width canvasSize; height canvasSize;
        className "border border-gray-700 bg-gray-900";
        style "imageRendering" "pixelated"] [];
     Element "div" [className "mt-3 space-x-2"]
       [Element "button"
          [onClick ClickRestart; className "px-3 py-1 rounded bg-blue-600"]
          [Text "Restart"];
        Element "button"
          [onClick ClickPause; className "px-3 py-1 rounded bg-gray-600"]
          [Text (if runningRef w then "Pause" else "Resume")]];
     Element "p" [className "text-xs opacity-80 mt-2"]
       [Text "Use arrow keys to move. Eat the logo to grow."]].

(** [Home] of src/app/page.js; the argument is what [<SnakeGame />] renders
    to. *)
Definition Home (game : Node) : Node :=
  Element "main"
    [className "flex min-h-screen items-center justify-center bg-gray-900 text-white"]
    [game].

(** The document of the page when React has rendered in the state [w]. *)
Definition render (w : World) : Node := Home (SnakeGame w).

(** ** Reading a tree *)

(** [node.textContent] *)
Fixpoint textContent (n : Node) : string :=
  match n with
  | Text content => content
  | Element _ _ children => foldr (λ child rest, textContent child +:+ rest) EmptyString children
  end.

(** The elements of a tree in document order, the root first. *)
Fixpoint elements (n : Node) : list Node :=
  match n with
  | Text _ => []
  | Element _ _ children => n :: flat_map elements children
  end.

Definition tag_of (n : Node) : string :=
  match n with Text _ => EmptyString | Element tag _ _ => tag end.

Definition attrs_of (n : Node) : list Attr :=
  match n with Text _ => [] | Element _ attrs _ => attrs end.

(** [document.getElementsByTagName(tag)] *)
Definition by_tag (tag : string) (doc : Node) : list Node :=
  filter (λ n, tag_of n = tag) (elements doc).

(** [document.getElementsByClassName(classes)], for the whole attribute. *)
Definition has_class (classes : string) (n : Node) : bool :=
  existsb (λ a, if a is className c then bool_decide (c = classes) else false) (attrs_of n).

Definition by_class (classes : string) (doc : Node) : list Node :=
  filter (λ n, has_class classes n) (elements doc).

(** The events a click on the element is. *)
Definition clicks (n : Node) : list Event :=
  omap (λ a, if a is onClick click then Some click else None) (attrs_of n).

(** The bitmap of a canvas element: its [width] and [height] attributes. *)
Definition bitmap (n : Node) : option (Z * Z) :=
  w ← head (omap (λ a, if a is width pixels then Some pixels else None) (attrs_of n));
  h ← head (omap (λ a, if a is height pixels then Some pixels else None) (attrs_of n));
  Some (w, h).

(** What the player reads: the score line and the labels of the buttons. *)
Definition score_line (doc : Node) : option string :=
  textContent <$> head (by_class "mb-2" doc).

Definition button_labels (doc : Node) : list string :=
  textContent <$> by_tag "button" doc.

(** ** Facts *)

Section markup_facts.
Implicit Types (w : World).

(** The document has one canvas, of the size [draw] paints on. *)
Lemma render_canvas w :
  bitmap <$> by_tag "canvas" (render w) = [Some (canvasSize, canvasSize)].
Proof. done. Qed.

(** The score line shows the React state [score]. *)
Lemma render_score_line w : score_line (render w) = Some ("Score: " +:+ pretty (score w)).
Proof. unfold score_line. simpl. by rewrite string_app_nil_r. Qed.

(** The buttons are Restart and Pause/Resume, in this order; the label of
    the second is computed from [runningRef] at the time of the render. *)
Lemma render_button_labels w :
  button_labels (render w) = ["Restart"; if runningRef w then "Pause" else "Resume"].
Proof. unfold button_labels. simpl. by rewrite !string_app_nil_r. Qed.

(** A click reaches a handler on the two buttons only: the document
    offers the two click events of the event loop and no other. *)
Lemma render_clicks w : flat_map clicks (elements (render w)) = [ClickRestart; ClickPause].
Proof. done. Qed.

(** The markup depends on the state through the score and [runningRef]
    only. *)
Lemma render_ext w1 w2 :
  score w1 = score w2 → runningRef w1 = runningRef w2 → render w1 = render w2.
Proof. unfold render, SnakeGame. by intros -> ->. Qed.

End markup_facts.
