(* ===== verification/Typing.v ===== *)
(** * Typing: the types of the refs, and that every handler keeps them

    JavaScript gives the refs no types; the handlers assume them.  [typed]
    writes the assumptions down: the segments of the snake and the food are
    cells of the board, the direction is one of the four unit vectors, the
    score is a natural number and the React state is a copy of it,
    [intervalRef] and the keys of the timer table are ids that
    [setInterval] has handed out, every timer has the delay of 120 ms, and
    [logoLoadedRef] is true only when [logoRef] holds an image.

    Unlike the invariant [page_ok] of [Controller], [typed] asks nothing of
    the relation between the refs (the snake may be empty, the food null,
    several timers active), so it holds in every state the code can produce,
    also from [resetGame], which nothing calls, from an effect that runs
    twice, and after a handler that throws. *)

From S2P Require Import Prelude Grid Random Food Input Canvas World Engine Controller.

(** An active timer: its id was handed out, its delay is the one of lines
    135, 167 and 204. *)
Definition timer_typed (next : nat) (id : nat) (timer : Timer) : Prop :=
  (id < next)%nat ∧ delay timer = 120.

Definition typed (w : World) : Prop :=
  Forall in_grid (snakeRef w) ∧ is_direction (dirRef w) ∧
  from_option in_grid True (foodRef w) ∧
  0 ≤ scoreRef w ∧ score w = scoreRef w ∧
  from_option (λ id, (id < timerSeq w)%nat) True (intervalRef w) ∧
  map_Forall (timer_typed (timerSeq w)) (timers w) ∧
  (logoLoadedRef w = true → is_Some (logoRef w)).

#[export] Instance timer_typed_dec next id timer : Decision (timer_typed next id timer).
Proof. unfold timer_typed. apply _. Defined.

#[export] Instance typed_dec w : Decision (typed w).
Proof.
  unfold typed. destruct (foodRef w), (intervalRef w); simpl; apply _.
Defined.

(** ** The browser functions *)

Lemma timer_typed_mono next next' id timer :
  (next ≤ next')%nat → timer_typed next id timer → timer_typed next' id timer.
Proof. unfold timer_typed. intros ? [? ?]. split; [lia|done]. Qed.

Lemma start_interval_typed cb w : typed w → typed (start_interval cb w).
Proof.
  rewrite start_interval_eq. unfold typed. simpl.
  intros (? & ? & ? & ? & ? & _ & Ht & ?). split_and!; try done; [lia|].
  apply map_Forall_insert_2; [split; [lia|done]|].
  eapply map_Forall_impl; [done|]. intros id timer. apply timer_typed_mono. lia.
Qed.

Lemma clearInterval_typed id w : typed w → typed (clearInterval id w).
Proof.
  rewrite clearInterval_eq. unfold typed. simpl.
  intros (? & ? & ? & ? & ? & ? & Ht & ?). split_and!; try done.
  destruct id; [by apply map_Forall_delete|done].
Qed.

(** ** The handlers *)

Section typing.
Context `{RandomSource}.
Implicit Types (w : World) (c : Completion) (e : Event).

(** A state that differs from a typed one in [runningRef], the canvas, the
    alerts, the listeners or the position in the random stream is typed. *)
Lemma typed_frame w w' :
  typed w → snakeRef w' = snakeRef w → dirRef w' = dirRef w → foodRef w' = foodRef w →
  scoreRef w' = scoreRef w → score w' = score w → intervalRef w' = intervalRef w →
  timerSeq w' = timerSeq w → timers w' = timers w → logoLoadedRef w' = logoLoadedRef w →
  logoRef w' = logoRef w → typed w'.
Proof. unfold typed. by intros ? -> -> -> -> -> -> -> -> -> ->. Qed.

Lemma initial_typed rng n alerts : typed (initial rng n alerts).
Proof.
  unfold typed. simpl. split_and!; try done; [|compute_done].
  apply Forall_singleton. auto with snake.
Qed.

Lemma initial_food_typed w : typed w → typed (initial_food w).
Proof.
  unfold initial_food. destruct (foodRef w) eqn:Hfood; [done|].
  unfold typed. simpl. intros (? & ? & _ & ?). split_and!; try tauto.
  apply spawnFood_in_grid.
Qed.

Lemma effect_typed w : typed w → typed (effect w).
Proof.
  intros Hw. apply start_interval_typed.
  pose proof (initial_food_typed (set_logoRef (Some logo) w)) as Hfood.
  eapply typed_frame; [apply Hfood|done..].
  unfold typed in *. simpl. destruct Hw as (? & ? & ? & ? & ? & ? & ? & ?).
  by split_and!.
Qed.

Lemma cleanup_typed w : typed w → typed (cleanup w).
Proof.
  intros Hw. unfold cleanup.
  eapply typed_frame; [apply (clearInterval_typed (intervalRef w) w Hw)|..];
    by rewrite ?clearInterval_eq.
Qed.

Lemma mount_typed rng n alerts : typed (mount rng n alerts).
Proof. apply effect_typed, initial_typed. Qed.

Lemma keydown_typed key w : typed w → typed (keydown key w).
Proof.
  rewrite keydown_eq. unfold typed. simpl.
  intros (? & Hdir & ?). split_and!; try tauto.
  induction (listeners w) as [|n IH]; simpl; [done|].
  by destruct (handleKey_inv key _ IH) as [->|(_ & ? & _)].
Qed.

Lemma draw_typed w : typed w → typed (draw w).
Proof. intros Hw. eapply typed_frame; [done|by rewrite draw_eq..]. Qed.

Lemma gameOver_typed w : typed w → typed (gameOver w).
Proof.
  intros Hw. eapply typed_frame;
    [apply (clearInterval_typed (intervalRef w) w Hw)|by rewrite gameOver_eq, ?clearInterval_eq..].
Qed.

(** The state with the new head pushed, which the second error path of
    [tick] leaves behind. *)
Lemma pushed_typed w head :
  typed w → in_grid head → typed (set_snakeRef (head :: snakeRef w) w).
Proof.
  unfold typed. simpl. intros (? & ?) ?. split; [by apply Forall_cons|done].
Qed.

Lemma ate_typed w head : typed w → in_grid head → typed (ate w head).
Proof.
  intros Hw Hhead. apply draw_typed. unfold typed in *. simpl.
  destruct Hw as (? & ? & ? & ? & ? & ? & ? & ?).
  split_and!; try done; [by apply Forall_cons|apply spawnFood_in_grid|lia].
Qed.

Lemma moved_typed w head : typed w → in_grid head → typed (moved w head).
Proof.
  intros Hw Hhead. apply draw_typed.
  pose proof (pushed_typed w head Hw Hhead) as Hpushed.
  unfold typed in *. simpl in *. destruct Hpushed as (? & ?).
  split; [auto with snake|done].
Qed.

(** [tick] keeps the types, also when it throws. *)
Lemma tick_typed w : typed w → typed (final (tick w)).
Proof.
  intros Hw. destruct (tick_view w); simpl;
    auto using gameOver_typed, pushed_typed, ate_typed, moved_typed.
Qed.

Lemma reload_typed w : typed (reload w).
Proof. unfold reload. apply mount_typed. Qed.

Lemma restart_click_typed w : typed w → typed (restart_click w).
Proof. unfold restart_click. destruct (runningRef w); [done|]. intros _. apply reload_typed. Qed.

Lemma pause_click_typed w : typed w → typed (pause_click w).
Proof.
  intros Hw. unfold pause_click. destruct (runningRef w).
  - eapply typed_frame; [apply (clearInterval_typed (intervalRef w) w Hw)|by rewrite ?clearInterval_eq..].
  - apply start_interval_typed. by eapply typed_frame.
Qed.

Lemma onload_typed w : typed w → is_Some (logoRef w) → typed (onload w).
Proof.
  intros Hw Hlogo. apply draw_typed. unfold typed in *. simpl.
  destruct Hw as (? & ? & ? & ? & ? & ? & ? & ?). by split_and!.
Qed.

Lemma detach_typed w : typed w → typed (detach w).
Proof. intros Hw. by eapply typed_frame. Qed.

Lemma unmount_typed w : typed w → typed (unmount w).
Proof. intros Hw. eapply typed_frame; [by apply cleanup_typed|done..]. Qed.

(** [resetGame] keeps the types in every state, also on a running game. *)
Lemma resetGame_typed w : typed w → typed (resetGame w).
Proof.
  intros Hw. apply start_interval_typed. unfold typed in *. simpl.
  destruct Hw as (? & ? & ? & ? & ? & ? & ? & ?). split_and!; try done.
  - apply Forall_singleton. auto with snake.
  - compute_done.
  - apply spawnFood_in_grid.
Qed.

Lemma handle_typed e w c : typed w → handle e w = Some c → typed (final c).
Proof.
  intros Hw [| | | | | | |]%handle_view; cbn [final];
    auto using keydown_typed, tick_typed, reload_typed, restart_click_typed,
      pause_click_typed, onload_typed, detach_typed, cleanup_typed.
Qed.

(** C14. Type preservation: in a state where the refs hold values of the
    types the handlers assume, the state left by every handler the event
    loop can run, also one that throws, and by [resetGame], the effect and
    its cleanup in any order, holds values of the same types. *)
Theorem handlers_typed w :
  typed w →
  (∀ e c, handle e w = Some c → typed (final c)) ∧
  typed (resetGame w) ∧ typed (effect w) ∧ typed (cleanup w).
Proof.
  intros Hw. split_and!;
    eauto using handle_typed, resetGame_typed, effect_typed, cleanup_typed.
Qed.

(** Every reachable state is typed. *)
Lemma reachable_typed w : reachable w → typed w.
Proof. induction 1; [apply mount_typed|by eapply handle_typed]. Qed.

End typing.

#[local] Existing Instance demo_source.

Lemma handlers_typed_witness :
  (∀ e c, handle e page0 = Some c → typed (final c)) ∧
  typed (resetGame page0) ∧ typed (effect page0) ∧ typed (cleanup page0).
Proof. apply (handlers_typed page0). apply mount_typed. Defined.
