(* ===== verification/Lifecycle.v ===== *)
(** * Lifecycle: the effect against its cleanup, and [resetGame]

    The effect of [SnakeGame] (lines 39-135) subscribes to two things of
    the browser, the interval timer that runs [tick] and the [keydown]
    listener, and returns the cleanup (lines 138-142) that gives them back.
    React runs the cleanup when the component is removed; in development,
    under StrictMode, it also runs effect, cleanup and effect again when
    the component is mounted.  This file proves the round trip (after the
    cleanup the timers and the listeners are those before the effect) and
    that a page mounted twice is the page mounted once with the next timer
    id.

    React removes the component in two turns, [Controller.detach] and the
    cleanup.  In between the timer still runs [tick], which moves the snake
    and paints nothing ([tick_detached], [unmount_gap]).  After the cleanup
    nothing of the component is left in the browser: no timer, no listener,
    and no event changes its state again ([cleanup_final],
    [unmount_final]).

    [resetGame] (lines 156-168) is the third place that starts a timer.
    Nothing calls it; the file states what a call would do: on a stopped
    game it gives a new game that reloads the page after one interval, on a
    running game it leaves the tick timer active beside the new one. *)

From S2P Require Import Prelude Grid Random Food Input Canvas World Engine Controller Typing.

Section lifecycle.
Context `{RandomSource}.
Implicit Types (w : World).

(** A mount under React's StrictMode: effect, cleanup, effect. *)
Definition strict_mount (rng reloads : nat) (alerts : list string) : World :=
  effect (cleanup (effect (initial rng reloads alerts))).

(** The component is gone: out of the document, its cleanup done. *)
Definition removed (w : World) : Prop :=
  in_document w = false ∧ listeners w = 0%nat.

(** ** The timer table *)

(** In a typed state the id [setInterval] returns next is not active. *)
Lemma typed_fresh w : typed w → timers w !! timerSeq w = None.
Proof.
  intros (_ & _ & _ & _ & _ & _ & Ht & _).
  destruct (timers w !! timerSeq w) as [timer|] eqn:Hid; [|done].
  destruct (map_Forall_lookup_1 _ _ _ _ Ht Hid). lia.
Qed.

(** [clearInterval] of the id [setInterval] returned restores the table. *)
Lemma setInterval_clearInterval cb ms w :
  typed w →
  timers (clearInterval (Some (setInterval cb ms w).1) (setInterval cb ms w).2) = timers w.
Proof. intros Hw. simpl. by rewrite delete_insert_id by by apply typed_fresh. Qed.

(** The effect, as assignments to the state after line 50. *)
Lemma effect_eq w :
  effect w
  = let w0 := initial_food (set_logoRef (Some logo) w) in
    set_intervalRef (Some (timerSeq w))
      (set_timerSeq (S (timerSeq w))
         (set_timers (<[timerSeq w := {| callback := TickCallback; delay := 120 |}]> (timers w))
            (set_runningRef true (set_listeners (S (listeners w)) w0)))).
Proof.
  unfold effect. rewrite start_interval_eq. unfold initial_food. simpl.
  by destruct (foodRef w).
Qed.

Lemma initial_food_placed w : is_Some (foodRef w) → initial_food w = w.
Proof. unfold initial_food. by intros [food ->]. Qed.

(** The effect followed by its cleanup: the timer and the listener are
    given back; what stays is the logo, the food placed by line 50, the id
    of the cancelled timer in [intervalRef], and a stopped game. *)
Lemma cleanup_effect w :
  typed w →
  cleanup (effect w)
  = set_runningRef false
      (set_intervalRef (Some (timerSeq w))
         (set_timerSeq (S (timerSeq w)) (initial_food (set_logoRef (Some logo) w)))).
Proof.
  intros Hw. rewrite effect_eq. unfold cleanup. rewrite clearInterval_eq. simpl.
  rewrite delete_insert_id by by apply typed_fresh.
  unfold initial_food. simpl. generalize (spawnFood (snakeRef w) (rng w)).
  intros placed. by destruct (foodRef w), w.
Qed.

(** C15. In a typed state, where the id [setInterval] hands out next is not
    active, the effect and its cleanup are a round trip on what the effect
    takes from the browser: after the cleanup the active timers and the
    [keydown] listeners are exactly those before the effect, and the game
    is stopped. *)
Theorem effect_cleanup_roundtrip w :
  typed w →
  timers (cleanup (effect w)) = timers w ∧
  listeners (cleanup (effect w)) = listeners w ∧
  runningRef (cleanup (effect w)) = false.
Proof.
  intros Hw. rewrite cleanup_effect by done. unfold initial_food. simpl.
  by destruct (foodRef w).
Qed.

(** The cleanup of a state without listeners and timers changes the flag
    only: running it twice is running it once. *)
Lemma cleanup_idemp w :
  typed w → (listeners w ≤ 1)%nat → cleanup (cleanup w) = cleanup w.
Proof.
  intros _ Hl. unfold cleanup. rewrite !clearInterval_eq. simpl.
  assert (pred (pred (listeners w)) = pred (listeners w)) as -> by lia.
  destruct (intervalRef w); [by rewrite delete_delete_eq|done].
Qed.

(** ** A mount under StrictMode *)

(** The state after line 50 of the effect: the logo is set, food is
    placed, and the timers and listeners are untouched. *)
Lemma initial_food_frame w :
  let w0 := initial_food (set_logoRef (Some logo) w) in
  logoRef w0 = Some logo ∧ is_Some (foodRef w0) ∧ listeners w0 = listeners w ∧
  timers w0 = timers w ∧ timerSeq w0 = timerSeq w.
Proof. unfold initial_food. simpl. destruct (foodRef w) eqn:Hfood; simpl; eauto 10. Qed.

(** The effect run again after its cleanup gives the state of the first
    run with the next timer id: the food is not placed again (line 50
    tests [foodRef.current]), one more listener and one more timer are
    registered than before the first run. *)
Lemma effect_cleanup_effect w :
  typed w →
  effect (cleanup (effect w))
  = set_intervalRef (Some (S (timerSeq w)))
      (set_timerSeq (S (S (timerSeq w)))
         (set_timers (<[S (timerSeq w) := {| callback := TickCallback; delay := 120 |}]> (timers w))
            (effect w))).
Proof.
  intros Hw. rewrite cleanup_effect, !effect_eq by done.
  destruct (initial_food_frame w) as (Hlogo & [food Hfood] & Hl & Ht & Hseq).
  cbv zeta. destruct (initial_food _) as []. simpl in *. unfold initial_food. simpl.
  by rewrite Hfood, Hlogo, Hl, Ht.
Qed.

(** The page mounted twice is the page mounted once, except that the tick
    timer has the second id. *)
Lemma strict_mount_eq rng n alerts :
  strict_mount rng n alerts
  = set_intervalRef (Some 2%nat)
      (set_timerSeq 3%nat
         (set_timers {[2%nat := {| callback := TickCallback; delay := 120 |}]}
            (mount rng n alerts))).
Proof.
  unfold strict_mount, mount. rewrite effect_cleanup_effect by apply initial_typed.
  cbn [timerSeq timers initial]. by rewrite insert_empty.
Qed.

(** A mount under StrictMode gives a page that satisfies the invariant
    and shows the same game as a plain mount: [spawnFood] ran once, and
    the one active timer runs [tick]. *)
Theorem strict_mount_ok rng n alerts :
  page_ok (strict_mount rng n alerts) ∧
  game (strict_mount rng n alerts) = game (mount rng n alerts) ∧
  World.rng (strict_mount rng n alerts) = World.rng (mount rng n alerts) ∧
  ticking (strict_mount rng n alerts).
Proof.
  rewrite strict_mount_eq.
  destruct (mount_ok rng n alerts) as (Hplay & _ & Hatt).
  destruct (mount_game rng n alerts) as (_ & _ & _ & _ & _ & Hrun & _).
  revert Hplay Hatt Hrun. generalize (mount rng n alerts). intros w Hplay Hatt Hrun.
  split_and!; [split_and!|done..|]; [done| |done|].
  - eapply scheduled_intro_running; simpl; [done..|lia].
  - exists 2%nat, {| callback := TickCallback; delay := 120 |}. simpl.
    by rewrite lookup_singleton_eq.
Qed.

(** ** [resetGame] *)

Lemma resetGame_eq w :
  resetGame w
  = set_intervalRef (Some (timerSeq w))
      (set_timerSeq (S (timerSeq w))
         (set_timers (<[timerSeq w := {| callback := ReloadCallback; delay := 120 |}]> (timers w))
            (set_runningRef true (set_score 0 (set_scoreRef 0
               (set_rng (spawnFood [start] (rng w)).2
                  (set_foodRef (Some (spawnFood [start] (rng w)).1)
                     (set_dirRef dir_right (set_snakeRef [start] w))))))))).
Proof. done. Qed.

(** [resetGame] on a stopped game in the document: a new game that
    satisfies the invariant, on a canvas that still shows the last frame of
    the old one, and whose timer reloads the page. *)
Lemma resetGame_stopped w :
  page_ok w → in_document w = true → runningRef w = false →
  page_ok (resetGame w) ∧
  game (resetGame w) = ([start], Some (spawnFood [start] (rng w)).1, 0, 0) ∧
  canvasRef (resetGame w) = canvasRef w ∧
  timers (resetGame w) = {[timerSeq w := {| callback := ReloadCallback; delay := 120 |}]}.
Proof.
  intros (Hplay & Hsched & Hatt) Hdoc Hrun. rewrite resetGame_eq.
  rewrite (scheduled_stopped w), insert_empty by done.
  split_and!; [split_and!|done..].
  - unfold playable, food_in_grid. simpl.
    split_and!; [done|apply NoDup_singleton| |compute_done|apply spawnFood_in_grid|done..].
    apply Forall_singleton. auto with snake.
  - eapply scheduled_intro_running; simpl; [done..|lia].
  - unfold attached, in_document in *. simpl. by rewrite Hdoc in *.
Qed.

(** C27. [resetGame] on a running game does not stop the timer that runs
    [tick]: two timers are active afterwards, the tick timer, which now
    moves the new snake, and the timer that reloads the page. *)
Theorem resetGame_leaks_timer w :
  page_ok w → typed w → runningRef w = true → ticking w →
  ticking (resetGame w) ∧ size (timers (resetGame w)) = 2%nat ∧ ¬ scheduled (resetGame w).
Proof.
  intros (_ & Hsched & _) Hw Hrun (id & timer & Hid & Hcb).
  destruct (scheduled_running w Hsched Hrun) as (id' & timer' & _ & Ht & _).
  pose proof (typed_fresh w Hw) as Hfresh. rewrite resetGame_eq.
  assert (size (<[timerSeq w := {| callback := ReloadCallback; delay := 120 |}]> (timers w))
          = 2%nat) as Hsize
    by (by rewrite map_size_insert_None, Ht, map_size_singleton).
  split_and!; [|done|].
  - exists id, timer. simpl. split; [|done].
    rewrite lookup_insert_ne; [done|]. intros <-. congruence.
  - unfold scheduled. simpl. rewrite lookup_insert_eq. intros [_ Heq].
    rewrite Heq, map_size_singleton in Hsize. done.
Qed.

(** ** After the unmount *)

Lemma in_document_false w : in_document w = false → canvasRef w = None.
Proof.
  unfold in_document. intros Hdoc. destruct (canvasRef w); [|done].
  by rewrite bool_decide_eq_true_2 in Hdoc.
Qed.

(** Without a canvas [draw] does nothing. *)
Lemma draw_detached w : canvasRef w = None → draw w = w.
Proof. intros Hcanvas. unfold draw. rewrite Hcanvas. by destruct w. Qed.

(** The tick between the two steps of the unmount: the snake moves as on
    the page in the document, and nothing is painted. *)
Lemma tick_detached w : final (tick (detach w)) = detach (final (tick w)).
Proof.
  unfold tick, detach. simpl. destruct (runningRef w); simpl; [|done].
  destruct (snakeRef w) as [|first rest]; [done|].
  destruct (hits_wall _); [by rewrite !gameOver_eq|].
  destruct (self_collision _ _); [by rewrite !gameOver_eq|]. simpl.
  destruct (foodRef w); [|done].
  destruct (same_cell _ _); simpl; [destruct (spawnFood _ _)|]; by rewrite !draw_eq.
Qed.

(** The two steps of the unmount are a run of the page. *)
Lemma unmount_run w :
  page_ok w → in_document w = true → run [Unmount; Cleanup] w = Some (unmount w).
Proof.
  intros (_ & _ & Hatt) Hdoc. unfold attached in Hatt. rewrite Hdoc in Hatt.
  rewrite unmount_eq. simpl. rewrite Hdoc. simpl.
  by rewrite Hatt.
Qed.

(** On a removed page an event changes nothing, except the load of the
    logo, which sets the flag. *)
Lemma handle_removed e w c :
  page_ok w → removed w → handle e w = Some c →
  final c = set_logoLoadedRef (logoLoadedRef (final c)) w.
Proof.
  intros (_ & Hsched & Hatt) [Hdoc Hl]. pose proof (in_document_false w Hdoc) as Hcanvas.
  unfold attached, scheduled in *. rewrite Hdoc in Hatt.
  destruct Hatt as [?|[_ Hrun]]; [congruence|]. rewrite Hrun in Hsched.
  intros [key|id timer Hid _|id timer Hid _|?|?|_|?|_ ?]%handle_view; cbn [final];
    try congruence; try (by rewrite Hsched in Hid); try lia.
  - rewrite keydown_eq, Hl. by destruct w.
  - unfold onload. rewrite draw_detached by done. by destruct w.
Qed.

Lemma run_removed events : ∀ w w',
  page_ok w → removed w → run events w = Some w' →
  w' = set_logoLoadedRef (logoLoadedRef w') w.
Proof.
  induction events as [|e events IH]; intros w w' Hw Hgone; simpl.
  { intros [= <-]. by destruct w. }
  destruct (handle e w) as [c|] eqn:He; [|done]. simpl. intros Hrun.
  pose proof (handle_removed e w c Hw Hgone He) as Hc.
  destruct (handle_ok e w c Hw He) as [Hok _].
  rewrite (IH _ _ Hok) at 1; [|by rewrite Hc|done]. rewrite Hc. by destruct w.
Qed.

(** What is left of a removed page. *)
Lemma removed_final w events w' :
  page_ok w → removed w → run events w = Some w' →
  w' = set_logoLoadedRef (logoLoadedRef w') w ∧
  timers w' = ∅ ∧ listeners w' = 0%nat ∧ canvasRef w' = None.
Proof.
  intros Hw Hgone Hrun. pose proof (run_removed _ _ _ Hw Hgone Hrun) as Heq.
  split; [done|]. destruct Hgone as [Hdoc Hl]. destruct Hw as (_ & Hsched & Hatt).
  unfold attached, scheduled in *. rewrite Hdoc in Hatt.
  destruct Hatt as [?|[_ Hstop]]; [congruence|]. rewrite Hstop in Hsched.
  rewrite Heq. split_and!; [exact Hsched|exact Hl|by apply in_document_false].
Qed.

Lemma cleanup_removed w : page_ok w → in_document w = false → removed (cleanup w).
Proof.
  intros (_ & _ & Hatt) Hdoc. unfold attached in Hatt. rewrite Hdoc in Hatt.
  unfold removed, cleanup. rewrite clearInterval_eq. simpl.
  split; [by rewrite <-Hdoc|]. by destruct Hatt as [->|[-> _]].
Qed.

(** The cleanup is final whenever it runs: after any events of the gap
    between the two steps of the unmount, no event after the cleanup changes
    the state again. *)
Theorem cleanup_final w gap w1 events w' :
  page_ok w → in_document w = true →
  run (Unmount :: gap ++ [Cleanup]) w = Some w1 → run events w1 = Some w' →
  w' = set_logoLoadedRef (logoLoadedRef w') w1 ∧
  timers w' = ∅ ∧ listeners w' = 0%nat ∧ canvasRef w' = None.
Proof.
  intros Hw Hdoc Hgap. apply removed_final.
  - by apply (run_ok (Unmount :: gap ++ [Cleanup]) w).
  - apply (run_snoc (Unmount :: gap)) in Hgap as (w0 & c & Hw0 & Hlast & <-).
    apply (run_ok _ _ _ Hw) in Hw0.
    apply handle_view in Hlast. inversion Hlast; subst. by apply cleanup_removed.
Qed.

(** C22. The unmount is final: from a state of a page in the document that
    satisfies the page invariant, once React has removed the component (the
    elements detached and the cleanup run) no key, no timer and no click
    changes the state again; the one thing that can still happen is a load
    of the logo, which sets [logoLoadedRef] and paints nothing. *)
Theorem unmount_final w events w' :
  page_ok w → in_document w = true → run events (unmount w) = Some w' →
  w' = set_logoLoadedRef (logoLoadedRef w') (unmount w) ∧
  timers w' = ∅ ∧ listeners w' = 0%nat ∧ canvasRef w' = None.
Proof.
  intros Hw Hdoc. apply removed_final; [by apply unmount_ok|].
  rewrite unmount_eq. apply cleanup_removed; [by apply detach_ok|done].
Qed.

End lifecycle.

(** ** Runs *)

#[local] Existing Instance demo_source.

Lemma effect_cleanup_roundtrip_witness :
  timers (cleanup (effect page0)) = timers page0 ∧
  listeners (cleanup (effect page0)) = listeners page0 ∧
  runningRef (cleanup (effect page0)) = false.
Proof. apply (effect_cleanup_roundtrip page0). apply mount_typed. Defined.

Lemma resetGame_leaks_timer_witness :
  ticking (resetGame page0) ∧ size (timers (resetGame page0)) = 2%nat ∧
  ¬ scheduled (resetGame page0).
Proof.
  apply (resetGame_leaks_timer page0 page0_ok); [apply mount_typed|done|].
  eexists 1%nat, _. by vm_compute.
Defined.

(** The timer ids of a page mounted under StrictMode. *)
Example strict_mount_timers :
  timers (strict_mount 0 0 []) = {[2%nat := {| callback := TickCallback; delay := 120 |}]} ∧
  foodRef (strict_mount 0 0 []) = Some (Cell.mk 11 10) ∧ rng (strict_mount 0 0 []) = 2%nat.
Proof. by vm_compute. Qed.

(** Between the two steps of the unmount the timer and the key listener
    still run: the snake eats, turns and moves, and nothing is painted.  The
    buttons are gone, and the cleanup does not run before the elements have
    left the document. *)
Example unmount_gap :
  (λ w, (snakeRef w, dirRef w, scoreRef w, canvasRef w, size (timers w), listeners w))
    <$> run [Unmount; TimerFires 1; KeyDown "ArrowUp"; TimerFires 1] page0
  = Some ([Cell.mk 11 9; Cell.mk 11 10], Cell.mk 0 (-1), 1, None, 1%nat, 1%nat) ∧
  run [Unmount; ClickPause] page0 = None ∧ run [Cleanup] page0 = None.
Proof. by vm_compute. Qed.

(** The cleanup after such a gap: the timer and the listener are gone, the
    key pressed afterwards changes nothing, and the timer cannot fire. *)
Example cleanup_after_gap :
  (λ w, (snakeRef w, dirRef w, runningRef w, size (timers w), listeners w))
    <$> run [Unmount; TimerFires 1; KeyDown "ArrowUp"; TimerFires 1; Cleanup;
             KeyDown "ArrowLeft"] page0
  = Some ([Cell.mk 11 9; Cell.mk 11 10], Cell.mk 0 (-1), false, 0%nat, 0%nat) ∧
  run [Unmount; Cleanup; TimerFires 1] page0 = None.
Proof. by vm_compute. Qed.

Lemma unmount_final_witness :
  let w' := set_logoLoadedRef true (unmount page0) in
  w' = set_logoLoadedRef (logoLoadedRef w') (unmount page0) ∧
  timers w' = ∅ ∧ listeners w' = 0%nat ∧ canvasRef w' = None.
Proof.
  apply (unmount_final page0 [KeyDown "ArrowUp"; LogoLoads; KeyDown "ArrowLeft"]);
    [apply page0_ok|done|by vm_compute].
Defined.
