(* ===== verification/Liveness.v ===== *)
(** * Liveness: a game left alone ends, and a new game can be started

    [tick] (lines 63-99) moves the head one cell along [dirRef] on every
    call that does not end the game, and nothing but a key changes
    [dirRef].  So when no key is pressed the number of cells between the
    head and the wall it moves towards goes down by one per tick, and the
    game is over after 20 ticks at most.  The measure is [ticks_left]; the
    runs are those of [Controller.run] on the event of the tick timer,
    repeated.

    The second theorem is about the buttons (lines 183-187 and 194-206):
    from every state of a page in the document, two clicks at most lead to
    a new running game. *)

From S2P Require Import Prelude Grid Random Food Input Canvas World Engine Controller.

(** ** The measure *)

(** The number of steps a head at [head] can take along the unit direction
    [dir] and stay on the board. *)
Definition room (head dir : Cell.t) : Z :=
  if bool_decide (0 < Cell.x dir) then tileCount - 1 - Cell.x head
  else if bool_decide (Cell.x dir < 0) then Cell.x head
  else if bool_decide (0 < Cell.y dir) then tileCount - 1 - Cell.y head
  else Cell.y head.

(** [snake[0]] of line 68. *)
Definition head_of (w : World) : Cell.t := default start (head (snakeRef w)).

(** The ticks the snake of [w] can take before it is at the wall. *)
Definition ticks_left (w : World) : nat := Z.to_nat (room (head_of w) (dirRef w)).

(** The events of a game left alone for [n] intervals: the timer [id]
    elapses [n] times. *)
Definition idle (n id : nat) : list Event := replicate n (TimerFires id).

(** A field of the state after the eat or the move branch of [tick]. *)
Ltac tick_frame := unfold ate, moved; world_simpl; done.

(** ** The measure and the wall test *)

Lemma room_range head dir :
  is_direction dir → in_grid head → 0 ≤ room head dir ≤ tileCount - 1.
Proof.
  intros Hd%is_direction_inv Hh. unfold in_grid, tileCount in *.
  destruct Hd as [-> | [-> | [-> | ->]]]; unfold room, tileCount; simpl; lia.
Qed.

(** The next head is on the board exactly when there is room. *)
Lemma room_step head dir :
  is_direction dir → in_grid head → in_grid (Cell.add head dir) ↔ 0 < room head dir.
Proof.
  intros Hd%is_direction_inv Hh. unfold in_grid, tileCount in *.
  destruct Hd as [-> | [-> | [-> | ->]]]; unfold room, tileCount; simpl; lia.
Qed.

Lemma room_add head dir :
  is_direction dir → room (Cell.add head dir) dir = room head dir - 1.
Proof.
  intros Hd%is_direction_inv.
  destruct Hd as [-> | [-> | [-> | ->]]]; unfold room, tileCount; simpl; lia.
Qed.

Section liveness.
Context `{RandomSource}.
Implicit Types (w : World) (id : nat).

Lemma ticks_left_bound w : page_ok w → (ticks_left w < Z.to_nat tileCount)%nat.
Proof.
  intros ((Hne & _ & Hgrid & Hdir & _) & _). unfold ticks_left, head_of.
  destruct (snakeRef w) as [|first rest]; [done|]. apply Forall_cons in Hgrid as [Hfirst _].
  pose proof (room_range first (dirRef w) Hdir Hfirst). simpl. unfold tileCount in *. lia.
Qed.

(** A step of the snake to a cell of the board uses up one unit of room. *)
Lemma ticks_left_step w w' first rest rest' :
  page_ok w → snakeRef w = first :: rest → in_grid (Cell.add first (dirRef w)) →
  snakeRef w' = Cell.add first (dirRef w) :: rest' → dirRef w' = dirRef w →
  (ticks_left w' < ticks_left w)%nat.
Proof.
  intros ((_ & _ & Hgrid & Hdir & _) & _) Hs Hnext Hs' Hd'.
  unfold ticks_left, head_of. rewrite Hs', Hd', Hs in *. simpl.
  apply Forall_cons in Hgrid as [Hfirst _].
  apply room_step in Hnext; [|done..]. rewrite room_add by done. lia.
Qed.

(** One tick of a running game: the game is over and the alert shown, or
    it goes on with the same timers and less room. *)
Lemma tick_progress w :
  page_ok w → runningRef w = true →
  runningRef (final (tick w)) = false ∧ timers (final (tick w)) = ∅ ∧
    alerts (final (tick w)) = alerts w ++ [game_over_message (scoreRef (final (tick w)))] ∨
  runningRef (final (tick w)) = true ∧ timers (final (tick w)) = timers w ∧
    (ticks_left (final (tick w)) < ticks_left w)%nat.
Proof.
  intros Hw Hrun. pose proof Hw as (Hplay & Hsched & _).
  destruct (tick_view w) as [?|? ?|first rest _ Hs Hhit|first rest _ Hs Hgrid Hfree Hnone
    |first rest _ Hs Hgrid Hfree Hf|first rest food _ Hs Hgrid Hfree Hf Hne];
    [congruence|by destruct Hplay| |by destruct Hplay as (_ & _ & _ & _ & Hfood & _);
       unfold food_in_grid in Hfood; rewrite Hnone in Hfood|..]; cbn [final] in *.
  - left. split_and!; [by rewrite gameOver_eq| |by rewrite gameOver_eq].
    apply scheduled_stopped; [by apply gameOver_ok|by rewrite gameOver_eq].
  - right. split_and!; [tick_frame..|].
    eapply (ticks_left_step w _ first rest); [done..|tick_frame|tick_frame].
  - right. split_and!; [tick_frame..|].
    eapply (ticks_left_step w _ first rest (removelast (snakeRef w))); [done..| |].
    + unfold moved. world_simpl. by rewrite removelast_cons, Hs by by rewrite Hs.
    + unfold moved. by world_simpl.
Qed.

(** The game is over within [n] ticks when the room is less than [n]. *)
Lemma idle_ends n : ∀ w id timer,
  page_ok w → runningRef w = true →
  timers w !! id = Some timer → callback timer = TickCallback →
  (ticks_left w < n)%nat →
  ∃ k w', (0 < k ≤ n)%nat ∧ run (idle k id) w = Some w' ∧ runningRef w' = false ∧
          timers w' = ∅ ∧ last (alerts w') = Some (game_over_message (scoreRef w')).
Proof.
  induction n as [|n IH]; intros w id timer Hw Hrun Hid Hcb Hroom; [lia|].
  pose proof (handle_tick_timer w id timer Hid Hcb) as Hstep.
  destruct (tick_progress w Hw Hrun) as [(Hstop & Ht & Ha)|(Hrun' & Ht & Hless)].
  - exists 1%nat, (final (tick w)). unfold idle. simpl replicate.
    rewrite (run_cons_some _ _ _ _ Hstep).
    split_and!; [lia..|done|done|done|by rewrite Ha, last_snoc].
  - destruct (IH (final (tick w)) id timer) as (k & w' & Hk & Hrunk & Hstop);
      [apply (tick_ok w Hw)|done|by rewrite Ht|done|lia|].
    exists (S k), w'. split; [lia|]. split; [|done].
    unfold idle. simpl replicate. by rewrite (run_cons_some _ _ _ _ Hstep).
Qed.

(** C13. A game left alone ends: from every state of a running game that
    satisfies the page invariant, with no key pressed and no button
    clicked, the tick timer fires at most 20 times before the game is over,
    the timer is cancelled and the alert with the final score shown. *)
Theorem game_ends w :
  page_ok w → runningRef w = true → ticking w →
  ∃ id k w', (0 < k ≤ Z.to_nat tileCount)%nat ∧ run (idle k id) w = Some w' ∧
    runningRef w' = false ∧ timers w' = ∅ ∧
    last (alerts w') = Some (game_over_message (scoreRef w')).
Proof.
  intros Hw Hrun (id & timer & Hid & Hcb). exists id.
  by eapply idle_ends, ticks_left_bound.
Qed.

(** C25. A new game can always be started: from every state of a page in the
    document that satisfies the invariant, at most two clicks (Pause if the
    game runs, then Restart) lead to a page load, which is a running game
    with the snake on the centre cell, score 0 and the tick timer
    scheduled. *)
Theorem restart_possible w :
  page_ok w → in_document w = true →
  ∃ events w', (length events ≤ 2)%nat ∧ run events w = Some w' ∧
    reloads w' = S (reloads w) ∧ runningRef w' = true ∧ ticking w' ∧
    snakeRef w' = [start] ∧ scoreRef w' = 0.
Proof.
  intros Hw Hdoc.
  assert (∀ w0, reloads w0 = reloads w →
            reloads (reload w0) = S (reloads w) ∧ runningRef (reload w0) = true ∧
            ticking (reload w0) ∧ snakeRef (reload w0) = [start] ∧ scoreRef (reload w0) = 0)
    as Hnew.
  { intros w0 Hre. rewrite reload_reloads, Hre. unfold reload.
    destruct (mount_game (rng w0) (S (reloads w0)) (alerts w0))
      as (-> & _ & -> & _ & _ & -> & Ht).
    split_and!; try done. eexists 1%nat, _. by rewrite Ht, lookup_singleton_eq. }
  destruct (runningRef w) eqn:Hrun.
  - exists [ClickPause; ClickRestart], (reload (pause_click w)).
    split; [simpl; lia|]. split; [|apply Hnew; by rewrite pause_click_running].
    simpl. rewrite Hdoc. simpl. rewrite pause_click_running by done.
    unfold in_document in *. simpl. rewrite Hdoc. by unfold restart_click.
  - exists [ClickRestart], (reload w). split; [simpl; lia|]. split; [|by apply Hnew].
    simpl. rewrite Hdoc. simpl. unfold restart_click. by rewrite Hrun.
Qed.

End liveness.

(** ** Runs *)

#[local] Existing Instance demo_source.

(** The game of [Controller.page0] left alone: the snake eats at (11, 10),
    walks to the wall and the tenth tick ends the game with score 1. *)
Example idle_game :
  (λ w, (runningRef w, snakeRef w, alerts w)) <$> run (idle 10 1) page0
  = Some (false, [Cell.mk 19 10; Cell.mk 18 10], ["Game Over! Final Score: 1"]).
Proof. by vm_compute. Qed.

Lemma game_ends_witness :
  ∃ id k w', (0 < k ≤ Z.to_nat tileCount)%nat ∧ run (idle k id) page0 = Some w' ∧
    runningRef w' = false ∧ timers w' = ∅ ∧
    last (alerts w') = Some (game_over_message (scoreRef w')).
Proof.
  apply (game_ends page0 page0_ok); [done|]. eexists 1%nat, _. by vm_compute.
Defined.

Lemma restart_possible_witness :
  ∃ events w', (length events ≤ 2)%nat ∧ run events stopped_page = Some w' ∧
    reloads w' = S (reloads stopped_page) ∧ runningRef w' = true ∧ ticking w' ∧
    snakeRef w' = [start] ∧ scoreRef w' = 0.
Proof. apply (restart_possible stopped_page stopped_page_ok). by vm_compute. Defined.
