(* ===== verification/Fairness.v ===== *)
(** * Fairness: the food under a source that covers the board

    [spawnFood] (lines 26-37) gives up after 500 samples, so what it
    returns depends on the numbers [Math.random()] happens to return:
    against an arbitrary source the food can land on the snake
    ([Food.spawnFood_may_overlap]).  This file states what a source has to
    do for the placement to be right, as the interface [Covering]: every
    cell of the board is among the 500 cells a call samples, wherever in the
    sequence the call starts.  Against the interface, [spawnFood] returns a
    free cell whenever the board has one, and the food is off the snake in
    every state a page can reach, until the snake fills the board.  The
    source [Random.sweep] implements the interface.

    A snake that fills the board leaves no cell for the food and none for
    the head: the next tick ends the game ([full_board_tick]). *)

From S2P Require Import Prelude Grid Random Food Input Canvas World Engine Controller.

(** ** The interface *)

(** Every cell of the board is among the first 500 samples of every call
    of [spawnFood]. *)
Class Covering (R : RandomSource) : Prop :=
  covering : ∀ rng c, in_grid c → ∃ k, (k < 500)%nat ∧ sample rng k = c.

(** The snake leaves a cell of the board free. *)
Definition roomy (snake : list Cell.t) : Prop :=
  Z.of_nat (length snake) < tileCount * tileCount.

(** The food is off the snake, as long as the snake leaves a cell free. *)
Definition food_safe (w : World) : Prop := roomy (snakeRef w) → food_off_snake w.

#[export] Instance roomy_dec snake : Decision (roomy snake).
Proof. unfold roomy. apply _. Defined.

#[export] Instance food_safe_dec w : Decision (food_safe w).
Proof. unfold food_safe. apply _. Defined.

(** ** The sweeping source *)

Lemma half_even (j : Z) : (0 + 2 * j) `div` 2 = j.
Proof. Z.div_mod_to_equations. lia. Qed.

Lemma half_odd (j : Z) : (1 + 2 * j) `div` 2 = j.
Proof. Z.div_mod_to_equations. lia. Qed.

(** The cell the sweeping source draws at an even and at an odd call. *)
Lemma sweep_sample_even m k :
  @sample sweep (2 * m) k
  = Cell.mk (Z.of_nat (m + k) `mod` tileCount)
            ((Z.of_nat (m + k) / tileCount) `mod` tileCount).
Proof.
  unfold sample, random_cell, sweep. rewrite !selected_coordinate. unfold sweep_coordinate.
  replace (Z.of_nat (S (2 * m + 2 * k))) with (1 + 2 * Z.of_nat (m + k)) by lia.
  replace (Z.of_nat (2 * m + 2 * k)) with (0 + 2 * Z.of_nat (m + k)) by lia.
  rewrite !Z.even_add_mul_2, half_even, half_odd. simpl Z.even. cbv iota.
  by rewrite Z.mod_mod.
Qed.

Lemma sweep_sample_odd m k :
  @sample sweep (S (2 * m)) k
  = Cell.mk ((Z.of_nat (m + k) / tileCount) `mod` tileCount)
            (Z.of_nat (S (m + k)) `mod` tileCount).
Proof.
  unfold sample, random_cell, sweep. rewrite !selected_coordinate. unfold sweep_coordinate.
  replace (Z.of_nat (S (S (2 * m) + 2 * k))) with (0 + 2 * Z.of_nat (S (m + k))) by lia.
  replace (Z.of_nat (S (2 * m) + 2 * k)) with (1 + 2 * Z.of_nat (m + k)) by lia.
  rewrite !Z.even_add_mul_2, half_even, half_odd. simpl Z.even. cbv iota.
  by rewrite Z.mod_mod.
Qed.

(** Every residue modulo 400 is met within 400 steps from any start. *)
Lemma residue_reached (m : nat) (t : Z) :
  0 ≤ t < 400 → ∃ k, (k < 400)%nat ∧ Z.of_nat (m + k) `mod` 400 = t.
Proof.
  intros Ht. pose proof (Z.mod_pos_bound (t - Z.of_nat m) 400 eq_refl).
  exists (Z.to_nat ((t - Z.of_nat m) `mod` 400)). split; [lia|].
  rewrite Nat2Z.inj_add, Z2Nat.id, Zplus_mod_idemp_r by lia.
  replace (Z.of_nat m + (t - Z.of_nat m)) with t by lia. by apply Z.mod_small.
Qed.

(** The two coordinates of a cell number. *)
Lemma residue_split (j a b : Z) :
  0 ≤ a < 20 → 0 ≤ b < 20 → j `mod` 400 = 20 * b + a →
  j `mod` 20 = a ∧ (j `div` 20) `mod` 20 = b.
Proof. intros Ha Hb. Z.div_mod_to_equations. lia. Qed.

Lemma sweep_covering : Covering sweep.
Proof.
  intros rng [x y] [Hx Hy]. unfold tileCount in *. simpl in *.
  destruct (Nat.Even_or_Odd rng) as [[m ->]|[m ->]].
  - destruct (residue_reached m (20 * y + x)) as (k & Hk & Hres); [lia|].
    exists k. split; [lia|]. rewrite sweep_sample_even. unfold tileCount.
    by destruct (residue_split _ x y Hx Hy Hres) as [-> ->].
  - pose proof (Z.mod_pos_bound (y - 1) 20 eq_refl) as Hy'.
    destruct (residue_reached m (20 * x + (y - 1) `mod` 20)) as (k & Hk & Hres); [lia|].
    exists k. split; [lia|]. replace (2 * m + 1)%nat with (S (2 * m)) by lia.
    rewrite sweep_sample_odd. unfold tileCount.
    destruct (residue_split _ _ x Hy' Hx Hres) as [Hlow ->]. f_equal.
    rewrite Nat2Z.inj_succ. revert Hlow. generalize (Z.of_nat (m + k)). intros j.
    Z.div_mod_to_equations. lia.
Qed.

#[export] Existing Instance sweep_covering.

(** ** What the interface gives [spawnFood] and the game *)

Section covering.
Context {R : RandomSource} {fair : Covering R}.
Implicit Types (w : World) (snake : list Cell.t).

(** Against a covering source [spawnFood] returns a free cell whenever the
    board has one. *)
Theorem spawnFood_covering snake rng :
  (∃ c, in_grid c ∧ c ∉ snake) → (spawnFood snake rng).1 ∉ snake.
Proof.
  intros (c & Hc & Hfree). destruct (covering rng c Hc) as (k & Hk & Hsample).
  apply (spawnFood_off snake rng k); [done|by rewrite Hsample].
Qed.

Lemma spawnFood_roomy snake rng : roomy snake → (spawnFood snake rng).1 ∉ snake.
Proof. intros Hlen. by apply spawnFood_covering, free_cell. Qed.

Lemma mount_food_safe rng n alerts : food_safe (mount rng n alerts).
Proof.
  destruct (mount_game rng n alerts) as (Hsnake & _ & _ & _ & Hfood & _).
  revert Hsnake Hfood. unfold food_safe, food_off_snake.
  generalize (mount rng n alerts). intros w -> -> Hlen. by apply spawnFood_roomy.
Qed.

(** [tick] keeps the food off the snake: the food is placed again by
    [spawnFood] when the snake eats, and a snake that moves without eating
    does not put its head on the food. *)
Lemma tick_food_safe w : food_safe w → food_safe (final (tick w)).
Proof.
  unfold food_safe, food_off_snake, roomy.
  destruct (tick_view w) as [| | |f r _ _ _ _ Hnone| |f r food _ Hsnake _ _ Hfood Hnew];
    unfold ate, moved; world_simpl; try done.
  - by rewrite Hnone.
  - intros _ Hlen. by apply spawnFood_roomy.
  - rewrite Hfood, length_removelast. simpl. intros Hsafe Hlen.
    intros [->|?]%elem_of_removelast%elem_of_cons; [done|]. by apply Hsafe.
Qed.

Lemma handle_food_safe e w c : food_safe w → handle e w = Some c → food_safe (final c).
Proof.
  intros Hsafe He. destruct (handle_reload_cases e w c He) as [->|Hre].
  { unfold final, reload. apply mount_food_safe. }
  destruct (handle_game e w c He Hre) as [(_ & _ & _ & _ & _ & ->)|Hgame];
    [by apply tick_food_safe|].
  unfold game in Hgame. injection Hgame as Hsnake Hfood _ _.
  unfold food_safe, food_off_snake in *. by rewrite Hsnake, Hfood.
Qed.

(** C16. Against a source that covers the board, the food is never on the
    snake: in every state a page can reach by key presses, ticks, clicks,
    the load of the logo and the two steps of the unmount, the stored food is a cell that no
    segment of the snake is on, as long as the snake leaves a cell of the
    board free. *)
Theorem food_never_on_snake w : reachable w → food_safe w.
Proof. induction 1; [apply mount_food_safe|by eapply handle_food_safe]. Qed.

End covering.

(** ** The full board *)

Section full.
Context `{RandomSource}.
Implicit Types (w : World).

(** A snake that fills the board has nowhere to go: the next tick of a
    running game is [gameOver]. *)
Theorem full_board_tick w :
  playable w → runningRef w = true → ¬ roomy (snakeRef w) →
  tick w = Normal (gameOver w).
Proof.
  intros Hplay Hrun Hfull. pose proof Hplay as (Hne & Hdup & Hgrid & _).
  pose proof (NoDup_in_grid_length _ Hdup Hgrid). unfold roomy in Hfull.
  destruct (tick_playable_cases w Hplay) as [[_ ?]|(_ & [?|(head & Hhead & Hfree & _)])];
    [congruence|done|].
  destruct Hfree. apply full_board; [done..|lia|done].
Qed.

End full.

(** ** Runs *)

(** The first cells the sweeping source draws from call 0 and from call 1. *)
Example sweep_samples :
  @sample sweep 0 <$> [0; 1; 20; 399]%nat
    = [Cell.mk 0 0; Cell.mk 1 0; Cell.mk 0 1; Cell.mk 19 19] ∧
  @sample sweep 1 <$> [0; 1; 19; 399]%nat
    = [Cell.mk 0 1; Cell.mk 0 2; Cell.mk 0 0; Cell.mk 19 0].
Proof. by vm_compute. Qed.

Lemma spawnFood_covering_witness : (@spawnFood sweep [start] 0).1 ∉ [start].
Proof.
  apply (spawnFood_covering (R:=sweep)). exists (Cell.mk 0 0). split; compute_done.
Defined.

Lemma food_never_on_snake_witness :
  food_safe (keydown "ArrowUp" (final (@tick sweep (@mount sweep 0 0 [])))).
Proof. apply (food_never_on_snake (R:=sweep)), reachable_key, reachable_first_tick. Defined.
