(* ===== verification/Timed.v ===== *)
(** * Timed: the page on a clock

    The program asks for one thing of time: [setInterval(callback, 120)]
    (lines 135, 163 and 201).  The browser runs the callback of an interval
    timer no earlier than one delay after the call, and then again and
    again, each time no earlier than one delay after the time the run
    before was due.  A [Clocked] page is a state of [Controller] with the
    time and, for every active timer, the time from which it may run next;
    [occurs] is one turn of the event loop at a given time.

    The model bounds the browser from below: a browser that is late, or
    that measures the next delay from the time the callback ran, makes runs
    of [occurs].  What is proved of all runs ([score_pace]: at most one
    point per 120 ms) holds for all of them.  The browser that is never
    late is [wait]: the timer that is due first runs at its due time.  What
    is proved of [wait] is what the player of a game left alone sees
    ([idle_game_time], [resume_reload_time]). *)

From S2P Require Import Prelude Grid Random Food Input Canvas World Engine Controller.
From S2P Require Import Typing Liveness.

(** ** The clock and the due times *)

Record Clocked : Type := {
  page : World;
  clock : Z;                (** the time of the last event, in ms *)
  due : gmap nat Z          (** the time from which each active timer may run *)
}.

Section timed.
Context `{RandomSource}.
Implicit Types (w : World) (c : Clocked) (e : Event) (t d : Z) (id : nat).

(** The timer that elapses is due again one delay after it was due. *)
Definition rearm e w (old : gmap nat Z) : gmap nat Z :=
  match e with
  | TimerFires id =>
      match old !! id, timers w !! id with
      | Some d, Some timer => <[id := d + delay timer]> old
      | _, _ => old
      end
  | _ => old
  end.

(** The due times after a handler that ran at time [t] and took the page
    from [w] to [w']: a timer the handler started is due one delay after
    [t], a timer it cancelled is forgotten, the others keep their due time.
    A reload leaves nothing of the timers of the page before. *)
Definition reschedule t w w' (old : gmap nat Z) : gmap nat Z :=
  let old := if bool_decide (reloads w' = reloads w) then old else ∅ in
  map_imap (λ id timer, Some (default (t + delay timer) (old !! id))) (timers w').

(** The event [e] can occur at time [t]: time does not go back, and a timer
    does not elapse before it is due. *)
Definition ready t e c : bool :=
  bool_decide (clock c ≤ t) &&
  match e with
  | TimerFires id => from_option (λ d, bool_decide (d ≤ t)) false (due c !! id)
  | _ => true
  end.

(** One turn of the event loop at time [t]. *)
Definition occurs t e c : option Clocked :=
  if ready t e c then
    k ← handle e (page c);
    Some {| page := final k; clock := t;
            due := reschedule t (page c) (final k) (rearm e (page c) (due c)) |}
  else None.

(** A run of events with their times. *)
Fixpoint run_at (events : list (Z * Event)) c : option Clocked :=
  match events with
  | [] => Some c
  | (t, e) :: events => c' ← occurs t e c; run_at events c'
  end.

(** A page load at time [t]. *)
Definition load_at t (rng : nat) : Clocked :=
  let w := mount rng 0 [] in
  {| page := w; clock := t; due := reschedule t w w ∅ |}.

(** ** The browser that is never late *)

(** [a] is before [b]: it is due earlier, or at the same time with the
    smaller id. *)
Definition before (a b : nat * Z) : bool :=
  bool_decide (a.2 < b.2) || bool_decide (a.2 = b.2) && bool_decide (a.1 < b.1)%nat.

(** The timer that runs next. *)
Definition next_due c : option (nat * Z) :=
  foldr (λ a best, match best with
                   | Some b => if before b a then Some b else Some a
                   | None => Some a
                   end) None (map_to_list (due c)).

(** The next timer runs at its due time. *)
Definition wait c : option Clocked :=
  a ← next_due c; occurs (a.2 `max` clock c) (TimerFires a.1) c.

Fixpoint waits (n : nat) c : option Clocked :=
  match n with
  | O => Some c
  | S n => c' ← wait c; waits n c'
  end.

(** ** The invariant *)

(** The score keeps pace with the clock: since the time [t0] one point at
    most was scored per 120 ms, and the tick callback is not due before the
    next 120 ms are over. *)
Definition paced (t0 : Z) c : Prop :=
  page_ok (page c) ∧ typed (page c) ∧
  120 * scoreRef (page c) ≤ clock c - t0 ∧
  ∀ id timer d, timers (page c) !! id = Some timer → callback timer = TickCallback →
                due c !! id = Some d → 120 * (scoreRef (page c) + 1) ≤ d - t0.

(** The game runs on the timer [id], which is due at [d]. *)
Definition ticking_at (id : nat) (d : Z) c : Prop :=
  page_ok (page c) ∧ typed (page c) ∧
  callback <$> timers (page c) !! id = Some TickCallback ∧
  due c = {[id := d]} ∧ clock c ≤ d.

#[export] Instance ticking_at_dec id d c : Decision (ticking_at id d c).
Proof. unfold ticking_at. apply _. Defined.

End timed.

#[global] Arguments rearm : simpl never.

(** The page of [Controller.page0] loaded at time 0, and the state after
    its first tick, at 120 ms: the snake has eaten and the next tick is due
    at 240 ms. *)
Definition loaded : Clocked := @load_at demo_source 0 0.

Definition first_tick : Clocked :=
  {| page := fed_page; clock := 120; due := {[1%nat := 240]} |}.

Section timed_facts.
Context `{RandomSource}.
Implicit Types (w : World) (c : Clocked) (e : Event) (t d : Z) (id : nat).

(** ** Runs on the clock are runs of the event loop *)

Lemma occurs_inv t e c c' :
  occurs t e c = Some c' →
  ∃ k, ready t e c = true ∧ handle e (page c) = Some k ∧
       c' = {| page := final k; clock := t;
               due := reschedule t (page c) (final k) (rearm e (page c) (due c)) |}.
Proof.
  unfold occurs. destruct (ready t e c); [|done].
  destruct (handle e (page c)) as [k|]; [|done]. intros [= <-]. by exists k.
Qed.

Lemma run_at_run events : ∀ c c',
  run_at events c = Some c' → run events.*2 (page c) = Some (page c').
Proof.
  induction events as [|[t e] events IH]; intros c c'; simpl; [by intros [= ->]|].
  destruct (occurs t e c) as [c1|] eqn:Hocc; [|done]. simpl. intros Hrun.
  apply occurs_inv in Hocc as (k & _ & -> & ->). apply (IH _ _ Hrun).
Qed.

(** Time does not go back. *)
Lemma occurs_clock t e c c' : occurs t e c = Some c' → clock c ≤ t ∧ clock c' = t.
Proof.
  intros (k & Hready & _ & ->)%occurs_inv. unfold ready in Hready.
  apply andb_true_iff in Hready as [Hclock%bool_decide_eq_true _]. done.
Qed.

(** ** The due times *)

Lemma lookup_reschedule t w w' old id :
  reschedule t w w' old !! id
  = timer ← timers w' !! id;
    Some (default (t + delay timer)
            ((if bool_decide (reloads w' = reloads w) then old else ∅) !! id)).
Proof. unfold reschedule. by rewrite map_lookup_imap. Qed.

(** A due time after [rearm] is not before the due time it replaces. *)
Lemma rearm_later e w old id d :
  typed w → rearm e w old !! id = Some d → ∃ d0, old !! id = Some d0 ∧ d0 ≤ d.
Proof.
  intros (_ & _ & _ & _ & _ & _ & Ht & _). destruct e as [|id0| | | | |]; unfold rearm; eauto with lia.
  destruct (old !! id0) as [d0|] eqn:Hold; [|eauto with lia].
  destruct (timers w !! id0) as [timer|] eqn:Hid; [|eauto with lia].
  destruct (map_Forall_lookup_1 _ _ _ _ Ht Hid) as [_ Hdelay].
  destruct (decide (id = id0)) as [->|Hne].
  - rewrite lookup_insert_eq. intros [= <-]. exists d0. split; [done|lia].
  - rewrite lookup_insert_ne by done. eauto with lia.
Qed.

(** The due time of the timer that elapsed. *)
Lemma rearm_fired w old id timer d :
  old !! id = Some d → timers w !! id = Some timer →
  rearm (TimerFires id) w old !! id = Some (d + delay timer).
Proof. intros Hold Hid. unfold rearm. by rewrite Hold, Hid, lookup_insert_eq. Qed.

(** ** One point per 120 ms *)

(** An active timer of a page that satisfies the invariant is its one
    timer, and the game runs. *)
Lemma scheduled_one w id timer :
  scheduled w → timers w !! id = Some timer →
  runningRef w = true ∧ timers w = {[id := timer]}.
Proof.
  intros Hsched Hid. destruct (runningRef w) eqn:Hrun.
  - destruct (scheduled_running w Hsched Hrun) as (id' & timer' & _ & Ht & _).
    rewrite Ht in Hid. by apply lookup_singleton_Some in Hid as [-> ->].
  - by rewrite (scheduled_stopped w Hsched Hrun) in Hid.
Qed.

Lemma typed_delay w id timer : typed w → timers w !! id = Some timer → delay timer = 120.
Proof.
  intros (_ & _ & _ & _ & _ & _ & Ht & _) Hid.
  by destruct (map_Forall_lookup_1 _ _ _ _ Ht Hid).
Qed.

(** The state after a page load at time [t]. *)
Lemma paced_mount t0 t rng n alerts old w0 :
  t0 ≤ t → (reloads w0 = n → old = ∅) →
  paced t0 {| page := mount rng n alerts; clock := t;
              due := reschedule t w0 (mount rng n alerts) old |}.
Proof.
  intros Ht Hre. unfold paced. cbn [page clock due].
  pose proof (mount_ok rng n alerts) as Hok. pose proof (mount_typed rng n alerts) as Hty.
  destruct (mount_game rng n alerts) as (_ & _ & Hscore & _).
  assert (reloads (mount rng n alerts) = n) as Hn
    by (unfold mount, effect; by rewrite start_interval_eq).
  revert Hok Hty Hscore Hn. generalize (mount rng n alerts). intros w Hok Hty Hscore Hn.
  split_and!; [done|done|lia|]. intros id timer d Hid _.
  rewrite lookup_reschedule, Hid. simpl. rewrite (typed_delay w id timer) by done.
  case_bool_decide; [rewrite Hre by congruence|]; rewrite lookup_empty; simpl;
    intros [= <-]; lia.
Qed.

(** The state after a handler that left the game as it is. *)
Lemma paced_same t0 t e c k :
  paced t0 c → clock c ≤ t → handle e (page c) = Some k →
  reloads (final k) = reloads (page c) → game (final k) = game (page c) →
  paced t0 {| page := final k; clock := t;
              due := reschedule t (page c) (final k) (rearm e (page c) (due c)) |}.
Proof.
  intros (Hok & Hty & Hscore & Hdue) Ht He Hre Hgame. unfold paced. cbn [page clock due].
  unfold game in Hgame. injection Hgame as _ _ Hs _.
  split_and!; [by eapply handle_ok|by eapply handle_typed|lia|].
  intros id timer d Hid Hcb.
  rewrite lookup_reschedule, Hid, bool_decide_eq_true_2 by done. simpl.
  rewrite (typed_delay _ id timer (handle_typed e _ k Hty He) Hid).
  destruct (rearm e (page c) (due c) !! id) as [d1|] eqn:Hd1; simpl; intros [= <-]; [|lia].
  destruct (rearm_later _ _ _ _ _ Hty Hd1) as (d0 & Hd0 & Hle).
  pose proof (handle_ticking_old e _ k id timer Hok He Hre Hid Hcb) as Hold.
  specialize (Hdue id timer d0 Hold Hcb Hd0). lia.
Qed.

(** The state after the tick callback. *)
Lemma paced_tick t0 t c id timer :
  paced t0 c → ready t (TimerFires id) c = true →
  timers (page c) !! id = Some timer → callback timer = TickCallback →
  paced t0 {| page := final (tick (page c)); clock := t;
              due := reschedule t (page c) (final (tick (page c)))
                       (rearm (TimerFires id) (page c) (due c)) |}.
Proof.
  intros (Hok & Hty & Hscore & Hdue) Hready Hid Hcb. unfold paced. cbn [page clock due].
  apply andb_true_iff in Hready as [Ht%bool_decide_eq_true Hd]. simpl in Hd.
  destruct (due c !! id) as [d|] eqn:Hdid; [|done]. apply bool_decide_eq_true in Hd.
  pose proof (Hdue id timer d Hid Hcb Hdid) as Hpace.
  pose proof (tick_score (page c)) as Hs.
  split_and!; [by apply tick_ok|by apply tick_typed|lia|].
  intros id' timer' d' Hid' _. rewrite lookup_reschedule, Hid', tick_reloads. simpl.
  rewrite bool_decide_eq_true_2 by done. apply tick_timers in Hid'.
  destruct (scheduled_one _ _ _ (proj1 (proj2 Hok)) Hid) as [_ Hone].
  rewrite Hone in Hid'. apply lookup_singleton_Some in Hid' as [<- <-].
  rewrite (rearm_fired _ _ _ _ _ Hdid Hid), (typed_delay _ _ _ Hty Hid). simpl.
  intros [= <-]. lia.
Qed.

Lemma paced_occurs t0 t e c c' : paced t0 c → occurs t e c = Some c' → paced t0 c'.
Proof.
  intros Hc (k & Hready & He & ->)%occurs_inv.
  pose proof Hc as (_ & (_ & _ & _ & Hpos & _) & Hscore & _).
  pose proof Hready as [Ht%bool_decide_eq_true _]%andb_true_iff.
  destruct (handle_cases e _ k He) as [->|[(id & timer & -> & Hid & Hcb & ->)|[Hgame Hre]]].
  - unfold final, reload. apply paced_mount; lia.
  - by eapply paced_tick.
  - by apply paced_same.
Qed.

Lemma paced_run t0 events : ∀ c c', paced t0 c → run_at events c = Some c' → paced t0 c'.
Proof.
  induction events as [|[t e] events IH]; intros c c' Hc; simpl; [by intros [= <-]|].
  destruct (occurs t e c) as [c1|] eqn:Hocc; [|done]. simpl.
  eauto using paced_occurs.
Qed.

(** C39. At most one point per 120 ms: in every run of events on the clock
    from a page load at time [t0], whatever the keys pressed and the
    buttons clicked and however late the browser runs the timers, the score
    times 120 ms is at most the time since [t0]. *)
Theorem score_pace t0 rng events c :
  run_at events (load_at t0 rng) = Some c → 120 * scoreRef (page c) ≤ clock c - t0.
Proof.
  intros Hrun. apply (paced_run t0 events (load_at t0 rng) c); [|done].
  unfold load_at. cbv zeta. generalize (mount rng 0 []) at 2. intros w0.
  by apply paced_mount.
Qed.

(** After an event the timers that have a due time are the active
    timers. *)
Lemma occurs_due t e c c' id :
  occurs t e c = Some c' → is_Some (due c' !! id) ↔ is_Some (timers (page c') !! id).
Proof.
  intros (k & _ & _ & ->)%occurs_inv. cbn [page due]. rewrite lookup_reschedule.
  destruct (timers (final k) !! id); simpl; [by split; eauto|].
  by split; intros [? ?].
Qed.

(** ** The browser that is never late *)

Lemma next_due_singleton c id d : due c = {[id := d]} → next_due c = Some (id, d).
Proof. unfold next_due. intros ->. by rewrite map_to_list_singleton. Qed.

Lemma reschedule_empty t w w' old : timers w' = ∅ → reschedule t w w' old = ∅.
Proof. unfold reschedule. intros ->. apply map_imap_empty. Qed.

Lemma reschedule_singleton t w w' old id timer :
  timers w' = {[id := timer]} →
  reschedule t w w' old
  = {[id := default (t + delay timer)
                    ((if bool_decide (reloads w' = reloads w) then old else ∅) !! id)]}.
Proof.
  intros Ht. apply map_eq. intros i. rewrite lookup_reschedule, Ht.
  destruct (decide (i = id)) as [->|Hne];
    by rewrite ?lookup_singleton_eq, ?lookup_singleton_ne by done.
Qed.

(** A page that has just been loaded runs on timer 1, due one delay after
    the load. *)
Lemma ticking_at_mount t rng n alerts old w0 :
  (reloads w0 = n → old = ∅) →
  ticking_at 1 (t + 120) {| page := mount rng n alerts; clock := t;
                            due := reschedule t w0 (mount rng n alerts) old |}.
Proof.
  intros Hre. unfold ticking_at. cbn [page clock due].
  pose proof (mount_ok rng n alerts) as Hok. pose proof (mount_typed rng n alerts) as Hty.
  destruct (mount_game rng n alerts) as (_ & _ & _ & _ & _ & _ & Ht).
  assert (reloads (mount rng n alerts) = n) as Hn
    by (unfold mount, effect; by rewrite start_interval_eq).
  revert Hok Hty Ht Hn. generalize (mount rng n alerts). intros w Hok Hty Ht Hn.
  split_and!; [done|done|by rewrite Ht, lookup_singleton_eq| |lia].
  rewrite (reschedule_singleton _ _ _ _ _ _ Ht). simpl.
  case_bool_decide; [rewrite Hre by congruence|]; by rewrite lookup_empty.
Qed.

(** The browser that is never late runs the tick callback at its due
    time. *)
Lemma wait_ticking id d c :
  ticking_at id d c →
  wait c = Some {| page := final (tick (page c)); clock := d;
                   due := reschedule d (page c) (final (tick (page c))) {[id := d + 120]} |}.
Proof.
  intros (Hok & Hty & Hcb & Hdue & Hclock). unfold wait.
  rewrite (next_due_singleton c id d Hdue). simpl. rewrite Z.max_l by lia.
  destruct (timers (page c) !! id) as [timer|] eqn:Hid; [|done]. injection Hcb as Hcb.
  unfold occurs, ready, rearm. rewrite Hdue, lookup_singleton_eq, Hid. simpl.
  rewrite !bool_decide_eq_true_2 by lia. simpl.
  rewrite Hid, insert_singleton_eq, (typed_delay _ _ _ Hty Hid). simpl. by rewrite Hcb.
Qed.

(** One tick on the clock: the game is over and nothing is due any more,
    or it goes on, with less room and the next tick due one delay later. *)
Lemma wait_progress id d c :
  ticking_at id d c →
  ∃ c', wait c = Some c' ∧ clock c' = d ∧
    (runningRef (page c') = false ∧ due c' = ∅ ∨
     ticking_at id (d + 120) c' ∧ (ticks_left (page c') < ticks_left (page c))%nat).
Proof.
  intros Hc. rewrite (wait_ticking id d c Hc). eexists. split; [done|]. split; [done|].
  destruct Hc as (Hok & Hty & Hcb & Hdue & Hclock). cbn [page due clock].
  destruct (timers (page c) !! id) as [timer|] eqn:Hid; [|done]. injection Hcb as Hcb.
  destruct (scheduled_one _ _ _ (proj1 (proj2 Hok)) Hid) as [Hrun Hone].
  destruct (tick_progress (page c) Hok Hrun) as [(Hstop & Ht & _)|(Hrun' & Ht & Hless)].
  { left. split; [done|]. by apply reschedule_empty. }
  right. split; [|done]. unfold ticking_at. cbn [page due clock].
  split_and!; [by apply tick_ok|by apply tick_typed|by rewrite Ht, Hid, <-Hcb| |lia].
  rewrite (reschedule_singleton _ _ _ _ id timer) by by rewrite Ht.
  by rewrite tick_reloads, bool_decide_eq_true_2, lookup_singleton_eq.
Qed.

Lemma waits_end n : ∀ id d c,
  ticking_at id d c → (ticks_left (page c) < n)%nat →
  ∃ k c', (0 < k ≤ n)%nat ∧ waits k c = Some c' ∧ runningRef (page c') = false ∧
          due c' = ∅ ∧ clock c' = d + 120 * (Z.of_nat k - 1).
Proof.
  induction n as [|n IH]; intros id d c Hc Hroom; [lia|].
  destruct (wait_progress id d c Hc) as (c1 & Hwait & Hclock & [[Hstop Hdue]|[Hc1 Hless]]).
  - exists 1%nat, c1. simpl. rewrite Hwait. split_and!; [lia..|done|done|done|lia].
  - destruct (IH id (d + 120) c1 Hc1) as (k & c' & Hk & Hw & Hstop & Hdue & Hclock');
      [lia|].
    exists (S k), c'. simpl. rewrite Hwait. split_and!; [lia..|done|done|done|lia].
Qed.

(** C26. A game left alone is over within 2.4 seconds: when the browser is
    never late and no key is pressed and no button clicked, a game whose
    next tick is due at time [d] ends with the tick of time [d + 120 (k - 1)]
    for some [k] from 1 to 20, and no timer is due after it. *)
Theorem idle_game_time id d c :
  ticking_at id d c →
  ∃ k c', (0 < k ≤ 20)%nat ∧ waits k c = Some c' ∧ runningRef (page c') = false ∧
          due c' = ∅ ∧ clock c' = d + 120 * (Z.of_nat k - 1).
Proof.
  intros Hc. apply (waits_end 20 id d c Hc). destruct Hc as (Hok & _).
  apply (ticks_left_bound _ Hok).
Qed.

(** A click on Resume at time [t] starts the timer that reloads the
    page. *)
Lemma occurs_resume t c :
  page_ok (page c) → in_document (page c) = true → runningRef (page c) = false →
  due c = ∅ → clock c ≤ t →
  occurs t ClickPause c
  = Some {| page := pause_click (page c); clock := t;
            due := {[timerSeq (page c) := t + 120]} |}.
Proof.
  intros Hok Hdoc Hstop Hdue Hclock. unfold occurs, ready, rearm.
  rewrite bool_decide_eq_true_2 by done. simpl. rewrite Hdoc, Hdue. simpl.
  do 3 f_equal. erewrite reschedule_singleton by by rewrite pause_click_stopped.
  by destruct (bool_decide _); rewrite lookup_empty.
Qed.

(** The browser that is never late runs the callback that reloads the page
    at its due time. *)
Lemma wait_reload id d c :
  timers (page c) !! id = Some {| callback := ReloadCallback; delay := 120 |} →
  due c = {[id := d]} → clock c ≤ d →
  wait c = Some {| page := reload (page c); clock := d;
                   due := reschedule d (page c) (reload (page c)) {[id := d + 120]} |}.
Proof.
  intros Hid Hdue Hclock. unfold wait.
  rewrite (next_due_singleton c id d Hdue). simpl. rewrite Z.max_l by lia.
  unfold occurs, ready, rearm. rewrite Hdue, lookup_singleton_eq, Hid. simpl.
  rewrite !bool_decide_eq_true_2 by lia. simpl. by rewrite Hid, insert_singleton_eq.
Qed.

(** Resume is a new game after 120 ms: a click on the button at time [t]
    while the game is stopped starts a timer, and when the browser is
    never late the page is loaded again at [t + 120], with the first tick
    of the new game due at [t + 240]. *)
Theorem resume_reload_time t c :
  page_ok (page c) → in_document (page c) = true → runningRef (page c) = false →
  due c = ∅ → clock c ≤ t →
  ∃ c1 c2, occurs t ClickPause c = Some c1 ∧ wait c1 = Some c2 ∧
    page c2 = reload (pause_click (page c)) ∧ clock c2 = t + 120 ∧
    ticking_at 1 (t + 240) c2.
Proof.
  intros Hok Hdoc Hstop Hdue Hclock. eexists _, _.
  split; [by apply occurs_resume|]. split.
  { apply (wait_reload (timerSeq (page c)) (t + 120)); cbn [page due clock]; [|done|lia].
    rewrite pause_click_stopped by done. simpl. by rewrite lookup_singleton_eq. }
  split; [done|]. split; [done|]. unfold reload. cbn [page clock due].
  replace (t + 240) with (t + 120 + 120) by lia. apply ticking_at_mount.
  rewrite pause_click_stopped by done. simpl. lia.
Qed.

End timed_facts.

(** ** Runs on the clock *)

#[local] Existing Instance demo_source.

(** A timer does not run before it is due, and time does not go back. *)
Example early_tick_refused :
  occurs 119 (TimerFires 1) loaded = None ∧
  occurs 120 (TimerFires 1) loaded = Some first_tick ∧
  occurs 100 (KeyDown "ArrowUp") first_tick = None.
Proof. by vm_compute. Qed.

(** A browser that is late: the first tick runs at 200 ms, the second is
    nevertheless due at 240 ms. *)
Example late_tick :
  due <$> occurs 200 (TimerFires 1) loaded = Some {[1%nat := 240]}.
Proof. by vm_compute. Qed.

(** The game of [Liveness.idle_game] on the clock: the tenth tick, at
    1200 ms, ends it. *)
Example idle_game_clock :
  (λ c, (runningRef (page c), clock c, due c)) <$> waits 10 loaded
  = Some (false, 1200, ∅).
Proof. by vm_compute. Qed.

Lemma score_pace_witness : 120 * scoreRef (page first_tick) ≤ clock first_tick - 0.
Proof. apply (score_pace 0 0 [(120, TimerFires 1%nat)]). by vm_compute. Defined.

Lemma idle_game_time_witness :
  ∃ k c', (0 < k ≤ 20)%nat ∧ waits k loaded = Some c' ∧ runningRef (page c') = false ∧
          due c' = ∅ ∧ clock c' = 120 + 120 * (Z.of_nat k - 1).
Proof. apply (idle_game_time 1 120 loaded). compute_done. Defined.

Lemma resume_reload_time_witness :
  ∃ c1 c2,
    occurs 1000 ClickPause {| page := stopped_page; clock := 500; due := ∅ |} = Some c1 ∧
    wait c1 = Some c2 ∧
    page c2 = reload (pause_click stopped_page) ∧ clock c2 = 1000 + 120 ∧
    ticking_at 1 (1000 + 240) c2.
Proof.
  apply (resume_reload_time 1000 {| page := stopped_page; clock := 500; due := ∅ |}
           stopped_page_ok); [by vm_compute|by vm_compute|done|simpl; lia].
Defined.
