(* ===== verification/View.v ===== *)
(** * View: what the page displays beside the canvas

    React evaluates the markup of [Markup] when it renders the component:
    once when the page loads, before the effect runs, and again after a
    handler in which [setScore] changed the state.  Writing a ref does not
    render.  The markup reads the state in two places, the score line
    (line 173) and the label of the second button (line 209), so what the
    document displays is the markup of the state at the last render.

    A [Page] is a state of [World] with the document displayed.
    [handle_page] runs a handler of [Controller] and then lets React
    commit: the document is rendered again when the score state has changed
    or the page has been loaded again, and is left alone otherwise. *)

From S2P Require Import Prelude Grid Random Food Input Canvas World Engine Controller Markup.

Record Page : Type := {
  world : World;
  dom : Node
}.

(** React after a handler that took [before] to [after]: render if the
    state [score] has changed or the page was loaded again. *)
Definition commit (before : World) (shown : Node) (after : World) : Node :=
  if decide (score after = score before ∧ reloads after = reloads before)
  then shown else render after.

Section pages.
Context `{RandomSource}.

(** A page load: the first render happens on the initial values of the
    refs, then the effect runs. *)
Definition mount_page (rng : nat) : Page :=
  {| world := mount rng 0 []; dom := render (initial rng 0 []) |}.

(** One turn of the event loop, with the commit that follows it. *)
Definition handle_page (e : Event) (p : Page) : option Page :=
  c ← handle e (world p);
  Some {| world := final c; dom := commit (world p) (dom p) (final c) |}.

Inductive reachable_page : Page → Prop :=
| reachable_page_mount rng : reachable_page (mount_page rng)
| reachable_page_step p e p' :
    reachable_page p → handle_page e p = Some p' → reachable_page p'.

(** What holds of the document in every state: it is the markup of a
    running game with the score of the state. *)
Definition view_ok (p : Page) : Prop :=
  dom p = render (set_runningRef true (world p)).

(** ** Facts *)

(** A handler that changes the state [score] without loading the page
    leaves the game running. *)
Lemma score_changed_running e w c :
  handle e w = Some c → reloads (final c) = reloads w → score (final c) ≠ score w →
  runningRef (final c) = true.
Proof.
  intros He Hre Hscore.
  destruct (handle_game e w c He Hre) as [(_ & _ & _ & _ & _ & ->)|Hgame]; cycle 1.
  { unfold game in Hgame. by injection Hgame as _ _ _ ?. }
  destruct (tick_view w); unfold ate, moved in *; revert Hscore; world_simpl; done.
Qed.

Lemma handle_view_ok e p p' : view_ok p → handle_page e p = Some p' → view_ok p'.
Proof.
  unfold view_ok, handle_page. intros Hdom.
  destruct (handle e (world p)) as [c|] eqn:He; [|done]. intros [= <-].
  unfold commit. cbn [world dom]. case_decide as Hsame.
  { rewrite Hdom. by apply render_ext; [apply eq_sym, Hsame|]. }
  apply render_ext; [done|]. simpl.
  destruct (handle_reload_cases e (world p) c He) as [->|Hre].
  - unfold final, reload.
    by destruct (mount_game (rng (world p)) (S (reloads (world p))) (alerts (world p)))
      as (_ & _ & _ & _ & _ & -> & _).
  - apply (score_changed_running e (world p) c); [done..|]. tauto.
Qed.

(** The states of reachable pages are the reachable states. *)
Lemma reachable_page_world p : reachable_page p → reachable (world p).
Proof.
  induction 1 as [rng|p e p' _ IH Hstep]; [constructor|].
  unfold handle_page in Hstep. destruct (handle e (world p)) as [c|] eqn:He; [|done].
  injection Hstep as <-. by eapply reachable_step.
Qed.

(** The score of a reachable page is the score of the game. *)
Lemma reachable_page_score p : reachable_page p → score (world p) = scoreRef (world p).
Proof.
  intros Hw%reachable_page_world.
  assert (page_ok (world p)) as ((_ & _ & _ & _ & _ & _ & ?) & _); [|done].
  induction Hw; [apply mount_ok|by eapply handle_ok].
Qed.

Lemma reachable_view_ok p : reachable_page p → view_ok p.
Proof. induction 1; [done|by eapply handle_view_ok]. Qed.

(** The score line is up to date: in every state a page can reach, the
    document displays the score of the game. *)
Theorem score_displayed p :
  reachable_page p →
  score_line (dom p) = Some ("Score: " +:+ pretty (scoreRef (world p))).
Proof.
  intros Hp. rewrite (reachable_view_ok p Hp), render_score_line. simpl.
  by rewrite (reachable_page_score p Hp).
Qed.

(** C34. The label of the Pause/Resume button never changes: in every state
    a page can reach it reads Pause, also while the game is paused or over.
    The label is computed from [runningRef] when React renders, and React
    renders only at a page load and after [setScore], when the game runs. *)
Theorem label_always_pause p :
  reachable_page p → button_labels (dom p) = ["Restart"; "Pause"].
Proof. intros Hp. by rewrite (reachable_view_ok p Hp), render_button_labels. Qed.

End pages.

(** ** Runs *)

#[local] Existing Instance demo_source.

(** The page of [Controller.page0], after a click on Pause: the game is
    stopped and the button still reads Pause. *)
Lemma label_always_pause_witness :
  button_labels (dom {| world := stopped_page; dom := render (initial 0 0 []) |})
  = ["Restart"; "Pause"].
Proof.
  apply label_always_pause. apply (reachable_page_step (mount_page 0) ClickPause).
  - constructor.
  - by vm_compute.
Defined.

Lemma score_displayed_witness :
  score_line (dom {| world := fed_page; dom := render fed_page |})
  = Some ("Score: " +:+ pretty (scoreRef (world {| world := fed_page; dom := render fed_page |}))).
Proof.
  apply score_displayed. apply (reachable_page_step (mount_page 0) (TimerFires 1)).
  - constructor.
  - by vm_compute.
Defined.

Example paused_label :
  runningRef stopped_page = false ∧
  (handle_page ClickPause (mount_page 0)) ≫= (λ p, Some (button_labels (dom p)))
  = Some ["Restart"; "Pause"].
Proof. by vm_compute. Qed.
