(* ===== verification/Spec.v ===== *)
(** * Spec: the game of the specification, and how far the code implements it

    The specification describes the game as a model (snake, current and
    pending direction, food, score, and a state Running, Paused or GameOver)
    driven by five commands: a tick, a key, pause, resume and reset.  This
    file writes that description down as an executable machine,
    [model_step], taken from the words of the specification and not from
    the source, and relates it to the handlers of [Controller] by the
    relation [refines] between a model and a state of the page.

    The theorems say which commands the code implements and under what
    condition: a tick, when the stored direction is not the reverse of the
    last move; a key, when it is the first since the last tick; pause; and
    reset, when the game is stopped.  They also say where it does not:
    resume never leads to a state that the resumed model describes.  Over
    whole runs, [session] singles out the sequences of events in which
    every command is used under its condition, and [session_refines] shows
    that such a run of the page is a run of the machine.  The run is the one
    [model_follows] computes, in which the FoodPlacer of every step is
    [spawnFood] at the position the page has reached in the random stream
    ([session_follows]).

    The code has one slot for the direction, [dirRef], where the
    specification has two (the direction of the last move and the pending
    one), and one flag, [runningRef], where the specification has three
    states; [refines] relates [dirRef] to the pending direction and leaves
    the current one to the conditions of the theorems, and does not tell
    Paused from GameOver. *)

From S2P Require Import Prelude Grid Random Food Input Canvas World Engine Controller.

(** ** The model (specification, sections 3 and 4.1) *)

Inductive GameState : Type := Running | Paused | GameOver.

#[export] Instance GameState_eq_dec : EqDecision GameState.
Proof. solve_decision. Defined.

Inductive TickResult : Type := Continue | Ate | Collided.

#[export] Instance TickResult_eq_dec : EqDecision TickResult.
Proof. solve_decision. Defined.

Inductive Command : Type :=
| Tick | Key (key : string) | Pause | Resume | Reset.

Record Model : Type := {
  model_snake : list Cell.t;
  model_direction : Cell.t;   (** the direction of the last tick *)
  model_pending : Cell.t;     (** the slot written by the keys *)
  model_food : Cell.t;
  model_score : Z;
  model_state : GameState
}.

#[export] Instance Model_eq_dec : EqDecision Model.
Proof. solve_decision. Defined.

Definition with_pending (d : Cell.t) (m : Model) : Model :=
  {| model_snake := model_snake m; model_direction := model_direction m;
     model_pending := d; model_food := model_food m;
     model_score := model_score m; model_state := model_state m |}.

Definition with_state (s : GameState) (m : Model) : Model :=
  {| model_snake := model_snake m; model_direction := model_direction m;
     model_pending := model_pending m; model_food := model_food m;
     model_score := model_score m; model_state := s |}.

(** A game at its start (section 3, Lifecycle). *)
Definition initial_model (food : Cell.t) : Model :=
  {| model_snake := [start]; model_direction := dir_right; model_pending := dir_right;
     model_food := food; model_score := 0; model_state := Running |}.

(** ** The commands *)

(** A direction is legal when it is not the exact opposite of the current
    movement direction (section 4.3). *)
Definition legal (m : Model) (d : Cell.t) : bool :=
  bool_decide (d ≠ Cell.neg (model_direction m)).

(** InputController (section 4.3): a key writes the pending slot when the
    direction it asks for is legal; other keys are ignored. *)
Definition onKey (key : string) (m : Model) : Model :=
  match key_direction key with
  | Some d => if legal m d then with_pending d m else m
  | None => m
  end.

(** SimulationEngine (section 4.4).  [place] is FoodPlacer, given the cells
    of the snake. *)
Definition model_tick (place : list Cell.t → Cell.t) (m : Model) : Model * TickResult :=
  let dir := if legal m (model_pending m) then model_pending m else model_direction m in
  match model_snake m with
  | [] => (m, Collided)
  | head :: _ =>
      let head' := Cell.add head dir in
      if bool_decide (in_grid head') && bool_decide (head' ∉ model_snake m) then
        let snake := head' :: model_snake m in
        if bool_decide (head' = model_food m) then
          ({| model_snake := snake; model_direction := dir; model_pending := dir;
              model_food := place snake; model_score := model_score m + 1;
              model_state := model_state m |}, Ate)
        else
          ({| model_snake := removelast snake; model_direction := dir;
              model_pending := dir; model_food := model_food m;
              model_score := model_score m; model_state := model_state m |}, Continue)
      else (m, Collided)
  end.

(** GameController (section 4.6). *)
Definition model_step (place : list Cell.t → Cell.t) (cmd : Command) (m : Model) : Model :=
  match cmd, model_state m with
  | Tick, Running =>
      let result := model_tick place m in
      if decide (result.2 = Collided) then with_state GameOver result.1 else result.1
  | Key key, _ => onKey key m
  | Pause, Running => with_state Paused m
  | Resume, Paused => with_state Running m
  | Reset, _ => initial_model (place [start])
  | _, _ => m
  end.

(** ** The relation between the model and the page *)

(** The state of the page shows the model: same snake, food and score, the
    pending direction in [dirRef], and the tick callback scheduled exactly
    when the model is Running. *)
Definition refines (m : Model) (w : World) : Prop :=
  model_snake m = snakeRef w ∧ model_pending m = dirRef w ∧
  foodRef w = Some (model_food m) ∧ model_score m = scoreRef w ∧
  model_score m = score w ∧
  match model_state m with
  | Running => runningRef w = true ∧ ticking w
  | Paused | GameOver => runningRef w = false
  end.

(** FoodPlacer as the code has it: [spawnFood] at the position of the page
    in the random stream. *)
Definition place_of `{RandomSource} (w : World) (snake : list Cell.t) : Cell.t :=
  (spawnFood snake (rng w)).1.

(** The model a page shows when no key was pressed since the last tick. *)
Definition model_of (w : World) : Model :=
  {| model_snake := snakeRef w; model_direction := dirRef w; model_pending := dirRef w;
     model_food := default start (foodRef w); model_score := scoreRef w;
     model_state := if runningRef w then Running else Paused |}.

(** ** Runs *)

(** The command an event of the page stands for.  The load of the logo is
    no command: the model does not change. *)
Definition command_of (e : Event) : option Command :=
  match e with
  | KeyDown key => Some (Key key)
  | TimerFires _ => Some Tick
  | ClickPause => Some Pause
  | ClickRestart => Some Reset
  | LogoLoads => None
  | Unmount => None
  | Cleanup => None
  end.

(** The sessions in which the page is used the way the specification
    describes it: Pause is clicked while the game runs and Restart while it
    is stopped, the component stays in the document, and at most one key is
    pressed between two moves of the snake.  [after_key] says that a key
    was pressed since the last move or the last reset.  The events are
    checked along the run from [w]. *)
Fixpoint session `{RandomSource} (after_key : bool) (events : list Event) (w : World) : bool :=
  match events with
  | [] => true
  | e :: events =>
      match handle e w with
      | None => false
      | Some c =>
          match e with
          | KeyDown _ => negb after_key && session true events (final c)
          | TimerFires _ =>
              session (after_key && negb (runningRef (final c))) events (final c)
          | ClickPause => runningRef w && session after_key events (final c)
          | ClickRestart => negb (runningRef w) && session false events (final c)
          | LogoLoads => session after_key events (final c)
          | Unmount => false
          | Cleanup => false
          end
      end
  end.

(** The runs of the machine, with any FoodPlacer at each step. *)
Inductive model_reaches : Model → list Command → Model → Prop :=
| model_reaches_nil m : model_reaches m [] m
| model_reaches_cons place cmd m cmds m' :
    model_reaches (model_step place cmd m) cmds m' →
    model_reaches m (cmd :: cmds) m'.

(** The run of the machine that follows a run of the page: each event is
    the command it stands for, and the FoodPlacer of a step is [spawnFood]
    at the position the page has reached in the random stream. *)
Fixpoint model_follows `{RandomSource} (events : list Event) (w : World) (m : Model)
    : option Model :=
  match events with
  | [] => Some m
  | e :: events =>
      c ← handle e w;
      model_follows events (final c)
        (from_option (λ cmd, model_step (place_of w) cmd m) m (command_of e))
  end.

(** What a run keeps true of the two directions of the model: the pending
    one is legal, and it is the current one unless a key came last. *)
Definition in_step (after_key : bool) (m : Model) : Prop :=
  model_pending m ≠ Cell.neg (model_direction m) ∧
  (after_key = false → model_direction m = model_pending m).

(** ** Facts *)

Section refinement.
Context `{RandomSource}.
Implicit Types (m : Model) (w : World).

Lemma legal_true m d : legal m d = true ↔ d ≠ Cell.neg (model_direction m).
Proof. unfold legal. by rewrite bool_decide_eq_true. Qed.

(** The states [ate] and [moved] keep the schedule. *)
Lemma ticking_ate w head : ticking w → ticking (ate w head).
Proof. unfold ticking, ate. by world_simpl. Qed.

Lemma ticking_moved w head : ticking w → ticking (moved w head).
Proof. unfold ticking, moved. by world_simpl. Qed.

(** The tick of the model on a model that a playable page shows, when the
    pending direction is legal. *)
Lemma model_tick_collision place m w first rest :
  refines m w → legal m (model_pending m) = true → snakeRef w = first :: rest →
  ¬ in_grid (Cell.add first (dirRef w)) ∨ Cell.add first (dirRef w) ∈ snakeRef w →
  model_tick place m = (m, Collided).
Proof.
  intros (Hsnake & Hdir & _) Hlegal Hw Hhit. unfold model_tick.
  rewrite Hlegal, Hsnake, Hdir, Hw in *.
  destruct Hhit; [by rewrite bool_decide_eq_false_2|].
  rewrite (bool_decide_eq_false_2 (_ ∉ _)) by tauto. by rewrite andb_false_r.
Qed.

Lemma model_tick_free place m w first rest :
  refines m w → legal m (model_pending m) = true → snakeRef w = first :: rest →
  in_grid (Cell.add first (dirRef w)) → Cell.add first (dirRef w) ∉ snakeRef w →
  model_tick place m
  = let head := Cell.add first (dirRef w) in
    if bool_decide (head = model_food m) then
      ({| model_snake := head :: snakeRef w; model_direction := dirRef w;
          model_pending := dirRef w; model_food := place (head :: snakeRef w);
          model_score := model_score m + 1; model_state := model_state m |}, Ate)
    else
      ({| model_snake := removelast (head :: snakeRef w); model_direction := dirRef w;
          model_pending := dirRef w; model_food := model_food m;
          model_score := model_score m; model_state := model_state m |}, Continue).
Proof.
  intros (Hsnake & Hdir & _) Hlegal Hw Hgrid Hfree. unfold model_tick.
  rewrite Hlegal, Hsnake, Hdir, Hw in *.
  by rewrite (bool_decide_eq_true_2 (in_grid _)), (bool_decide_eq_true_2 (_ ∉ _)).
Qed.

Lemma with_pending_id m : with_pending (model_pending m) m = m.
Proof. by destruct m. Qed.

(** On a model whose pending direction is the current one, the key rule of
    the specification stores what [handleKey] stores. *)
Lemma onKey_handleKey key m :
  is_direction (model_pending m) → model_direction m = model_pending m →
  onKey key m = with_pending (handleKey key (model_pending m)) m.
Proof.
  unfold onKey, legal. destruct m as [? cur pending ? ? ?]. simpl.
  intros Hd ->. apply is_direction_inv in Hd.
  destruct Hd as [-> | [-> | [-> | ->]]];
    (handleKey_cases key as Hother; [done..|by rewrite Hother]).
Qed.

Lemma refines_with_pending m w d :
  refines m w → refines (with_pending d m) (set_dirRef d w).
Proof. unfold refines, ticking. simpl. intros (? & ? & ? & ? & ? & ?). by split_and!. Qed.

(** A page just loaded shows the model at its start. *)
Lemma refines_mount rng n alerts :
  refines (initial_model (spawnFood [start] rng).1) (mount rng n alerts).
Proof.
  destruct (mount_game rng n alerts) as (Hs & Hd & Hsc & Hst & Hf & Hrun & Ht).
  unfold refines, ticking. rewrite Hs, Hd, Hsc, Hst, Hf, Hrun, Ht. simpl.
  split_and!; try done. eexists 1%nat, _. by rewrite lookup_singleton_eq.
Qed.

(** One tick of the page against one tick of the model; a model that is
    still Running afterwards has adopted the pending direction. *)
Lemma tick_sim m w :
  page_ok w → refines m w → model_state m = Running →
  model_pending m ≠ Cell.neg (model_direction m) →
  refines (model_step (place_of w) Tick m) (final (tick w)) ∧
  (model_state (model_step (place_of w) Tick m) = Running →
   model_direction (model_step (place_of w) Tick m)
   = model_pending (model_step (place_of w) Tick m)).
Proof.
  intros Hw Hm Hstate Hlegal%legal_true. unfold model_step. rewrite Hstate.
  pose proof Hm as (Hsnake & Hdir & Hfood & Hscore & Hscore' & Hrun).
  rewrite Hstate in Hrun. destruct Hrun as [Hrun Htick].
  destruct (tick_view w) as [?|? ?|first rest _ Hs Hhit|first rest _ Hs Hgrid Hfree Hnone
    |first rest _ Hs Hgrid Hfree Hf|first rest food _ Hs Hgrid Hfree Hf Hne];
    [congruence|by destruct Hw as ((? & _) & _)| |congruence|..].
  - rewrite (model_tick_collision _ m w first rest) by done. simpl.
    split; [|done]. unfold refines. by rewrite gameOver_eq.
  - rewrite (model_tick_free _ m w first rest) by done. simpl.
    rewrite bool_decide_eq_true_2 by congruence. simpl. split; [|done].
    unfold refines. simpl. rewrite Hstate.
    split_and!; [unfold ate, place_of; world_simpl..|by apply ticking_ate];
      done || lia.
  - rewrite (model_tick_free _ m w first rest) by done. simpl.
    rewrite bool_decide_eq_false_2 by congruence. simpl. split; [|done].
    unfold refines. simpl. rewrite Hstate.
    split_and!; [unfold moved; world_simpl..|by apply ticking_moved]; done.
Qed.

(** On a page that shows a Running model, the timers that can fire are the
    tick timer. *)
Lemma running_timer m w id c :
  page_ok w → refines m w → model_state m = Running →
  handle (TimerFires id) w = Some c → c = tick w.
Proof.
  intros (_ & Hsched & _) (_ & _ & _ & _ & _ & Hrun) Hstate. rewrite Hstate in Hrun.
  destruct Hrun as [Hrun (id' & timer' & Hid' & Hcb)].
  destruct (scheduled_running w) as (i & timer & _ & Ht & _); [done..|].
  rewrite Ht in Hid'. apply lookup_singleton_Some in Hid' as [-> ->].
  unfold handle. rewrite Ht. destruct (decide (id = id')) as [->|];
    [rewrite lookup_singleton_eq|by rewrite lookup_singleton_ne].
  simpl. rewrite Hcb. by intros [= <-].
Qed.

(** C3. The tick callback implements the tick of the specification: on a
    page that shows a Running model whose pending direction is not the
    reverse of the last move, the tick timer can fire, and the state after
    [tick] shows the model after its tick, with [spawnFood] as FoodPlacer. *)
Theorem tick_refines m w :
  page_ok w → refines m w → model_state m = Running →
  model_pending m ≠ Cell.neg (model_direction m) →
  ∃ id, handle (TimerFires id) w = Some (tick w) ∧
        refines (model_step (place_of w) Tick m) (final (tick w)).
Proof.
  intros Hw Hm Hstate Hlegal. pose proof Hm as (_ & _ & _ & _ & _ & Hrun).
  rewrite Hstate in Hrun. destruct Hrun as [_ (id & [[] ms] & Hid & Hcb)]; [|done].
  exists id. split; [by rewrite (handle_timer _ _ _ Hid)|by apply tick_sim].
Qed.

(** One key on the page against one key on the model, for the first key
    after a tick; the pending direction stays legal. *)
Lemma key_sim m w key :
  page_ok w → in_document w = true → refines m w →
  model_direction m = model_pending m →
  refines (onKey key m) (keydown key w) ∧ in_step true (onKey key m) ∧
  model_state (onKey key m) = model_state m.
Proof.
  intros Hw Hdoc Hm Hcur. pose proof Hm as (_ & Hdir & _).
  assert (is_direction (model_pending m)) as Hd by (rewrite Hdir; apply Hw).
  rewrite keydown_mounted, onKey_handleKey, <-Hdir by done.
  split; [by apply refines_with_pending|]. split; [|done]. split; [|done]. simpl.
  rewrite Hcur. destruct (handleKey_inv key _ Hd) as [->|(_ & _ & ?)]; [|done].
  by apply neg_ne.
Qed.

(** The key listener implements the key rule of the specification for
    the first key after a tick: when the pending direction is still the
    current one, the state after the listener shows the model after
    [onKey]. *)
Theorem key_refines place m w key :
  page_ok w → in_document w = true → refines m w →
  model_direction m = model_pending m →
  handle (KeyDown key) w = Some (Normal (keydown key w)) ∧
  refines (model_step place (Key key) m) (keydown key w).
Proof.
  intros Hw Hdoc Hm Hcur. split; [done|].
  assert (model_step place (Key key) m = onKey key m) as ->
    by (unfold model_step; by destruct (model_state m)).
  by apply key_sim.
Qed.

(** C18. The Resume button does not implement the resume command: on a page
    that shows a Paused model, the state after the click does not show the
    resumed model, and no later state of that page does either, since the
    tick callback is not scheduled again. *)
Theorem resume_diverges place m w :
  page_ok w → refines m w → model_state m = Paused →
  ¬ refines (model_step place Resume m) (pause_click w).
Proof.
  intros Hw Hm Hstate. unfold model_step. rewrite Hstate.
  destruct Hm as (_ & _ & _ & _ & _ & Hrun). rewrite Hstate in Hrun.
  intros (_ & _ & _ & _ & _ & _ & id & timer & Hid & Hcb).
  rewrite pause_click_stopped in Hid by done. simpl in Hid.
  apply lookup_singleton_Some in Hid as [_ <-]. done.
Qed.

(** ** Runs of keys and ticks *)

Lemma model_step_key place key m : model_step place (Key key) m = onKey key m.
Proof. unfold model_step. by destruct (model_state m). Qed.

(** A direction that is the current one is legal. *)
Lemma in_step_adopted b m :
  is_direction (model_pending m) → model_direction m = model_pending m → in_step b m.
Proof. intros Hd Hcur. split; [|done]. rewrite Hcur. by apply neg_ne. Qed.

(** The tick of the machine either ends the game and changes nothing else,
    or leaves the game running. *)
Lemma model_step_tick place m :
  model_state m = Running →
  model_step place Tick m = with_state GameOver m ∨
  model_state (model_step place Tick m) = Running.
Proof.
  intros Hst. unfold model_step, model_tick. rewrite Hst.
  destruct (model_snake m); [by left|].
  destruct (_ && _); [|by left]. right. by destruct (bool_decide _).
Qed.

(** The step of the simulation for a tick: the game goes on with the
    current direction adopted, or it is over and the directions are those
    before the tick. *)
Lemma tick_sim_step b m w :
  page_ok w → refines m w → model_state m = Running → in_step b m →
  refines (model_step (place_of w) Tick m) (final (tick w)) ∧ page_ok (final (tick w)) ∧
  in_step (b && negb (runningRef (final (tick w)))) (model_step (place_of w) Tick m).
Proof.
  intros Hw Hm Hst Hstep.
  destruct (tick_sim m w Hw Hm Hst (proj1 Hstep)) as [Hm' Hdir].
  pose proof (proj1 (tick_ok w Hw)) as Hw'. split_and!; [done..|].
  pose proof Hm' as (_ & Hpending & _ & _ & _ & Hrun).
  destruct (model_step_tick (place_of w) m Hst) as [Hover|Hst'].
  - rewrite Hover in *. simpl in Hrun. rewrite Hrun, andb_true_r. apply Hstep.
  - rewrite Hst' in Hrun. rewrite (proj1 Hrun), andb_false_r.
    apply in_step_adopted; [|by apply Hdir]. rewrite Hpending. apply Hw'.
Qed.

(** A timer that fires on a page that shows a model is the tick timer, and
    the model is Running. *)
Lemma timer_running m w id c :
  page_ok w → refines m w → handle (TimerFires id) w = Some c →
  model_state m = Running ∧ c = tick w.
Proof.
  intros Hw Hm Hc. assert (model_state m = Running) as Hst.
  { destruct Hm as (_ & _ & _ & _ & _ & Hrun).
    destruct (model_state m); [done|..];
      (simpl in Hc; by rewrite (scheduled_stopped w), lookup_empty in Hc by (done || apply Hw)). }
  split; [done|]. by eapply running_timer.
Qed.

(** The steps of the simulation for the buttons and the logo. *)
Lemma pause_sim place m w :
  page_ok w → refines m w → runningRef w = true →
  refines (model_step place Pause m) (pause_click w).
Proof.
  intros Hw Hm Hrun. assert (model_state m = Running) as Hst.
  { destruct Hm as (_ & _ & _ & _ & _ & Hm). destruct (model_state m); congruence. }
  unfold model_step. rewrite Hst. rewrite pause_click_running by done.
  destruct Hm as (? & ? & ? & ? & ? & _). by unfold refines.
Qed.

Lemma reset_sim m w :
  model_step (place_of w) Reset m = initial_model (spawnFood [start] (rng w)).1 ∧
  refines (model_step (place_of w) Reset m) (reload w).
Proof.
  assert (model_step (place_of w) Reset m = initial_model (place_of w [start])) as ->
    by (unfold model_step; by destruct (model_state m)).
  split; [done|]. apply refines_mount.
Qed.

Lemma onload_sim m w : refines m w → refines m (onload w).
Proof. unfold refines, ticking, onload. by world_simpl. Qed.

Lemma in_step_with_state b s m : in_step b m → in_step b (with_state s m).
Proof. done. Qed.

(** One event of a session: the page after the handler shows the model
    after the command, with [spawnFood] as FoodPlacer. *)
Lemma session_step b e w c m :
  page_ok w → in_document w = true → refines m w → in_step b m →
  handle e w = Some c → session b [e] w = true →
  let m1 := from_option (λ cmd, model_step (place_of w) cmd m) m (command_of e) in
  let b1 := match e with
            | KeyDown _ => true
            | TimerFires _ => b && negb (runningRef (final c))
            | ClickRestart => false
            | _ => b
            end in
  page_ok (final c) ∧ in_document (final c) = true ∧ refines m1 (final c) ∧ in_step b1 m1.
Proof.
  intros Hw Hdoc Hm Hstep Hc Hs. cbv zeta. simpl in Hs. rewrite Hc in Hs.
  destruct (handle_ok e w c Hw Hc) as [Hok _]. split; [done|].
  destruct e as [key|id| | | | |]; [..|done|done]; cbn [command_of from_option].
  - apply andb_true_iff in Hs as [->%negb_true_iff _]. injection Hc as <-. cbn [final].
    destruct (key_sim m w key Hw Hdoc Hm (proj2 Hstep eq_refl)) as (Hm1 & Hstep1 & _).
    rewrite model_step_key. split_and!; [by rewrite keydown_eq|done..].
  - destruct (timer_running m w id c Hw Hm Hc) as [Hst ->].
    destruct (tick_sim_step b m w) as (Hm1 & Hw1 & Hstep1); [done..|].
    by rewrite in_document_tick.
  - apply andb_true_iff in Hs as [Hstopped%negb_true_iff _].
    simpl in Hc. rewrite Hdoc in Hc. unfold restart_click in Hc. rewrite Hstopped in Hc.
    injection Hc as <-. cbn [final]. destruct (reset_sim m w) as [Heq Hm1].
    split_and!; [by apply in_document_reload|done|].
    rewrite Heq. by apply in_step_adopted; [compute_done|].
  - apply andb_true_iff in Hs as [Hrunning _]. simpl in Hc. rewrite Hdoc in Hc.
    injection Hc as <-. cbn [final].
    split_and!; [by rewrite in_document_pause_click|by apply pause_sim|].
    unfold model_step. by destruct (model_state m).
  - simpl in Hc. case_bool_decide; [|done]. injection Hc as <-. cbn [final].
    split_and!; [by rewrite in_document_onload|by apply onload_sim|done].
Qed.

(** A session splits into its first event and the session that follows. *)
Lemma session_cons b e events w c :
  handle e w = Some c → session b (e :: events) w = true →
  session b [e] w = true ∧
  session (match e with
           | KeyDown _ => true
           | TimerFires _ => b && negb (runningRef (final c))
           | ClickRestart => false
           | _ => b
           end) events (final c) = true.
Proof.
  simpl. intros ->. destruct e; rewrite ?andb_true_r; try done;
    by intros [-> ->]%andb_true_iff.
Qed.

(** A session of the page is followed by the machine, step by step. *)
Theorem session_follows events : ∀ b w w' m,
  session b events w = true → page_ok w → in_document w = true → refines m w →
  in_step b m → run events w = Some w' →
  ∃ m', model_follows events w m = Some m' ∧ refines m' w'.
Proof.
  induction events as [|e events IH]; intros b w w' m Hs Hw Hdoc Hm Hstep;
    [intros [= <-]; by exists m|].
  rewrite run_cons. cbn [model_follows].
  destruct (handle e w) as [c|] eqn:Hc; [simpl|by simpl in Hs; rewrite Hc in Hs].
  destruct (session_cons b e events w c Hc Hs) as [Hs1 Hs2].
  destruct (session_step b e w c m Hw Hdoc Hm Hstep Hc Hs1) as (Hw1 & Hdoc1 & Hm1 & Hstep1).
  by apply (IH _ _ _ _ Hs2).
Qed.

(** The run that follows a page is a run of the machine. *)
Lemma model_follows_reaches events : ∀ w m m',
  model_follows events w m = Some m' → model_reaches m (omap command_of events) m'.
Proof.
  induction events as [|e events IH]; intros w m m'; simpl;
    [intros [= <-]; constructor|].
  destruct (handle e w) as [c|]; [simpl|done]. intros Hrun%IH.
  destruct (command_of e); [by apply (model_reaches_cons (place_of w))|done].
Qed.

(** A session of the page is a run of the machine. *)
Lemma session_sim events b w w' m :
  session b events w = true → page_ok w → in_document w = true → refines m w →
  in_step b m → run events w = Some w' →
  ∃ m', model_reaches m (omap command_of events) m' ∧ refines m' w'.
Proof.
  intros Hs Hw Hdoc Hm Hstep Hrun.
  destruct (session_follows events b w w' m) as (m' & Hfollow & Hm'); [done..|].
  exists m'. eauto using model_follows_reaches.
Qed.

(** C4. Play is a run of the specification's machine: every session from a
    page load (key presses with at most one between two moves of the snake,
    ticks, Pause while the game runs, Restart while it is stopped, the load
    of the logo) is matched command by command by a run of the machine from
    its initial model, and the page shows the model reached, whether the
    game is running, paused or over at the end. *)
Theorem session_refines events rng w' :
  session false events (mount rng 0 []) = true → run events (mount rng 0 []) = Some w' →
  ∃ m', model_reaches (initial_model (spawnFood [start] rng).1) (omap command_of events) m' ∧
        refines m' w'.
Proof.
  intros Hs Hrun.
  eapply (session_sim events false);
    [done|apply mount_ok|apply in_document_mount|apply refines_mount| |done].
  by apply in_step_adopted; [compute_done|].
Qed.

(** A page that satisfies the invariant shows the model read off it, as
    long as the timer of a running page is the tick timer. *)
Lemma refines_model_of w :
  page_ok w → (runningRef w = true → ticking w) → refines (model_of w) w.
Proof.
  intros ((_ & _ & _ & _ & Hfood & _ & Hscore) & _) Htick.
  unfold refines, model_of, food_in_grid in *. simpl.
  destruct (foodRef w); [|done]. split_and!; try done.
  destruct (runningRef w); [by split; [|apply Htick]|done].
Qed.

End refinement.

(** ** Runs on the pages of [Controller] *)

#[local] Existing Instance demo_source.

Lemma page0_refines : refines (model_of page0) page0.
Proof.
  apply refines_model_of; [apply page0_ok|]. intros _.
  eexists 1%nat, _. by vm_compute.
Qed.

Lemma stopped_page_refines : refines (model_of stopped_page) stopped_page.
Proof. apply refines_model_of; [apply stopped_page_ok|]. by vm_compute. Qed.

Lemma tick_refines_witness :
  ∃ id, handle (TimerFires id) page0 = Some (tick page0) ∧
        refines (model_step (place_of page0) Tick (model_of page0)) (final (tick page0)).
Proof.
  refine (tick_refines (model_of page0) page0 page0_ok page0_refines _ _); by vm_compute.
Defined.

Lemma key_refines_witness :
  handle (KeyDown "ArrowUp") page0 = Some (Normal (keydown "ArrowUp" page0)) ∧
  refines (model_step (place_of page0) (Key "ArrowUp") (model_of page0))
          (keydown "ArrowUp" page0).
Proof.
  refine (key_refines (place_of page0) (model_of page0) page0 "ArrowUp"
            page0_ok _ page0_refines _); by vm_compute.
Defined.

Lemma resume_diverges_witness :
  ¬ refines (model_step (place_of stopped_page) Resume (model_of stopped_page))
            (pause_click stopped_page).
Proof.
  refine (resume_diverges (place_of stopped_page) (model_of stopped_page) stopped_page
            stopped_page_ok stopped_page_refines _); by vm_compute.
Defined.

(** The first scenarios of the specification, on the model: one tick
    without food ahead, and one with the food at (11, 10). *)
Example model_scenario_move :
  model_tick (λ _, Cell.mk 0 0) (initial_model (Cell.mk 3 4))
  = ({| model_snake := [Cell.mk 11 10]; model_direction := dir_right;
        model_pending := dir_right; model_food := Cell.mk 3 4; model_score := 0;
        model_state := Running |}, Continue).
Proof. reflexivity. Qed.

Example model_scenario_eat :
  model_tick (λ _, Cell.mk 3 4) (initial_model (Cell.mk 11 10))
  = ({| model_snake := [Cell.mk 11 10; Cell.mk 10 10]; model_direction := dir_right;
        model_pending := dir_right; model_food := Cell.mk 3 4; model_score := 1;
        model_state := Running |}, Ate).
Proof. reflexivity. Qed.

(** The machine following a session: the snake eats, turns up, moves and
    is paused, with the food where [spawnFood] put it. *)
Example model_follows_session :
  model_follows [TimerFires 1%nat; KeyDown "ArrowUp"; LogoLoads; TimerFires 1%nat; ClickPause]
    page0 (initial_model (spawnFood [start] 0).1)
  = Some {| model_snake := [Cell.mk 11 9; Cell.mk 11 10]; model_direction := Cell.mk 0 (-1);
            model_pending := Cell.mk 0 (-1); model_food := Cell.mk 3 4; model_score := 1;
            model_state := Paused |}.
Proof. by vm_compute. Qed.

(** A session with a tick, a key, a tick, a pause and a restart. *)
Lemma session_refines_witness :
  ∃ m', model_reaches (initial_model (spawnFood [start] 0).1)
          (omap command_of [TimerFires 1%nat; KeyDown "ArrowUp"; TimerFires 1%nat;
                            ClickPause; ClickRestart; TimerFires 1%nat]) m' ∧
        refines m' (final (tick (reload (pause_click (final (tick (keydown "ArrowUp" fed_page))))))).
Proof.
  refine (session_refines [TimerFires 1%nat; KeyDown "ArrowUp"; TimerFires 1%nat;
                            ClickPause; ClickRestart; TimerFires 1%nat] 0
            (final (tick (reload (pause_click (final (tick (keydown "ArrowUp" fed_page))))))) _ _);
    by vm_compute.
Defined.
